(** * Dataset abstraction layer of the emotion-recognition toolkit

    A shallow embedding of [emotion_recognition/dataset.py]: the array
    reshaper ([_make_flat], [_make_ragged], [_reshape_data_array]), the
    storage-backend dispatch of [Dataset.__init__], the mutators of
    [LabelledDataset] and the merge performed by [CombinedDataset].

    Python values are modelled as follows.
    - an exception is a constructor of [exn]; a call that may raise
      returns a [result];
    - a [str] is a [string], a [List[str]] is a [list string], a [set] of
      strings is a [gset string], a [dict] from strings to strings is a
      [gmap string string];
    - an integer numpy vector is a [list nat] (all the vectors of the
      module hold indices or counts);
    - the feature matrix is an [ndarray]: a 2-D array is the list of its
      rows, a 3-D array or an object array is the list of its 2-D items.
      Feature values are never inspected by the code below, so their type
      [V] is left abstract;
    - an attribute that a constructor may leave unset is an [option],
      and reading it when unset raises [AttributeError];
    - [Dataset.__init__] binds [self._x] to the array of the backend, so
      the two names denote one array until [self._x] is assigned again.
      The record keeps the value under both names and a flag
      [shares_features] telling whether they are still one array: a
      write into [self.x] then goes to both.

    Printing and warnings are left out. *)

From stdpp Require Import gmap strings list sorting pretty.

Set Default Proof Using "Type".

(** ** Exceptions *)

Inductive exn : Set :=
  | IndexError
  | ValueError
  | TypeError
  | AttributeError
  | NotImplementedError
  | AssertionError
  | KeyError
  | OSError.

#[global] Instance exn_eq_dec : EqDecision exn.
Proof. solve_decision. Defined.

Inductive result (A : Type) : Type :=
  | Ok (a : A)
  | Raise (e : exn).
Arguments Ok {A} a.
Arguments Raise {A} e.

#[global] Instance result_ret : MRet result := @Ok.
#[global] Instance result_bind : MBind result := λ A B f m,
  match m with Ok a => f a | Raise e => Raise e end.
#[global] Instance result_fmap : FMap result := λ A B f m,
  match m with Ok a => Ok (f a) | Raise e => Raise e end.

Definition is_Ok {A} (m : result A) : Prop := ∃ a, m = Ok a.

(** A loop [for a in l: st = body(st, a)] whose body may raise. *)
Fixpoint foldlM {A S} (body : S → A → result S) (st : S) (l : list A) : result S :=
  match l with
  | [] => Ok st
  | a :: l' => st' ← body st a; foldlM body st' l'
  end.

(** Reading an attribute that is only set on some objects. *)
Definition getattr {A} (o : option A) : result A :=
  match o with
  | Some a => Ok a
  | None => Raise AttributeError
  end.

(** ** Python built-ins *)

Module py.

(** [l[i]] for a non-negative [i]. *)
Definition getitem {A} (l : list A) (i : nat) : result A :=
  match l !! i with
  | Some a => Ok a
  | None => Raise IndexError
  end.

(** [l.index(x)]: position of the first occurrence. *)
Fixpoint index (l : list string) (x : string) : result nat :=
  match l with
  | [] => Raise ValueError
  | c :: l' => if decide (c = x) then Ok 0 else S <$> index l' x
  end.

(** [l[:-1]]. *)
Definition init {A} (l : list A) : list A := take (length l - 1) l.

(** [a[st:end]] for non-negative bounds. *)
Definition slice {A} (st en : nat) (a : list A) : list A :=
  take (en - st) (drop st a).

(** [s.lower()], on ASCII letters. *)
Definition lower_ascii (c : Ascii.ascii) : Ascii.ascii :=
  let n := Ascii.nat_of_ascii c in
  if (65 <=? n) && (n <=? 90) then Ascii.ascii_of_nat (n + 32) else c.
Fixpoint lower (s : string) : string :=
  match s with
  | EmptyString => EmptyString
  | String c s' => String (lower_ascii c) (lower s')
  end.

(** [sorted(s)] for a set of strings: code-point order. *)
Definition sorted (s : gset string) : list string :=
  merge_sort String.le (elements s).

(** [[i for i, x in enumerate(l) if P x]]. *)
Fixpoint positions_from {A} (P : A → bool) (i : nat) (l : list A) : list nat :=
  match l with
  | [] => []
  | x :: l' =>
      if P x then i :: positions_from P (S i) l' else positions_from P (S i) l'
  end.
Definition positions {A} (P : A → bool) (l : list A) : list nat :=
  positions_from P 0 l.

End py.

(** ** The fragment of numpy the module relies on *)

Module np.

(** [np.cumsum]. *)
Fixpoint cumsum_from (acc : nat) (l : list nat) : list nat :=
  match l with
  | [] => []
  | n :: l' => (acc + n) :: cumsum_from (acc + n) l'
  end.
Definition cumsum : list nat → list nat := cumsum_from 0.

(** [np.split(ary, indices, axis=0)] with a vector of indices: numpy
    cuts at [div_points = [0] + indices + [len(ary)]] and returns the
    slices [ary[st:end]] of consecutive points. *)
Fixpoint sub_arys {A} (ary : list A) (div_points : list nat) : list (list A) :=
  match div_points with
  | st :: rest =>
      match rest with
      | en :: _ => py.slice st en ary :: sub_arys ary rest
      | [] => []
      end
  | [] => []
  end.
Definition split {A} (ary : list A) (indices : list nat) : list (list A) :=
  sub_arys ary (0 :: indices ++ [length ary]).

(** [np.bincount(a, minlength=m)] on an integer vector: the result has
    [max(len, m)] entries where [len] is [max(a) + 1] ([0] when [a] is
    empty). *)
Definition bincount (a : list nat) (minlength : nat) : list nat :=
  let n := foldr (λ v acc, S v `max` acc) minlength a in
  (λ k, length (filter (λ v, v = k) a)) <$> seq 0 n.

(** [np.bincount(np.array(l))] where the vector is built from a Python
    list without a dtype: [np.array([])] is a float64 array, and
    [np.bincount] refuses to cast a float array to integers. *)
Definition bincount_of_list (l : list nat) : result (list nat) :=
  match l with
  | [] => Raise TypeError
  | _ => Ok (bincount l 0)
  end.

(** [np.repeat(np.arange(k), sizes)]. *)
Definition repeat_arange (sizes : list nat) : list nat :=
  mjoin (imap (λ j n, replicate n j) sizes).

(** [np.nonzero(cond)[0]]. *)
Definition nonzero (cond : list bool) : list nat := py.positions id cond.

(** [a[idx]] with a list of non-negative indices. *)
Definition take_idx {A} (a : list A) (idx : list nat) : result (list A) :=
  mapM (py.getitem a) idx.

(** [a[idx]] where [idx] is a vector built by [np.array(l)] without a
    dtype: the empty one is a float64 array, which cannot index. *)
Definition take_by_array {A} (a : list A) (idx : list nat) : result (list A) :=
  match idx with
  | [] => Raise IndexError
  | _ => take_idx a idx
  end.

(** [a[idx] = vals], one value per index (numpy's broadcasting of a
    shorter [vals] is not modelled: a length mismatch raises). *)
Fixpoint put_idx {A} (a : list A) (idx : list nat) (vals : list A) : result (list A) :=
  match idx, vals with
  | [], [] => Ok a
  | i :: idx', v :: vals' =>
      if decide (i < length a) then put_idx (<[i:=v]> a) idx' vals'
      else Raise IndexError
  | _, _ => Raise ValueError
  end.

(** [np.concatenate(arrs)] along axis 0: at least one array, and each
    array must agree (by [ok]) with what precedes it on the other axes. *)
Fixpoint concat_from {A} (ok : list A → list A → bool)
    (acc : list A) (arrs : list (list A)) : result (list A) :=
  match arrs with
  | [] => Ok acc
  | b :: rest =>
      if ok acc b then concat_from ok (acc ++ b) rest else Raise ValueError
  end.
Definition concatenate_with {A} (ok : list A → list A → bool)
    (arrs : list (list A)) : result (list A) :=
  match arrs with
  | [] => Raise ValueError
  | a :: rest => concat_from ok a rest
  end.

End np.

(** ** Feature arrays *)

Section arrays.
Context {V : Type}.

(** A 2-D array is the list of its rows. *)
Definition array2 : Type := list (list V).

Inductive ndarray : Type :=
  | Arr2 (rows : array2)            (* shape (N, F) *)
  | Arr3 (items : list array2)      (* shape (N, T, F) *)
  | ArrObj (items : list array2)    (* dtype=object, N items of shape (T_i, F) *)
  | ArrList (items : list array2).  (* a plain Python list of 2-D arrays *)

(** [len(x)]. *)
Definition len (x : ndarray) : nat :=
  match x with
  | Arr2 rows => length rows
  | Arr3 items | ArrObj items | ArrList items => length items
  end.

(** [x.dtype == object or len(x.shape) == 3]; a Python list has no
    [dtype]. *)
Definition is_sequence (x : ndarray) : result bool :=
  match x with
  | Arr2 _ => Ok false
  | Arr3 _ | ArrObj _ => Ok true
  | ArrList _ => Raise AttributeError
  end.

(** Number of columns of a 2-D array; the list of rows does not record
    it when there is no row. *)
Definition ncols (a : array2) : option nat := length <$> head a.

Definition same_cols (a b : array2) : bool :=
  match ncols a, ncols b with
  | Some m, Some n => bool_decide (m = n)
  | _, _ => true
  end.

Definition same_shape (a b : array2) : bool :=
  bool_decide (length a = length b) && same_cols a b.

Definition same_items (acc b : list array2) : bool :=
  match head acc, head b with
  | Some a0, Some b0 => same_shape a0 b0
  | _, _ => true
  end.

(** [np.concatenate(arrs)] on a sequence of 2-D arrays. *)
Definition concatenate (arrs : list array2) : result array2 :=
  np.concatenate_with same_cols arrs.

(** [np.asarray(x)], which [np.concatenate] applies to each operand: an
    array is kept, a list of equally shaped items becomes a 3-D array,
    and a ragged list cannot be made an array ([ValueError]). The empty
    list, which would become a 1-D array that stacks with no feature
    array, is rejected as well; [normalise] never leaves it, since
    [_make_ragged] returns at least one item. *)
Definition asarray (x : ndarray) : result ndarray :=
  match x with
  | ArrList [] => Raise ValueError
  | ArrList (a :: rest) =>
      if forallb (same_shape a) rest then Ok (Arr3 (a :: rest))
      else Raise ValueError
  | _ => Ok x
  end.

Definition rows_of (x : ndarray) : result array2 :=
  match x with Arr2 rows => Ok rows | _ => Raise ValueError end.
Definition items3_of (x : ndarray) : result (list array2) :=
  match x with Arr3 items => Ok items | _ => Raise ValueError end.
Definition itemsobj_of (x : ndarray) : result (list array2) :=
  match x with ArrObj items => Ok items | _ => Raise ValueError end.

(** [np.concatenate(xs)] on feature arrays: all of one rank and of one
    shape past the first axis. *)
Definition x_concatenate (xs : list ndarray) : result ndarray :=
  arrays ← mapM asarray xs;
  match arrays with
  | [] => Raise ValueError
  | Arr2 rows :: rest =>
      rs ← mapM rows_of rest; Arr2 <$> np.concat_from same_cols rows rs
  | Arr3 items :: rest =>
      rs ← mapM items3_of rest; Arr3 <$> np.concat_from same_items items rs
  | ArrObj items :: rest =>
      rs ← mapM itemsobj_of rest;
      ArrObj <$> np.concat_from (λ _ _, true) items rs
  | ArrList _ :: _ => Raise ValueError
  end.

(** [x[idx]] with a list of indices. *)
Definition x_take (x : ndarray) (idx : list nat) : result ndarray :=
  match x with
  | Arr2 rows => Arr2 <$> np.take_idx rows idx
  | Arr3 items => Arr3 <$> np.take_idx items idx
  | ArrObj items => ArrObj <$> np.take_idx items idx
  | ArrList _ => Raise TypeError
  end.

(** [np.reshape(x, (n, t, f))] of a 2-D array with [f] columns. *)
Definition reshape3 (x : array2) (n t : nat) : result (list array2) :=
  if decide (n * t = length x)
  then Ok ((λ i, py.slice (i * t) (i * t + t) x) <$> seq 0 n)
  else Raise ValueError.

(** *** The reshaper *)

Definition _make_flat (a : list array2) : result (array2 * list nat) :=
  let slices := length <$> a in
  flat ← concatenate a;
  mret (flat, slices).

Definition _make_ragged (flat : array2) (slices : list nat) : list array2 :=
  let indices := np.cumsum slices in
  np.split flat (py.init indices).

Definition _reshape_data_array (x : array2) (slices : list nat) : result ndarray :=
  if decide (length x = length slices) then
    (* 2-D contiguous array *)
    Ok (Arr2 x)
  else
    s0 ← py.getitem slices 0;
    if forallb (λ s, s =? s0) slices then
      (* 3-D contiguous array *)
      if decide (length x `mod` length slices = 0) then
        let seq_len := length x `div` length slices in
        x0 ← py.getitem x 0;
        Arr3 <$> reshape3 x (length slices) seq_len
      else Raise AssertionError
    else
      (* 3-D variable length array *)
      let indices := np.cumsum slices in
      Ok (ArrObj (np.split x (py.init indices))).

End arrays.

Arguments ndarray V : clear implicits.
Arguments array2 V : clear implicits.

(** ** External collaborators *)

(** A [pathlib.Path], reduced to what the module reads from it. *)
Module Path.
Record t : Type := {
  stem : string;
  suffix : string;
  suffixes : list string;
}.
End Path.

(** An entry of the [corpora] lookup. *)
Module Corpus.
Record t : Type := {
  speakers : list string;
  male_speakers : list string;
  female_speakers : list string;
  speaker_groups : list (gset string);
  emotion_map : list (string * string);   (* a dict, in insertion order *)
  get_speaker : string → string;
}.
End Corpus.

(** What a [DatasetBackend] exposes once it has read its source. *)
Module Backend.
Record t {V : Type} : Type := {
  features : ndarray V;
  labels : option (list string);
  names : list string;
  feature_names : list string;
  corpus : string;
}.
Arguments t V : clear implicits.
End Backend.

(** An open netCDF4 container in the toolkit's format. [corpus] and
    [feature_dims] are global attributes, which a file may lack;
    [label_nominal] is an optional variable. *)
Module netCDF4.
Record Dataset {V : Type} : Type := {
  corpus : option string;
  feature_dims : option (list string);
  dimensions : gmap string nat;
  filename : list Path.t;
  features : array2 V;
  slices : list nat;
  label_nominal : option (list string);
}.
Arguments Dataset V : clear implicits.
End netCDF4.

Section backends.
Context {V : Type}.

Definition NetCDFBackend (dataset : netCDF4.Dataset V) : result (Backend.t V) :=
  match netCDF4.corpus dataset with
  | None => Raise AttributeError
  | Some corpus =>
      let names := Path.stem <$> netCDF4.filename dataset in
      dims ← getattr (netCDF4.feature_dims dataset);
      feature_dim ← py.getitem dims (length dims - 1);
      size ← match netCDF4.dimensions dataset !! feature_dim with
             | Some n => Ok n
             | None => Raise KeyError
             end;
      let feature_names := (λ i, "feature_" +:+ pretty (i + 1)) <$> seq 0 size in
      let x := netCDF4.features dataset in
      let slices := netCDF4.slices dataset in
      features ← _reshape_data_array x slices;
      Ok {| Backend.features := features;
            Backend.labels := netCDF4.label_nominal dataset;
            Backend.names := names;
            Backend.feature_names := feature_names;
            Backend.corpus := corpus |}
  end.

End backends.

(** ** [class Dataset] *)

Module Dataset.
Section defs.
Context {V : Type}.

(** The attributes of the object; an [option] is an attribute that some
    constructor leaves unset. *)
Record t : Type := {
  backend : option (Backend.t V);
  corpus : string;
  names : list string;
  features : list string;
  x : ndarray V;
  speakers : list string;
  speaker_indices : list nat;
  speaker_counts : option (list nat);
  male_speakers : option (list string);
  female_speakers : option (list string);
  male_indices : option (list nat);
  female_indices : option (list nat);
  speaker_groups : list (gset string);
  speaker_group_indices : list nat;
  shares_features : bool;   (* [self._x is self.backend.features] *)
}.

Definition n_instances (self : t) : nat := length (names self).

(** [self._x = x']: the attribute is bound to another array, and the
    array of the backend stays as it is. *)
Definition set_x (self : t) (x' : ndarray V) : t :=
  {| backend := backend self; corpus := corpus self; names := names self;
     features := features self; x := x';
     speakers := speakers self; speaker_indices := speaker_indices self;
     speaker_counts := speaker_counts self;
     male_speakers := male_speakers self;
     female_speakers := female_speakers self;
     male_indices := male_indices self;
     female_indices := female_indices self;
     speaker_groups := speaker_groups self;
     speaker_group_indices := speaker_group_indices self;
     shares_features := false |}.

Definition with_features (x' : ndarray V) (b : Backend.t V) : Backend.t V :=
  {| Backend.features := x'; Backend.labels := Backend.labels b;
     Backend.names := Backend.names b;
     Backend.feature_names := Backend.feature_names b;
     Backend.corpus := Backend.corpus b |}.

(** [self.x[idx] = ...], after which the array holds [x']: the write is
    made in the array itself, so it is also seen through
    [self.backend.features] while that is the same array. *)
Definition write_x (self : t) (x' : ndarray V) : t :=
  {| backend := if shares_features self
                then with_features x' <$> backend self else backend self;
     corpus := corpus self; names := names self;
     features := features self; x := x';
     speakers := speakers self; speaker_indices := speaker_indices self;
     speaker_counts := speaker_counts self;
     male_speakers := male_speakers self;
     female_speakers := female_speakers self;
     male_indices := male_indices self;
     female_indices := female_indices self;
     speaker_groups := speaker_groups self;
     speaker_group_indices := speaker_group_indices self;
     shares_features := shares_features self |}.

Section init.
(** The [corpora] lookup and the readers of the three containers. *)
Context (corpora : gmap string Corpus.t).
Context (open_netcdf : Path.t → result (netCDF4.Dataset V)).
Context (RawAudioBackend ARFFBackend : Path.t → result (Backend.t V)).

Definition open_backend (path : Path.t) : result (Backend.t V) :=
  if decide (Path.suffix path = ".nc") then
    dataset ← open_netcdf path; NetCDFBackend dataset
  else if decide (Path.suffix path = ".txt") then
    RawAudioBackend path
  else
    s0 ← py.getitem (Path.suffixes path) 0;
    if decide (s0 = ".arff") then ARFFBackend path
    else Raise NotImplementedError.

Definition __init__ (path : Path.t) : result t :=
  backend ← open_backend path;
  let corpus := Backend.corpus backend in
  match corpora !! py.lower corpus with
  | None => Raise NotImplementedError
  | Some info =>
      let names := Backend.names backend in
      let features := Backend.feature_names backend in
      let x := Backend.features backend in
      let speakers := Corpus.speakers info in
      let get_speaker := Corpus.get_speaker info in
      speaker_indices ← mapM (λ n, py.index speakers (get_speaker n)) names;
      let speaker_counts := np.bincount speaker_indices (length speakers) in
      let male_speakers := Corpus.male_speakers info in
      let female_speakers := Corpus.female_speakers info in
      let sexes :=
        match male_speakers, female_speakers with
        | _ :: _, _ :: _ =>
            (Some (py.positions
                     (λ n, bool_decide (get_speaker n ∈ male_speakers)) names),
             Some (py.positions
                     (λ n, bool_decide (get_speaker n ∈ female_speakers)) names))
        | _, _ => (None, None)
        end in
      let speaker_groups := Corpus.speaker_groups info in
      let speaker_indices_to_group :=
        speakers ≫= (λ sp,
          py.positions (λ g : gset string, bool_decide (sp ∈ g)) speaker_groups) in
      speaker_group_indices ←
        np.take_idx speaker_indices_to_group speaker_indices;
      Ok {| backend := Some backend; corpus := corpus; names := names;
            features := features; x := x;
            speakers := speakers; speaker_indices := speaker_indices;
            speaker_counts := Some speaker_counts;
            male_speakers := Some male_speakers;
            female_speakers := Some female_speakers;
            male_indices := sexes.1;
            female_indices := sexes.2;
            speaker_groups := speaker_groups;
            speaker_group_indices := speaker_group_indices;
            shares_features := true |}
  end.

End init.

(** *** [normalise] *)

Section normalise.
(** A transformer is an object with state [T]; [fit_transform] refits it
    on a 2-D array and returns the transformed array, a new array: it
    does not write into its argument (sklearn's transformers copy by
    default). *)
Context {T : Type} (fit_transform : T → array2 V → result (T * array2 V)).

(** [flat, slices = _make_flat(a); flat = normaliser.fit_transform(flat);
    _make_ragged(flat, slices)]. *)
Definition transform_items (normaliser : T) (a : list (array2 V))
    : result (T * list (array2 V)) :=
  '(flat, slices) ← _make_flat a;
  '(normaliser', flat') ← fit_transform normaliser flat;
  Ok (normaliser', _make_ragged flat' slices).

(** The body of the per-speaker and per-corpus loops: the instances at
    [idx] are transformed together and written back in place. *)
Definition normalise_at (idx : list nat) (st : T * ndarray V)
    : result (T * ndarray V) :=
  let '(normaliser, x) := st in
  match x with
  | Arr2 rows =>
      sub ← np.take_idx rows idx;
      '(normaliser', sub') ← fit_transform normaliser sub;
      rows' ← np.put_idx rows idx sub';
      Ok (normaliser', Arr2 rows')
  | Arr3 items =>
      sub ← np.take_idx items idx;
      '(normaliser', sub') ← transform_items normaliser sub;
      items' ← np.put_idx items idx sub';
      Ok (normaliser', Arr3 items')
  | ArrObj items =>
      sub ← np.take_idx items idx;
      '(normaliser', sub') ← transform_items normaliser sub;
      items' ← np.put_idx items idx sub';
      Ok (normaliser', ArrObj items')
  | ArrList _ => Raise AttributeError
  end.

Definition normalise (normaliser : T) (scheme : string) (self : t)
    : result (T * t) :=
  if decide (scheme = "all") then
    match x self with
    | Arr2 rows =>
        '(normaliser', rows') ← fit_transform normaliser rows;
        Ok (normaliser', set_x self (Arr2 rows'))
    | Arr3 items | ArrObj items =>
        (* Non-contiguous or 3-D array *)
        '(normaliser', items') ← transform_items normaliser items;
        (* FIXME of the source: _make_ragged returns a list, not an array *)
        Ok (normaliser', set_x self (ArrList items'))
    | ArrList _ => Raise AttributeError
    end
  else if decide (scheme = "speaker") then
    '(normaliser', x') ←
      foldlM (λ st sp,
        let idx := np.nonzero ((λ i, bool_decide (i = sp)) <$> speaker_indices self) in
        counts ← getattr (speaker_counts self);
        c ← py.getitem counts sp;
        if decide (c = 0) then Ok st else normalise_at idx st)
      (normaliser, x self) (seq 0 (length (speakers self)));
    Ok (normaliser', write_x self x')
  else Ok (normaliser, self).

End normalise.
End defs.
Arguments t V : clear implicits.
End Dataset.

(** ** [class LabelledDataset(Dataset)] *)

(** [binarise] and the [labels] dictionary it fills are left out: none
    of the operations below reads them. *)

Module LabelledDataset.
Section defs.
Context {V : Type}.

Record t : Type := {
  base :> Dataset.t V;
  classes : list string;
  y : list nat;
  class_counts : option (list nat);
}.

(** [self.class_to_int(c)]. *)
Definition class_to_int (classes : list string) (c : string) : result nat :=
  py.index classes c.

Section init.
Context (corpora : gmap string Corpus.t).
Context (open_netcdf : Path.t → result (netCDF4.Dataset V)).
Context (RawAudioBackend ARFFBackend : Path.t → result (Backend.t V)).

Definition __init__ (path : Path.t) : result t :=
  super ← Dataset.__init__ corpora open_netcdf RawAudioBackend ARFFBackend path;
  info ← match corpora !! py.lower (Dataset.corpus super) with
         | Some info => Ok info
         | None => Raise KeyError
         end;
  let classes := (Corpus.emotion_map info).*2 in
  backend ← getattr (Dataset.backend super);
  labels ← match Backend.labels backend with
           | Some labels => Ok labels
           | None => Raise TypeError   (* None is not iterable *)
           end;
  y ← mapM (class_to_int classes) labels;
  class_counts ← np.bincount_of_list y;
  Ok {| base := super; classes := classes; y := y;
        class_counts := Some class_counts |}.

End init.

Definition map_classes (map : gmap string string) (self : t) : result t :=
  let get := λ k : string, default k (map !! k) in
  let new_classes := py.sorted (list_to_set (get <$> classes self)) in
  arr_map ← mapM (λ k, py.index new_classes (get k)) (classes self);
  y' ← np.take_by_array arr_map (y self);
  class_counts' ← np.bincount_of_list y';
  Ok {| base := base self; classes := new_classes; y := y';
        class_counts := Some class_counts' |}.

Definition remove_classes (keep : list string) (self : t) : result t :=
  let keep : gset string := list_to_set keep in
  str_labels ← mapM (py.getitem (classes self)) (y self);
  let keep_idx := py.positions (λ c, bool_decide (c ∈ keep)) str_labels in
  x' ← x_take (Dataset.x self) keep_idx;
  names' ← mapM (py.getitem (Dataset.names self)) keep_idx;
  speaker_indices' ← np.take_idx (Dataset.speaker_indices self) keep_idx;
  let speaker_counts' :=
    np.bincount speaker_indices' (length (Dataset.speakers self)) in
  let speaker_group_indices' := speaker_indices' in
  let classes' := py.sorted (keep ∩ list_to_set (classes self)) in
  let str_labels' := filter (λ c, c ∈ keep) str_labels in
  y' ← mapM (py.index classes') str_labels';
  class_counts' ← np.bincount_of_list y';
  Ok {| base :=
          {| Dataset.backend := Dataset.backend self;
             Dataset.corpus := Dataset.corpus self;
             Dataset.names := names';
             Dataset.features := Dataset.features self;
             Dataset.x := x';
             Dataset.speakers := Dataset.speakers self;
             Dataset.speaker_indices := speaker_indices';
             Dataset.speaker_counts := Some speaker_counts';
             Dataset.male_speakers := Dataset.male_speakers self;
             Dataset.female_speakers := Dataset.female_speakers self;
             Dataset.male_indices := Dataset.male_indices self;
             Dataset.female_indices := Dataset.female_indices self;
             Dataset.speaker_groups := Dataset.speaker_groups self;
             Dataset.speaker_group_indices := speaker_group_indices';
             Dataset.shares_features := false |};
        classes := classes'; y := y';
        class_counts := Some class_counts' |}.

End defs.
Arguments t V : clear implicits.
End LabelledDataset.
Import (coercions) LabelledDataset.

(** ** [class CombinedDataset(LabelledDataset)] *)

(** The [labels] argument: annotated as a list, used as a set. *)
Inductive pylabels : Type :=
  | LabelList (l : list string)
  | LabelSet (s : gset string).

Module CombinedDataset.
Section defs.
Context {V : Type}.

Record t : Type := {
  base :> LabelledDataset.t V;
  corpora : list string;
  corpus_indices : list nat;
}.

(** [if labels:]. *)
Definition truthy (labels : option pylabels) : bool :=
  match labels with
  | None | Some (LabelList []) => false
  | Some (LabelList (_ :: _)) => true
  | Some (LabelSet s) => bool_decide (s ≠ ∅)
  end.

(** [all_labels - labels]: the operator is only defined between sets. *)
Definition set_minus (all_labels : gset string) (labels : option pylabels)
    : result (gset string) :=
  match labels with
  | Some (LabelSet s) => Ok (all_labels ∖ s)
  | _ => Raise TypeError
  end.

(** [sorted(labels)]. *)
Definition sorted_labels (labels : option pylabels) : result (list string) :=
  match labels with
  | Some (LabelSet s) => Ok (py.sorted s)
  | Some (LabelList l) => Ok (merge_sort String.le l)
  | None => Raise TypeError
  end.

(** [d.corpus + '_' + s]. *)
Definition prefixed (d : LabelledDataset.t V) (s : string) : string :=
  Dataset.corpus d +:+ "_" +:+ s.

(** One iteration of the loop over the sources: the accumulators are
    [self._speakers], the list [speaker_indices], [self._speaker_groups]
    and the list [speaker_group_indices]. *)
Definition merge_step
    (acc : list string * list (list nat) * list (gset string) * list (list nat))
    (d : LabelledDataset.t V)
    : list string * list (list nat) * list (gset string) * list (list nat) :=
  let '(speakers, speaker_indices, speaker_groups, speaker_group_indices) := acc in
  (speakers ++ (prefixed d <$> Dataset.speakers d),
   speaker_indices ++ [(λ i, i + length speakers) <$> Dataset.speaker_indices d],
   speaker_groups ++ (set_map (prefixed d) <$> Dataset.speaker_groups d),
   speaker_group_indices
     ++ [(λ i, i + length speaker_groups) <$> Dataset.speaker_group_indices d]).

Definition __init__ (datasets : list (LabelledDataset.t V))
    (labels : option pylabels) : result t :=
  let corpora := (λ d : LabelledDataset.t V, Dataset.corpus d) <$> datasets in
  let sizes := (λ d : LabelledDataset.t V, len (Dataset.x d)) <$> datasets in
  let corpus_indices := np.repeat_arange sizes in
  let names := datasets ≫= (λ d, prefixed d <$> Dataset.names d) in
  d0 ← py.getitem datasets 0;
  let features := Dataset.features (d0 : LabelledDataset.t V) in
  let merged := foldl merge_step ([], [], [], []) datasets in
  let speakers := merged.1.1.1 in
  let speaker_groups := merged.1.2 in
  speaker_indices ← np.concatenate_with (λ _ _, true) merged.1.1.2;
  speaker_group_indices ← np.concatenate_with (λ _ _, true) merged.2;
  x ← x_concatenate ((λ d : LabelledDataset.t V, Dataset.x d) <$> datasets);
  let all_labels : gset string :=
    list_to_set (datasets ≫= LabelledDataset.classes) in
  let classes := py.sorted all_labels in
  str_labels ← mjoin <$> mapM (λ d : LabelledDataset.t V,
      mapM (py.getitem (LabelledDataset.classes d)) (LabelledDataset.y d))
    datasets;
  '(x, speaker_indices, classes, str_labels) ←
    (if truthy labels then
       drop_labels ← set_minus all_labels labels;
       let keep_idx :=
         py.positions (λ c, bool_decide (c ∉ drop_labels)) str_labels in
       x' ← x_take x keep_idx;
       speaker_indices' ← np.take_idx speaker_indices keep_idx;
       classes' ← sorted_labels labels;
       Ok (x', speaker_indices', classes',
           filter (λ c, c ∉ drop_labels) str_labels)
     else Ok (x, speaker_indices, classes, str_labels));
  y ← mapM (py.index classes) str_labels;
  let speaker_group_indices := speaker_indices in
  Ok {| base :=
          {| LabelledDataset.base :=
               {| Dataset.backend := None;
                  Dataset.corpus := "combined";
                  Dataset.names := names;
                  Dataset.features := features;
                  Dataset.x := x;
                  Dataset.speakers := speakers;
                  Dataset.speaker_indices := speaker_indices;
                  Dataset.speaker_counts := None;
                  Dataset.male_speakers := None;
                  Dataset.female_speakers := None;
                  Dataset.male_indices := None;
                  Dataset.female_indices := None;
                  Dataset.speaker_groups := speaker_groups;
                  Dataset.speaker_group_indices := speaker_group_indices;
                  Dataset.shares_features := false |};
             LabelledDataset.classes := classes;
             LabelledDataset.y := y;
             LabelledDataset.class_counts := None |};
        corpora := corpora;
        corpus_indices := corpus_indices |}.

(** The [corpus_counts] property (computed on first use, then cached;
    [corpus_indices] never changes afterwards). *)
Definition corpus_counts (self : t) : list nat :=
  np.bincount (corpus_indices self) 0.

Definition corpus_to_idx (self : t) (corpus : string) : result nat :=
  py.index (corpora self) corpus.

Definition get_corpus_split (corpus : string) (self : t)
    : result (list nat * list nat) :=
  k ← corpus_to_idx self corpus;
  let cond := (λ i, bool_decide (i = k)) <$> corpus_indices self in
  let corpus_idx := np.nonzero cond in
  let other_idx := np.nonzero (negb <$> cond) in
  Ok (corpus_idx, other_idx).

(** The object once a method of [Dataset] has run on it: the attributes
    of [Dataset] are those the method leaves, the others are kept. *)
Definition with_dataset (self : t) (super : Dataset.t V) : t :=
  {| base :=
       {| LabelledDataset.base := super;
          LabelledDataset.classes := LabelledDataset.classes self;
          LabelledDataset.y := LabelledDataset.y self;
          LabelledDataset.class_counts := LabelledDataset.class_counts self |};
     corpora := corpora self;
     corpus_indices := corpus_indices self |}.

(** [self.x[idx] = ...] on a merged dataset, after which the array holds
    [x']. *)
Definition set_x (self : t) (x' : ndarray V) : t :=
  with_dataset self (Dataset.write_x self x').

(** [remove_classes] is inherited from [LabelledDataset]: it rewrites the
    attributes that class knows and leaves [corpora] and
    [corpus_indices] as they are. *)
Definition remove_classes (keep : list string) (self : t) : result t :=
  super ← LabelledDataset.remove_classes keep self;
  Ok {| base := super; corpora := corpora self;
        corpus_indices := corpus_indices self |}.

Section normalise.
Context {T : Type} (fit_transform : T → array2 V → result (T * array2 V)).

Definition normalise (normaliser : T) (scheme : string) (self : t)
    : result (T * t) :=
  if decide (scheme = "corpus") then
    '(normaliser', x') ←
      foldlM (λ st corpus,
        let idx := np.nonzero
          ((λ i, bool_decide (i = corpus)) <$> corpus_indices self) in
        Dataset.normalise_at fit_transform idx st)
      (normaliser, Dataset.x self) (seq 0 (length (corpora self)));
    Ok (normaliser', set_x self x')
  else
    '(normaliser', super) ←
      Dataset.normalise fit_transform normaliser scheme self;
    Ok (normaliser', with_dataset self super).

End normalise.
End defs.
Arguments t V : clear implicits.
End CombinedDataset.
Import (coercions) CombinedDataset.

(** ** A concrete environment: the two corpora of the merge example *)

Module Example.
Local Open Scope string_scope.

Definition path (name ext : string) : Path.t :=
  {| Path.stem := name; Path.suffix := ext; Path.suffixes := [ext] |}.

(** Corpus A: classes happy and sad, two speakers in one group. *)
Definition corpus_A : Corpus.t :=
  {| Corpus.speakers := ["s1"; "s2"];
     Corpus.male_speakers := ["s1"];
     Corpus.female_speakers := ["s2"];
     Corpus.speaker_groups := [{["s1"; "s2"]}];
     Corpus.emotion_map := [("h", "happy"); ("s", "sad")];
     Corpus.get_speaker := String.substring 0 2 |}.

(** Corpus B: classes sad and angry, three speakers in two groups. *)
Definition corpus_B : Corpus.t :=
  {| Corpus.speakers := ["t1"; "t2"; "t3"];
     Corpus.male_speakers := [];
     Corpus.female_speakers := [];
     Corpus.speaker_groups := [{["t1"]}; {["t2"; "t3"]}];
     Corpus.emotion_map := [("s", "sad"); ("a", "angry")];
     Corpus.get_speaker := String.substring 0 2 |}.

Definition corpora : gmap string Corpus.t :=
  {["a" := corpus_A; "b" := corpus_B]}.

Definition file_A : netCDF4.Dataset nat :=
  {| netCDF4.corpus := Some "A";
     netCDF4.feature_dims := Some ["concat"; "features"];
     netCDF4.dimensions := {["concat" := 2; "features" := 2]};
     netCDF4.filename := [path "s1_001" ".wav"; path "s2_001" ".wav"];
     netCDF4.features := [[10; 11]; [20; 21]];
     netCDF4.slices := [1; 1];
     netCDF4.label_nominal := Some ["happy"; "sad"] |}.

Definition file_B : netCDF4.Dataset nat :=
  {| netCDF4.corpus := Some "B";
     netCDF4.feature_dims := Some ["concat"; "features"];
     netCDF4.dimensions := {["concat" := 3; "features" := 2]};
     netCDF4.filename :=
       [path "t1_001" ".wav"; path "t3_001" ".wav"; path "t3_002" ".wav"];
     netCDF4.features := [[30; 31]; [40; 41]; [50; 51]];
     netCDF4.slices := [1; 1; 1];
     netCDF4.label_nominal := Some ["sad"; "angry"; "sad"] |}.

(** A container of corpus A in which nobody is sad. *)
Definition file_A_happy : netCDF4.Dataset nat :=
  {| netCDF4.corpus := Some "A";
     netCDF4.feature_dims := Some ["concat"; "features"];
     netCDF4.dimensions := {["concat" := 2; "features" := 2]};
     netCDF4.filename := [path "s1_001" ".wav"; path "s2_001" ".wav"];
     netCDF4.features := [[10; 11]; [20; 21]];
     netCDF4.slices := [1; 1];
     netCDF4.label_nominal := Some ["happy"; "happy"] |}.

(** A container of a corpus the lookup does not know, and one without
    the corpus attribute. *)
Definition file_C : netCDF4.Dataset nat :=
  {| netCDF4.corpus := Some "C";
     netCDF4.feature_dims := Some ["concat"; "features"];
     netCDF4.dimensions := {["concat" := 1; "features" := 2]};
     netCDF4.filename := [path "u1_001" ".wav"];
     netCDF4.features := [[60; 61]];
     netCDF4.slices := [1];
     netCDF4.label_nominal := Some ["sad"] |}.

Definition file_anonymous : netCDF4.Dataset nat :=
  {| netCDF4.corpus := None;
     netCDF4.feature_dims := Some ["concat"; "features"];
     netCDF4.dimensions := {["concat" := 1; "features" := 2]};
     netCDF4.filename := [path "s1_001" ".wav"];
     netCDF4.features := [[60; 61]];
     netCDF4.slices := [1];
     netCDF4.label_nominal := Some ["sad"] |}.

(** A container of corpus A with a label outside its taxonomy. *)
Definition file_A_bored : netCDF4.Dataset nat :=
  {| netCDF4.corpus := Some "A";
     netCDF4.feature_dims := Some ["concat"; "features"];
     netCDF4.dimensions := {["concat" := 1; "features" := 2]};
     netCDF4.filename := [path "s1_001" ".wav"];
     netCDF4.features := [[60; 61]];
     netCDF4.slices := [1];
     netCDF4.label_nominal := Some ["bored"] |}.

Definition open_netcdf (p : Path.t) : result (netCDF4.Dataset nat) :=
  if decide (Path.stem p = "A") then Ok file_A
  else if decide (Path.stem p = "B") then Ok file_B
  else if decide (Path.stem p = "A_happy") then Ok file_A_happy
  else if decide (Path.stem p = "C") then Ok file_C
  else if decide (Path.stem p = "anonymous") then Ok file_anonymous
  else if decide (Path.stem p = "A_bored") then Ok file_A_bored
  else Raise OSError.

Definition no_backend (p : Path.t) : result (Backend.t nat) := Raise OSError.

Definition load (p : Path.t) : result (LabelledDataset.t nat) :=
  LabelledDataset.__init__ corpora open_netcdf no_backend no_backend p.

(** A mapping that merges the two classes of corpus B. *)
Definition merge_negative : gmap string string :=
  {["angry" := "negative"; "sad" := "negative"]}.

(** The two datasets the containers above load to. *)
Definition dataset_A : LabelledDataset.t nat :=
  {| LabelledDataset.base :=
       {| Dataset.backend :=
            Some {| Backend.features := Arr2 [[10; 11]; [20; 21]];
                    Backend.labels := Some ["happy"; "sad"];
                    Backend.names := ["s1_001"; "s2_001"];
                    Backend.feature_names := ["feature_1"; "feature_2"];
                    Backend.corpus := "A" |};
          Dataset.corpus := "A";
          Dataset.names := ["s1_001"; "s2_001"];
          Dataset.features := ["feature_1"; "feature_2"];
          Dataset.x := Arr2 [[10; 11]; [20; 21]];
          Dataset.speakers := ["s1"; "s2"];
          Dataset.speaker_indices := [0; 1];
          Dataset.speaker_counts := Some [1; 1];
          Dataset.male_speakers := Some ["s1"];
          Dataset.female_speakers := Some ["s2"];
          Dataset.male_indices := Some [0];
          Dataset.female_indices := Some [1];
          Dataset.speaker_groups := [{["s1"; "s2"]}];
          Dataset.speaker_group_indices := [0; 0];
          Dataset.shares_features := true |};
     LabelledDataset.classes := ["happy"; "sad"];
     LabelledDataset.y := [0; 1];
     LabelledDataset.class_counts := Some [1; 1] |}.

Definition dataset_B : LabelledDataset.t nat :=
  {| LabelledDataset.base :=
       {| Dataset.backend :=
            Some {| Backend.features := Arr2 [[30; 31]; [40; 41]; [50; 51]];
                    Backend.labels := Some ["sad"; "angry"; "sad"];
                    Backend.names := ["t1_001"; "t3_001"; "t3_002"];
                    Backend.feature_names := ["feature_1"; "feature_2"];
                    Backend.corpus := "B" |};
          Dataset.corpus := "B";
          Dataset.names := ["t1_001"; "t3_001"; "t3_002"];
          Dataset.features := ["feature_1"; "feature_2"];
          Dataset.x := Arr2 [[30; 31]; [40; 41]; [50; 51]];
          Dataset.speakers := ["t1"; "t2"; "t3"];
          Dataset.speaker_indices := [0; 2; 2];
          Dataset.speaker_counts := Some [1; 0; 2];
          Dataset.male_speakers := Some [];
          Dataset.female_speakers := Some [];
          Dataset.male_indices := None;
          Dataset.female_indices := None;
          Dataset.speaker_groups := [{["t1"]}; {["t2"; "t3"]}];
          Dataset.speaker_group_indices := [0; 1; 1];
          Dataset.shares_features := true |};
     LabelledDataset.classes := ["sad"; "angry"];
     LabelledDataset.y := [0; 1; 0];
     LabelledDataset.class_counts := Some [2; 1] |}.

(** The class list of the merge example. *)
Definition merged_classes : list string := ["angry"; "happy"; "sad"].

(** [CombinedDataset(dataset_A, dataset_B)]. *)
Definition combined_AB : CombinedDataset.t nat :=
  {| CombinedDataset.base :=
       {| LabelledDataset.base :=
            {| Dataset.backend := None;
               Dataset.corpus := "combined";
               Dataset.names :=
                 ["A_s1_001"; "A_s2_001"; "B_t1_001"; "B_t3_001"; "B_t3_002"];
               Dataset.features := ["feature_1"; "feature_2"];
               Dataset.x :=
                 Arr2 [[10; 11]; [20; 21]; [30; 31]; [40; 41]; [50; 51]];
               Dataset.speakers := ["A_s1"; "A_s2"; "B_t1"; "B_t2"; "B_t3"];
               Dataset.speaker_indices := [0; 1; 2; 4; 4];
               Dataset.speaker_counts := None;
               Dataset.male_speakers := None;
               Dataset.female_speakers := None;
               Dataset.male_indices := None;
               Dataset.female_indices := None;
               Dataset.speaker_groups :=
                 [{["A_s1"; "A_s2"]}; {["B_t1"]}; {["B_t2"; "B_t3"]}];
               Dataset.speaker_group_indices := [0; 1; 2; 4; 4];
               Dataset.shares_features := false |};
          LabelledDataset.classes := merged_classes;
          LabelledDataset.y := [1; 2; 2; 0; 2];
          LabelledDataset.class_counts := None |};
     CombinedDataset.corpora := ["A"; "B"];
     CombinedDataset.corpus_indices := [0; 0; 1; 1; 1] |}.

(** The allow-list that keeps the sad instances only. *)
Definition only_sad : option pylabels := Some (LabelSet {["sad"]}).

(** [CombinedDataset(dataset_A, dataset_B, labels={'sad'})]. *)
Definition combined_sad : CombinedDataset.t nat :=
  {| CombinedDataset.base :=
       {| LabelledDataset.base :=
            {| Dataset.backend := None;
               Dataset.corpus := "combined";
               Dataset.names :=
                 ["A_s1_001"; "A_s2_001"; "B_t1_001"; "B_t3_001"; "B_t3_002"];
               Dataset.features := ["feature_1"; "feature_2"];
               Dataset.x := Arr2 [[20; 21]; [30; 31]; [50; 51]];
               Dataset.speakers := ["A_s1"; "A_s2"; "B_t1"; "B_t2"; "B_t3"];
               Dataset.speaker_indices := [1; 2; 4];
               Dataset.speaker_counts := None;
               Dataset.male_speakers := None;
               Dataset.female_speakers := None;
               Dataset.male_indices := None;
               Dataset.female_indices := None;
               Dataset.speaker_groups :=
                 [{["A_s1"; "A_s2"]}; {["B_t1"]}; {["B_t2"; "B_t3"]}];
               Dataset.speaker_group_indices := [1; 2; 4];
               Dataset.shares_features := false |};
          LabelledDataset.classes := ["sad"];
          LabelledDataset.y := [0; 0; 0];
          LabelledDataset.class_counts := None |};
     CombinedDataset.corpora := ["A"; "B"];
     CombinedDataset.corpus_indices := [0; 0; 1; 1; 1] |}.

(** A scheme name that [normalise] does not know, and a transformer
    that fails whenever it is used. *)
Definition unknown_scheme : string := "minmax".
Definition failing_transform (st : unit) (a : array2 nat)
    : result (unit * array2 nat) := Raise ValueError.

(** Every class of corpus B. *)
Definition keep_all : list string := ["sad"; "angry"].

End Example.

(** ** Vocabulary of the properties *)

Section statements.
Context {V : Type}.

(** A 2-D buffer with [f] columns. *)
Definition buffer (f : nat) (x : array2 V) : Prop :=
  Forall (λ row, length row = f) x.

(** A sequence of [n] items of shape [(t, f)]. *)
Definition shape3 (n t f : nat) (a : list (array2 V)) : Prop :=
  length a = n ∧ Forall (λ item, length item = t ∧ buffer f item) a.

(** The three cases of the reshaper, as the specification words them:
    equal lengths always give a 3-D array. *)
Definition reshape_cases_as_stated (x : array2 V) (slices : list nat) (f : nat)
    : Prop :=
  (∀ L, Forall (λ s, s = L) slices →
     ∃ a, _reshape_data_array x slices = Ok (Arr3 a)
          ∧ shape3 (length slices) L f a)
  ∧ ((¬ ∃ L, Forall (λ s, s = L) slices) →
     ∃ a, _reshape_data_array x slices = Ok (ArrObj a)
          ∧ length <$> a = slices)
  ∧ (length x = length slices → _reshape_data_array x slices = Ok (Arr2 x)).

End statements.

Section invariants.
Context {V : Type}.
Implicit Types (d : LabelledDataset.t V).

(** The per-instance arrays of a labelled dataset have one entry per
    instance. *)
Definition aligned d : Prop :=
  len (Dataset.x d) = Dataset.n_instances d
  ∧ length (LabelledDataset.y d) = Dataset.n_instances d
  ∧ length (Dataset.speaker_indices d) = Dataset.n_instances d
  ∧ length (Dataset.speaker_group_indices d) = Dataset.n_instances d.

(** [0 <= y[i] < len(classes)]. *)
Definition labels_in_range d : Prop :=
  Forall (λ c, c < length (LabelledDataset.classes d)) (LabelledDataset.y d).

(** A labelled dataset as its constructor and its two mutators leave
    it: aligned, labelled within its taxonomy, with at least one
    instance (they all end in [np.bincount(self.y)], which fails on the
    float array [np.array([])]). *)
Definition wf d : Prop :=
  aligned d ∧ labels_in_range d ∧ 0 < Dataset.n_instances d.

(** The class name of instance [i]. *)
Definition class_of d (i : nat) : option string :=
  LabelledDataset.y d !! i ≫= λ c, LabelledDataset.classes d !! c.

(** A backend whose arrays agree on the number of instances. *)
Definition consistent_backend (b : Backend.t V) : Prop :=
  len (Backend.features b) = length (Backend.names b)
  ∧ ∀ labels, Backend.labels b = Some labels →
      length labels = length (Backend.names b).

End invariants.

(** Sorted without repetition, in code-point order. *)
Definition sorted_unique (l : list string) : Prop :=
  StronglySorted String.le l ∧ NoDup l.

(** [np.repeat(np.arange(off, off + k), sizes)], used to reason on
    [np.repeat_arange] source by source. *)
Definition repeat_from (off : nat) (sizes : list nat) : list nat :=
  mjoin (imap (λ j n, replicate n (off + j)) sizes).

Section merge_statements.
Context {V : Type}.
Implicit Types (d : LabelledDataset.t V) (datasets : list (LabelledDataset.t V)).

(** Position in the merged dataset of the first instance of source [j]. *)
Definition offset datasets (j : nat) : nat :=
  sum_list ((λ d, Dataset.n_instances d) <$> take j datasets).

(** The sources' feature arrays can be stacked: same rank, same shape
    past the first axis. *)
Definition stackable datasets : Prop :=
  is_Ok (x_concatenate ((λ d, Dataset.x d) <$> datasets)).

End merge_statements.

(** *** Construction errors *)

(** A path whose suffix selects no backend. *)
Definition unrecognised_suffix (path : Path.t) : Prop :=
  Path.suffix path ≠ ".nc" ∧ Path.suffix path ≠ ".txt"
  ∧ ∃ s0, Path.suffixes path !! 0 = Some s0 ∧ s0 ≠ ".arff".

(** The error taxonomy of the specification. *)
Inductive spec_error : Set :=
  | UnsupportedFormatError
  | MissingMetadataError
  | UnknownCorpusError
  | UnknownClassError.

(** The taxonomy as the specification words it, read on the example
    environment: under some reading [classify] of Python's exception
    classes, each of the four failures is reported by its own error. *)
Definition error_taxonomy_as_stated (classify : exn → spec_error) : Prop :=
  (∃ e, Example.load (Example.path "A" ".csv") = Raise e
        ∧ classify e = UnsupportedFormatError)
  ∧ (∃ e, Example.load (Example.path "anonymous" ".nc") = Raise e
          ∧ classify e = MissingMetadataError)
  ∧ (∃ e, Example.load (Example.path "C" ".nc") = Raise e
          ∧ classify e = UnknownCorpusError)
  ∧ (∃ e, Example.load (Example.path "A_bored" ".nc") = Raise e
          ∧ classify e = UnknownClassError).

(** ** Vocabulary of the further properties *)

(** Every speaker of the corpus belongs to exactly one of its groups. *)
Definition one_group_each (info : Corpus.t) : Prop :=
  ∀ sp, sp ∈ Corpus.speakers info →
    ∃ g, py.positions (λ grp : gset string, bool_decide (sp ∈ grp))
           (Corpus.speaker_groups info) = [g].

(** Number of occurrences of [k] in an integer vector. *)
Definition count_of (k : nat) (a : list nat) : nat :=
  length (filter (λ v, v = k) a).

(** More of the example environment. *)
Module ExtraExample.
Local Open Scope string_scope.

(** A path without any suffix. *)
Definition bare_path : Path.t :=
  {| Path.stem := "A"; Path.suffix := ""; Path.suffixes := [] |}.

(** A container of corpus A without the [label_nominal] variable. *)
Definition file_A_unlabelled : netCDF4.Dataset nat :=
  {| netCDF4.corpus := Some "A";
     netCDF4.feature_dims := Some ["concat"; "features"];
     netCDF4.dimensions := {["concat" := 1; "features" := 2]};
     netCDF4.filename := [Example.path "s1_001" ".wav"];
     netCDF4.features := [[60; 61]];
     netCDF4.slices := [1];
     netCDF4.label_nominal := None |}.

(** A container of corpus A with a recording of a speaker the corpus
    does not list. *)
Definition file_A_stranger : netCDF4.Dataset nat :=
  {| netCDF4.corpus := Some "A";
     netCDF4.feature_dims := Some ["concat"; "features"];
     netCDF4.dimensions := {["concat" := 2; "features" := 2]};
     netCDF4.filename := [Example.path "s1_001" ".wav"; Example.path "s9_001" ".wav"];
     netCDF4.features := [[60; 61]; [70; 71]];
     netCDF4.slices := [1; 1];
     netCDF4.label_nominal := Some ["sad"; "sad"] |}.

Definition open_netcdf (p : Path.t) : result (netCDF4.Dataset nat) :=
  if decide (Path.stem p = "A_unlabelled") then Ok file_A_unlabelled
  else if decide (Path.stem p = "A_stranger") then Ok file_A_stranger
  else Example.open_netcdf p.

Definition load (p : Path.t) : result (LabelledDataset.t nat) :=
  LabelledDataset.__init__ Example.corpora open_netcdf
    Example.no_backend Example.no_backend p.

Definition load_dataset (p : Path.t) : result (Dataset.t nat) :=
  Dataset.__init__ Example.corpora open_netcdf
    Example.no_backend Example.no_backend p.

(** An allow-list that names no class of corpus A or B. *)
Definition only_neutral : option pylabels := Some (LabelSet {["neutral"]}).

(** A transformer without state that shifts every value by one. *)
Definition shift_one (st : unit) (a : array2 nat) : result (unit * array2 nat) :=
  Ok (st, map (map S) a).

(** Corpus B as a dataset of sequences: one item of two frames and two
    items of one frame. *)
Definition dataset_B_ragged : Dataset.t nat :=
  Dataset.set_x Example.dataset_B
    (ArrObj [[[1; 2]; [3; 4]]; [[5; 6]]; [[7; 8]]]).

End ExtraExample.



(** A transformer that accepts every non-empty 2-D array and returns an
    array of the same shape. *)
Definition shape_preserving {T V}
    (fit_transform : T → array2 V → result (T * array2 V)) : Prop :=
  ∀ st a, a ≠ [] →
    ∃ st' a', fit_transform st a = Ok (st', a')
              ∧ length <$> a' = length <$> a.

Section merge_vocabulary.
Context {V : Type}.
Implicit Types (datasets : list (LabelledDataset.t V)).

(** Position in the merged speaker list of the first speaker of source
    [j]. *)
Definition speaker_offset datasets (j : nat) : nat :=
  sum_list ((λ d : LabelledDataset.t V, length (Dataset.speakers d))
              <$> take j datasets).

End merge_vocabulary.

(** ** [RawAudioBackend] and the class attributes it shares

    [DatasetBackend] creates the lists [_names] and [_feature_names] once,
    in the class body. [RawAudioBackend.__init__] does not rebind them
    before it appends to [self.names] and [self.feature_names], so it
    appends to the lists of the class, which every backend without an
    attribute of its own reads. The constructor is therefore a function
    of the class attributes and returns them with its outcome, also when
    it raises.

    The file system is an input: [filepaths] is the outcome of
    [get_audio_paths(path)], [read] is [soundfile.read], [corpus] is
    [path.parent.stem], and [annotations] is [None] when there is no
    [labels.csv] beside the file list and the outcome of
    [parse_classification_annotations] otherwise. *)
Module RawAudioBackend.
Section defs.
Context {V : Type}.

Record class_attrs : Type := {
  cls_names : list string;          (* DatasetBackend._names *)
  cls_feature_names : list string;  (* DatasetBackend._feature_names *)
}.

(** The class attributes when the module has just been imported. *)
Definition at_import : class_attrs :=
  {| cls_names := []; cls_feature_names := [] |}.

(** The attributes [__init__] sets on the instance; [_names] is only set
    when there is a label file. *)
Record t : Type := {
  _features : list (array2 V);
  _names : option (list string);
  _labels : option (list string);
  _corpus : string;
}.

(** The properties [names] and [feature_names]: the attribute of the
    instance if there is one, the attribute of the class otherwise. *)
Definition names (cls : class_attrs) (self : t) : list string :=
  default (cls_names cls) (_names self).
Definition feature_names (cls : class_attrs) (self : t) : list string :=
  cls_feature_names cls.

(** [for i, filepath in enumerate(filepaths): self.names.append(...);
    audio, _ = soundfile.read(...); self.features[i] = audio]. *)
Fixpoint read_clips (read : Path.t → result (array2 V)) (cls : class_attrs)
    (features : list (array2 V)) (filepaths : list Path.t)
    : class_attrs * result (list (array2 V)) :=
  match filepaths with
  | [] => (cls, Ok features)
  | filepath :: rest =>
      let cls' := {| cls_names := cls_names cls ++ [Path.stem filepath];
                     cls_feature_names := cls_feature_names cls |} in
      match read filepath with
      | Ok audio => read_clips read cls' (features ++ [audio]) rest
      | Raise e => (cls', Raise e)
      end
  end.

(** [annotations[name]]. *)
Definition annotation (annotations : gmap string string) (name : string)
    : result string :=
  match annotations !! name with
  | Some label => Ok label
  | None => Raise KeyError
  end.

Definition __init__ (read : Path.t → result (array2 V))
    (annotations : option (result (gmap string string))) (corpus : string)
    (filepaths : result (list Path.t)) (cls : class_attrs)
    : class_attrs * result t :=
  let cls := {| cls_names := cls_names cls;
                cls_feature_names := cls_feature_names cls ++ ["pcm"] |} in
  match filepaths with
  | Raise e => (cls, Raise e)
  | Ok filepaths =>
      match read_clips read cls [] filepaths with
      | (cls, Raise e) => (cls, Raise e)
      | (cls, Ok features) =>
          match annotations with
          | None =>
              (cls, Ok {| _features := features; _names := None;
                          _labels := None; _corpus := corpus |})
          | Some (Raise e) => (cls, Raise e)
          | Some (Ok annotations) =>
              let names :=
                merge_sort String.le
                  (filter (λ x, is_Some (annotations !! x)) (cls_names cls)) in
              (cls,
               labels ← mapM (annotation annotations) names;
               Ok {| _features := features; _names := Some names;
                     _labels := Some labels; _corpus := corpus |})
          end
      end
  end.

(** What the properties of the backend return at a given moment. *)
Definition view (cls : class_attrs) (self : t) : Backend.t V :=
  {| Backend.features := ArrObj (_features self);
     Backend.labels := _labels self;
     Backend.names := names cls self;
     Backend.feature_names := feature_names cls self;
     Backend.corpus := _corpus self |}.

End defs.
Arguments t V : clear implicits.
End RawAudioBackend.

Module RawAudioExample.
Local Open Scope string_scope.

Definition clips_1 : list Path.t :=
  [Example.path "s1_001" ".wav"; Example.path "s2_001" ".wav"].
Definition clips_2 : list Path.t := [Example.path "t1_001" ".wav"].

(** Every clip decodes to one frame of one sample. *)
Definition read (p : Path.t) : result (array2 nat) := Ok [[0]].

(** A reader that cannot decode the second clip of [clips_1]. *)
Definition read_first_only (p : Path.t) : result (array2 nat) :=
  if decide (Path.stem p = "s1_001") then Ok [[0]] else Raise OSError.

(** Annotations for the second clip of [clips_1] only. *)
Definition annotations : gmap string string := {["s2_001" := "sad"]}.

End RawAudioExample.

(** ** The classifier name of the training script

    [scripts/training/comparative.py], [test_classifier]: the [--kind]
    argument is split at its first slash into a classifier type and the
    kind proper. *)
Module str.

(** [s.find(c)] for a needle of one character: the lowest index at which
    it occurs, or -1. *)
Fixpoint find_from (c : Ascii.ascii) (i : nat) (s : string) : Z :=
  match s with
  | EmptyString => -1
  | String a s' => if decide (a = c) then Z.of_nat i else find_from c (S i) s'
  end.
Definition find (c : Ascii.ascii) (s : string) : Z := find_from c 0 s.

(** [s[:n]] and [s[n:]] for [n >= 0]. *)
Fixpoint upto (n : nat) (s : string) : string :=
  match n, s with
  | S n', String a s' => String a (upto n' s')
  | _, _ => EmptyString
  end.
Fixpoint from (n : nat) (s : string) : string :=
  match n, s with
  | S n', String _ s' => from n' s'
  | _, _ => s
  end.

(** [c in s]. *)
Fixpoint contains (c : Ascii.ascii) (s : string) : bool :=
  match s with
  | EmptyString => false
  | String a s' => bool_decide (a = c) || contains c s'
  end.

End str.

(** The character ['/']. *)
Definition slash : Ascii.ascii := Eval cbv in Ascii.ascii_of_nat 47.

Definition split_kind (kind : string) : string * string :=
  let type_ := EmptyString in
  let _slash := str.find slash kind in
  if decide (0 ≤ str.find slash kind)%Z then
    (str.upto (Z.to_nat _slash) kind, str.from (Z.to_nat (_slash + 1)) kind)
  else (type_, kind).

(** * Properties *)

(** ** The [result] monad *)

Section result_lemmas.
Context {A B : Type}.
Implicit Types (f : A → result B) (l : list A) (k : list B).

Lemma bind_Ok {C D} (m : result C) (g : C → result D) (d : D) :
  m ≫= g = Ok d ↔ ∃ c, m = Ok c ∧ g c = Ok d.
Proof.
  destruct m as [c|e]; simpl.
  - split; [by exists c | by intros (? & [= ->] & ?)].
  - split; [done | by intros (? & ? & ?)].
Qed.

Lemma fmap_Ok {C D} (m : result C) (g : C → D) (d : D) :
  g <$> m = Ok d ↔ ∃ c, m = Ok c ∧ d = g c.
Proof.
  destruct m as [c|e]; simpl.
  - split; [intros [= <-]; by exists c | by intros (? & [= ->] & ->)].
  - split; [done | by intros (? & ? & ?)].
Qed.

Lemma result_bind_Ok {C D} (c : C) (g : C → result D) : Ok c ≫= g = g c.
Proof. reflexivity. Qed.

Lemma result_fmap_Ok {C D} (c : C) (g : C → D) : g <$> Ok c = Ok (g c).
Proof. reflexivity. Qed.

Lemma mapM_Ok f l k :
  mapM f l = Ok k ↔ Forall2 (λ a b, f a = Ok b) l k.
Proof.
  split.
  - revert k. induction l as [|a l IH]; intros k; simpl.
    + intros [= <-]. constructor.
    + destruct (f a) as [b|] eqn:Hb; simpl; [|done].
      destruct (mapM f l) as [k'|] eqn:Hk; simpl; [|done].
      intros [= <-]. constructor; auto.
  - induction 1 as [|a b l k Hab _ IH]; simpl; [done|].
    by rewrite Hab, IH.
Qed.

Lemma mapM_Ok_length f l k : mapM f l = Ok k → length k = length l.
Proof. intros H%mapM_Ok. by apply Forall2_length in H. Qed.

Lemma mapM_Ok_lookup f l k i a :
  mapM f l = Ok k → l !! i = Some a → ∃ b, k !! i = Some b ∧ f a = Ok b.
Proof.
  intros H%mapM_Ok Ha.
  destruct (Forall2_lookup_l _ _ _ _ _ H Ha) as (b & ? & ?). eauto.
Qed.

Lemma mapM_Ok_lookup_r f l k i b :
  mapM f l = Ok k → k !! i = Some b → ∃ a, l !! i = Some a ∧ f a = Ok b.
Proof.
  intros H%mapM_Ok Hb.
  destruct (Forall2_lookup_r _ _ _ _ _ H Hb) as (a & ? & ?). eauto.
Qed.

Lemma mapM_total f l :
  Forall (λ a, is_Ok (f a)) l → is_Ok (mapM f l).
Proof.
  induction 1 as [|a l [b Hb] _ [k Hk]]; simpl.
  - by exists [].
  - exists (b :: k). by rewrite Hb, Hk.
Qed.

End result_lemmas.

(** ** Python and numpy helpers *)

Section helper_lemmas.
Context {A : Type}.
Implicit Types (l : list A) (i : nat).

Lemma getitem_Ok l i a : py.getitem l i = Ok a ↔ l !! i = Some a.
Proof. unfold py.getitem. destruct (l !! i); naive_solver. Qed.

Lemma getitem_lt l i : i < length l → is_Ok (py.getitem l i).
Proof.
  intros [a Ha]%lookup_lt_is_Some. exists a. by apply getitem_Ok.
Qed.

Lemma slice_app_middle (pre a post : list A) :
  py.slice (length pre) (length pre + length a) (pre ++ a ++ post) = a.
Proof.
  unfold py.slice. rewrite drop_app_length.
  replace (length pre + length a - length pre) with (length a) by lia.
  by rewrite take_app_length.
Qed.

Lemma sub_arys_concat (pre : list A) (data : list (list A)) :
  np.sub_arys (pre ++ concat data)
    (length pre :: np.cumsum_from (length pre) (length <$> data)) = data.
Proof.
  revert pre. induction data as [|a data IH]; intros pre; [done|].
  cbn [fmap list_fmap np.cumsum_from concat np.sub_arys].
  f_equal.
  - apply slice_app_middle.
  - specialize (IH (pre ++ a)).
    rewrite length_app, <-(assoc_L (++)) in IH. exact IH.
Qed.

Lemma take_idx_length l (idx : list nat) k :
  np.take_idx l idx = Ok k → length k = length idx.
Proof. apply mapM_Ok_length. Qed.

End helper_lemmas.

Lemma cumsum_from_last acc l :
  l ≠ [] → last (np.cumsum_from acc l) = Some (acc + sum_list l).
Proof.
  revert acc. induction l as [|n l IH]; intros acc Hl; [done|].
  destruct l as [|m l].
  - simpl. f_equal. lia.
  - cbn [np.cumsum_from]. rewrite last_cons.
    cbn [np.cumsum_from] in IH. rewrite (IH (acc + n)) by done.
    simpl. f_equal. lia.
Qed.

(** Cutting at [indices[:-1]] and closing with the total is cutting at
    the cumulative sums, as soon as they add up to the total. *)
Lemma init_cumsum_total l n :
  l ≠ [] → sum_list l = n →
  py.init (np.cumsum l) ++ [n] = np.cumsum l.
Proof.
  intros Hl Hn. unfold py.init, np.cumsum.
  pose proof (cumsum_from_last 0 l Hl) as Hlast.
  destruct (np.cumsum_from 0 l) as [|c cs] eqn:Hc using rev_ind.
  { by destruct l. }
  clear IHcs. rewrite last_snoc in Hlast. injection Hlast as ->.
  rewrite length_app. simpl.
  replace (length cs + 1 - 1) with (length cs) by lia.
  rewrite take_app_length. by rewrite <-Hn.
Qed.

Lemma sum_list_length_concat {A} (data : list (list A)) :
  sum_list (length <$> data) = length (concat data).
Proof.
  induction data as [|a data IH]; [done|].
  rewrite fmap_cons. cbn [sum_list_with concat].
  rewrite length_app, <-IH. done.
Qed.

Section array_lemmas.
Context {V : Type}.
Implicit Types (a : array2 V) (data : list (array2 V)).

Lemma same_cols_buffer f a b : buffer f a → buffer f b → same_cols a b = true.
Proof.
  unfold same_cols, ncols. intros Ha Hb.
  destruct a as [|r a], b as [|r' b]; simpl; try done.
  apply Forall_cons_1 in Ha as [-> _]. apply Forall_cons_1 in Hb as [-> _].
  by apply bool_decide_eq_true.
Qed.

Lemma concat_from_buffers f acc data :
  buffer f acc → Forall (buffer f) data →
  np.concat_from same_cols acc data = Ok (acc ++ concat data).
Proof.
  intros Hacc Hdata. revert acc Hacc.
  induction Hdata as [|b data Hb _ IH]; intros acc Hacc; simpl.
  - by rewrite app_nil_r.
  - rewrite (same_cols_buffer f) by done.
    rewrite IH by (by apply Forall_app). by rewrite (assoc_L (++)).
Qed.

Lemma make_ragged_concat data :
  data ≠ [] → _make_ragged (concat data) (length <$> data) = data.
Proof.
  intros Hdata. unfold _make_ragged, np.split.
  rewrite init_cumsum_total.
  - apply (sub_arys_concat []).
  - by destruct data.
  - apply sum_list_length_concat.
Qed.

(** C3. Flattening a non-empty ragged sequence of 2-D arrays of one
    width (at least one row each) and unflattening the result gives the
    sequence back: same number of items, each item equal to the
    original one. *)
Theorem flatten_unflatten_roundtrip (data : list (array2 V)) (f : nat) :
  data ≠ [] →
  Forall (λ a, a ≠ [] ∧ buffer f a) data →
  ∃ flat slices,
    _make_flat data = Ok (flat, slices)
    ∧ slices = length <$> data
    ∧ _make_ragged flat slices = data
    ∧ length (_make_ragged flat slices) = length data
    ∧ ∀ i, _make_ragged flat slices !! i = data !! i.
Proof.
  intros Hne Hdata.
  assert (Forall (buffer f) data) as Hbuf.
  { eapply Forall_impl; [exact Hdata|]. by intros a [_ ?]. }
  exists (concat data), (length <$> data).
  assert (_make_ragged (concat data) (length <$> data) = data) as Hrt
    by by apply make_ragged_concat.
  split_and!; [|done|done|by rewrite Hrt|by rewrite Hrt].
  unfold _make_flat, concatenate, np.concatenate_with.
  destruct data as [|a data]; [done|].
  apply Forall_cons_1 in Hbuf as [Ha Hbuf].
  by rewrite (concat_from_buffers f).
Qed.

End array_lemmas.

Lemma flatten_unflatten_roundtrip_witness :
  ∃ flat slices,
    _make_flat [[[1; 2]]; [[3; 4]; [5; 6]]] = Ok (flat, slices)
    ∧ slices = length <$> [[[1; 2]]; [[3; 4]; [5; 6]]]
    ∧ _make_ragged flat slices = [[[1; 2]]; [[3; 4]; [5; 6]]]
    ∧ length (_make_ragged flat slices) = length [[[1; 2]]; [[3; 4]; [5; 6]]]
    ∧ ∀ i, _make_ragged flat slices !! i = [[[1; 2]]; [[3; 4]; [5; 6]]] !! i.
Proof.
  apply (flatten_unflatten_roundtrip [[[1; 2]]; [[3; 4]; [5; 6]]] 2).
  - done.
  - repeat constructor; done.
Defined.

(** ** The three-way dispatch of the reshaper *)

Lemma sum_list_all_equal (L : nat) (l : list nat) :
  Forall (λ s, s = L) l → sum_list l = length l * L.
Proof. induction 1 as [|s l -> _ IH]; simpl; [done|]. rewrite IH. lia. Qed.

Lemma forallb_eqb_true (s0 : nat) (l : list nat) :
  forallb (λ s, s =? s0) l = true ↔ Forall (λ s, s = s0) l.
Proof.
  rewrite forallb_forall, Forall_forall.
  split; intros H s Hs.
  - apply Nat.eqb_eq, H. by apply list_elem_of_In.
  - apply Nat.eqb_eq, H. by apply list_elem_of_In.
Qed.

Lemma sum_list_ge_length (l : list nat) :
  Forall (λ s, 1 ≤ s) l → length l ≤ sum_list l.
Proof. induction 1; simpl; lia. Qed.

Lemma sum_list_eq_length_ones (l : list nat) :
  Forall (λ s, 1 ≤ s) l → sum_list l = length l → Forall (λ s, s = 1) l.
Proof.
  induction 1 as [|s l Hs Hl IH]; simpl; intros Hsum; [done|].
  pose proof (sum_list_ge_length l Hl).
  constructor; [lia|]. apply IH. lia.
Qed.

Section reshape_lemmas.
Context {V : Type}.
Implicit Types (x : array2 V) (slices : list nat).

Lemma slice_length {A} (l : list A) st n :
  st + n ≤ length l → length (py.slice st (st + n) l) = n.
Proof.
  intros H. unfold py.slice. rewrite length_take, length_drop. lia.
Qed.

Lemma slice_buffer f x st en : buffer f x → buffer f (py.slice st en x).
Proof. intros H. unfold py.slice. by apply Forall_take, Forall_drop. Qed.

Lemma sub_arys_lengths {A} (l : list A) off lens :
  off + sum_list lens ≤ length l →
  length <$> np.sub_arys l (off :: np.cumsum_from off lens) = lens.
Proof.
  revert off. induction lens as [|n lens IH]; intros off Hle; [done|].
  cbn [np.cumsum_from np.sub_arys]. rewrite fmap_cons. simpl in Hle. f_equal.
  - apply slice_length. lia.
  - apply IH. lia.
Qed.

Lemma reshape3_shape f x n t :
  buffer f x → n * t = length x →
  ∃ a, reshape3 x n t = Ok a ∧ shape3 n t f a.
Proof.
  intros Hx Hnt. unfold reshape3. rewrite decide_True by done.
  eexists; split; [done|]. split.
  - by rewrite length_fmap, length_seq.
  - apply Forall_fmap, Forall_forall. intros i [_ Hi]%elem_of_seq. simpl.
    split; [|by apply slice_buffer].
    apply slice_length. nia.
Qed.

(** Equal lengths give a 3-D array, unless the buffer already holds one
    row per instance. *)
Lemma reshape_equal_lengths f x slices L :
  buffer f x → Forall (λ s, 1 ≤ s) slices → sum_list slices = length x →
  Forall (λ s, s = L) slices → length x ≠ length slices →
  ∃ a, _reshape_data_array x slices = Ok (Arr3 a)
       ∧ shape3 (length slices) L f a.
Proof.
  intros Hx Hpos Hsum HL Hne. unfold _reshape_data_array.
  rewrite decide_False by done.
  pose proof (sum_list_all_equal L slices HL) as Hmul.
  destruct slices as [|s0 slices'] eqn:Hs.
  { simpl in *. lia. }
  rewrite <-Hs in *. assert (0 < length slices) by (rewrite Hs; simpl; lia).
  assert (s0 = L) as -> by (rewrite Hs in HL; by apply Forall_cons_1 in HL as [? _]).
  assert (py.getitem slices 0 = Ok L) as -> by (by rewrite Hs).
  cbn [mbind result_bind].
  assert (forallb (λ s, s =? L) slices = true) as -> by by apply forallb_eqb_true.
  assert (length x = length slices * L) as Hlen by lia.
  rewrite decide_True by (rewrite Hlen, Nat.mul_comm; apply Nat.Div0.mod_mul).
  assert (1 ≤ L) by (rewrite Hs in Hpos; by apply Forall_cons_1 in Hpos as [? _]).
  destruct (getitem_lt x 0) as [x0 ->]; [nia|].
  cbn [mbind result_bind].
  replace (length x `div` length slices) with L
    by (rewrite Hlen, Nat.mul_comm; symmetry; apply Nat.div_mul; lia).
  destruct (reshape3_shape f x (length slices) L) as (a & -> & Ha); [done|lia|].
  by exists a.
Qed.

(** Unequal lengths give a ragged array whose items have the requested
    numbers of rows. *)
Lemma reshape_unequal_lengths x slices :
  Forall (λ s, 1 ≤ s) slices → sum_list slices = length x →
  (¬ ∃ L, Forall (λ s, s = L) slices) →
  ∃ a, _reshape_data_array x slices = Ok (ArrObj a) ∧ length <$> a = slices.
Proof.
  intros Hpos Hsum Hneq. unfold _reshape_data_array.
  destruct slices as [|s0 slices'] eqn:Hs.
  { destruct Hneq. by exists 0. }
  rewrite <-Hs in *.
  assert (length x ≠ length slices) as Hne.
  { intros Heq. destruct Hneq. exists 1.
    apply sum_list_eq_length_ones; [done|lia]. }
  rewrite decide_False by done.
  assert (py.getitem slices 0 = Ok s0) as -> by (by rewrite Hs).
  cbn [mbind result_bind].
  destruct (forallb (λ s, s =? s0) slices) eqn:Hall.
  { destruct Hneq. exists s0. by apply forallb_eqb_true. }
  eexists; split; [done|]. unfold np.split.
  rewrite (init_cumsum_total slices (length x)); [|by rewrite Hs|done].
  apply sub_arys_lengths. lia.
Qed.

End reshape_lemmas.

(** The input that separates the specification's wording from the code:
    two instances of one row each. *)
Lemma reshape_one_row_each_is_2d :
  _reshape_data_array [[10; 11]; [20; 21]] [1; 1]
  = Ok (Arr2 [[10; 11]; [20; 21]]).
Proof. reflexivity. Qed.

Lemma reshape_cases_as_stated_fails :
  buffer 2 [[10; 11]; [20; 21]]
  ∧ Forall (λ s, 1 ≤ s) [1; 1]
  ∧ sum_list [1; 1] = length [[10; 11]; [20; 21]]
  ∧ ¬ reshape_cases_as_stated [[10; 11]; [20; 21]] [1; 1] 2.
Proof.
  split_and!; [by repeat constructor|by repeat constructor|done|].
  intros (Hequal & _ & _).
  destruct (Hequal 1) as (a & Ha & _); [by repeat constructor|].
  rewrite reshape_one_row_each_is_2d in Ha. discriminate.
Qed.

(** C2 (amended). For a 2-D buffer [x] of width [f] and a length vector
    [slices] with every entry at least 1 and summing to [len(x)]:
    - if [len(x) == len(slices)] the reshaper returns [x] unchanged;
    - if all entries equal some [L] and [len(x) != len(slices)] it
      returns a rectangular array of shape [(len(slices), L, f)];
    - if the entries are unequal it returns a ragged array whose [i]-th
      item has [slices[i]] rows. *)
Theorem reshape_cases {V} (x : array2 V) (slices : list nat) (f : nat) :
  buffer f x → Forall (λ s, 1 ≤ s) slices → sum_list slices = length x →
  (∀ L, Forall (λ s, s = L) slices → length x ≠ length slices →
     ∃ a, _reshape_data_array x slices = Ok (Arr3 a)
          ∧ shape3 (length slices) L f a)
  ∧ ((¬ ∃ L, Forall (λ s, s = L) slices) →
     ∃ a, _reshape_data_array x slices = Ok (ArrObj a)
          ∧ length <$> a = slices)
  ∧ (length x = length slices → _reshape_data_array x slices = Ok (Arr2 x)).
Proof.
  intros Hx Hpos Hsum. split_and!.
  - intros L HL Hne. by apply reshape_equal_lengths.
  - intros Hneq. by apply reshape_unequal_lengths.
  - intros Heq. unfold _reshape_data_array. by rewrite decide_True.
Qed.

Lemma reshape_cases_witness :
  (∃ a, _reshape_data_array [[1]; [2]; [3]; [4]] [2; 2] = Ok (Arr3 a)
        ∧ shape3 2 2 1 a)
  ∧ (∃ a, _reshape_data_array [[1]; [2]; [3]] [1; 2] = Ok (ArrObj a)
          ∧ length <$> a = [1; 2])
  ∧ _reshape_data_array [[1]; [2]] [1; 1] = Ok (Arr2 [[1]; [2]]).
Proof.
  split_and!.
  - destruct (reshape_cases [[1]; [2]; [3]; [4]] [2; 2] 1) as (Hequal & _ & _).
    + by repeat constructor.
    + repeat constructor; lia.
    + reflexivity.
    + apply (Hequal 2); [by repeat constructor|simpl; lia].
  - destruct (reshape_cases [[1]; [2]; [3]] [1; 2] 1) as (_ & Hunequal & _).
    + by repeat constructor.
    + repeat constructor; lia.
    + reflexivity.
    + apply Hunequal. intros (L & HL).
      apply Forall_cons_1 in HL as [<- HL].
      by apply Forall_cons_1 in HL as [? _].
  - destruct (reshape_cases [[1]; [2]] [1; 1] 1) as (_ & _ & Hsame).
    + by repeat constructor.
    + repeat constructor; lia.
    + reflexivity.
    + by apply Hsame.
Defined.

(** ** Sorting and indexing class names *)

Lemma sorted_spec (s : gset string) :
  sorted_unique (py.sorted s) ∧ ∀ c, c ∈ py.sorted s ↔ c ∈ s.
Proof.
  unfold sorted_unique, py.sorted.
  pose proof (merge_sort_Permutation String.le (elements s)) as Hperm.
  split_and!.
  - apply (StronglySorted_merge_sort _).
  - rewrite Hperm. apply NoDup_elements.
  - intros c. rewrite Hperm. apply elem_of_elements.
Qed.

Lemma index_Ok (l : list string) (c : string) (i : nat) :
  py.index l c = Ok i → l !! i = Some c.
Proof.
  revert i. induction l as [|c' l IH]; intros i; simpl; [done|].
  destruct (decide (c' = c)) as [->|].
  - by intros [= <-].
  - intros (j & Hj & ->)%fmap_Ok. simpl. auto.
Qed.

Lemma index_elem_of (l : list string) (c : string) :
  c ∈ l → ∃ i, py.index l c = Ok i ∧ l !! i = Some c.
Proof.
  induction 1 as [c l|c c' l _ (i & Hi & ?)]; simpl.
  - exists 0. by rewrite decide_True.
  - destruct (decide (c' = c)) as [->|]; [by exists 0|].
    exists (S i). by rewrite Hi.
Qed.

Lemma index_not_elem_of (l : list string) (c : string) :
  c ∉ l → py.index l c = Raise ValueError.
Proof.
  induction l as [|c' l IH]; simpl; [done|].
  intros [? ?]%not_elem_of_cons.
  rewrite decide_False by done. by rewrite IH.
Qed.

Lemma index_lt (l : list string) (c : string) (i : nat) :
  py.index l c = Ok i → i < length l.
Proof. intros H%index_Ok. by eapply lookup_lt_Some. Qed.

Lemma index_first (l : list string) (c : string) (k : nat) :
  py.index l c = Ok k → ∀ j, l !! j = Some c → k ≤ j.
Proof.
  revert k. induction l as [|c' l IH]; intros k; simpl; [done|].
  destruct (decide (c' = c)) as [->|Hne].
  - intros [= <-] j _. lia.
  - destruct (py.index l c) as [k'|] eqn:Hk'; simpl; [|done].
    intros [= <-] [|j] Hj; simpl in Hj; [congruence|].
    specialize (IH k' eq_refl j Hj). lia.
Qed.

(** ** [map_classes] *)

Section map_classes.
Context {V : Type}.
Implicit Types (d : LabelledDataset.t V) (m : gmap string string).

(** What [map_classes(m)] does when the label vector is not empty and
    within the class list: it keeps the instances (names, hence
    [n_instances], and the length of [y]); the new class list is the
    sorted, duplicate-free list of the images of the old classes under
    [m] completed by the identity; and every label's new class name is
    the image of its old one. With the empty mapping every label keeps
    its class name. *)
Theorem map_classes_spec m d :
  labels_in_range d → LabelledDataset.y d ≠ [] →
  ∃ d', LabelledDataset.map_classes m d = Ok d'
    ∧ Dataset.names d' = Dataset.names d
    ∧ Dataset.n_instances d' = Dataset.n_instances d
    ∧ length (LabelledDataset.y d') = length (LabelledDataset.y d)
    ∧ sorted_unique (LabelledDataset.classes d')
    ∧ (∀ c, c ∈ LabelledDataset.classes d' ↔
         ∃ c0, c0 ∈ LabelledDataset.classes d ∧ c = default c0 (m !! c0))
    ∧ (∀ i, i < length (LabelledDataset.y d) →
         ∃ c0, class_of d i = Some c0
               ∧ class_of d' i = Some (default c0 (m !! c0)))
    ∧ (m = ∅ → ∀ i, class_of d' i = class_of d i).
Proof.
  intros Hrange Hyne.
  unfold LabelledDataset.map_classes. cbv zeta.
  set (new_classes := py.sorted _).
  destruct (sorted_spec
              (list_to_set ((λ k : string, default k (m !! k))
                              <$> LabelledDataset.classes d)))
    as [Hsorted Hmem]. fold new_classes in Hsorted, Hmem.
  assert (∀ c, c ∈ new_classes ↔
            ∃ c0, c0 ∈ LabelledDataset.classes d ∧ c = default c0 (m !! c0))
    as Hnew.
  { intros c. rewrite Hmem, elem_of_list_to_set, list_elem_of_fmap.
    split; intros (c0 & ? & ?); eauto. }
  (* the old-index to new-index table *)
  destruct (mapM_total (λ k, py.index new_classes (default k (m !! k)))
              (LabelledDataset.classes d)) as [arr_map Harr].
  { apply Forall_forall. intros k Hk.
    destruct (index_elem_of new_classes (default k (m !! k))) as (i & Hi & _).
    - apply Hnew. eauto.
    - by exists i. }
  rewrite Harr. cbn [mbind result_bind].
  pose proof (mapM_Ok_length _ _ _ Harr) as Harrlen.
  (* the new label vector *)
  destruct (mapM_total (py.getitem arr_map) (LabelledDataset.y d))
    as [y' Hy'].
  { eapply Forall_impl; [exact Hrange|]. intros c Hc. simpl in Hc.
    apply getitem_lt. lia. }
  pose proof (mapM_Ok_length _ _ _ Hy') as Hy'len.
  assert (np.take_by_array arr_map (LabelledDataset.y d) = Ok y') as ->.
  { unfold np.take_by_array, np.take_idx.
    by destruct (LabelledDataset.y d). }
  cbn [mbind result_bind].
  assert (∃ cc, np.bincount_of_list y' = Ok cc) as [cc ->].
  { destruct y' as [|? ?]; [|by eexists].
    destruct (LabelledDataset.y d); simpl in *; done. }
  cbn [mbind result_bind].
  eexists. split; [done|]. cbn.
  (* how one instance is relabelled *)
  assert (∀ i, i < length (LabelledDataset.y d) →
            ∃ c0, class_of d i = Some c0
                  ∧ (y' !! i ≫= λ c, new_classes !! c)
                    = Some (default c0 (m !! c0)))
    as Hinst.
  { intros i Hi.
    destruct (lookup_lt_is_Some_2 (LabelledDataset.y d) i) as [c Hc]; [lia|].
    pose proof (proj1 (Forall_lookup _ _) Hrange i c Hc) as Hlt.
    destruct (lookup_lt_is_Some_2 (LabelledDataset.classes d) c) as [c0 Hc0];
      [done|].
    exists c0. unfold class_of. rewrite Hc. simpl. split; [done|].
    destruct (mapM_Ok_lookup _ _ _ _ _ Hy' Hc) as (c' & -> & Hc'%getitem_Ok).
    simpl.
    destruct (mapM_Ok_lookup_r _ _ _ _ _ Harr Hc') as (k & Hk & Hidx).
    rewrite Hc0 in Hk. injection Hk as <-.
    by apply index_Ok. }
  split_and!; try done.
  - intros ->. intros i. unfold class_of at 1. cbn.
    destruct (decide (i < length (LabelledDataset.y d))) as [Hi|Hi].
    + destruct (Hinst i Hi) as (c0 & -> & ->).
      by rewrite lookup_empty.
    + unfold class_of.
      rewrite (lookup_ge_None_2 y'), (lookup_ge_None_2 (LabelledDataset.y d))
        by lia.
      done.
Qed.

End map_classes.

(** The example containers load to the example datasets. *)
Lemma load_A :
  Example.load (Example.path "A" ".nc") = Ok Example.dataset_A.
Proof. vm_compute. reflexivity. Qed.

Lemma load_B :
  Example.load (Example.path "B" ".nc") = Ok Example.dataset_B.
Proof. vm_compute. reflexivity. Qed.

(** Well-formedness of a concrete dataset, by evaluation. *)
Ltac solve_wf :=
  unfold wf, aligned, labels_in_range; cbn;
  split_and!; try done; try lia; repeat constructor.

Lemma wf_dataset_A : wf Example.dataset_A.
Proof. solve_wf. Qed.

Lemma wf_dataset_B : wf Example.dataset_B.
Proof. solve_wf. Qed.

Lemma map_classes_spec_witness :
  labels_in_range Example.dataset_B
  ∧ ∃ d', LabelledDataset.map_classes Example.merge_negative Example.dataset_B
          = Ok d'
    ∧ Dataset.n_instances d' = Dataset.n_instances Example.dataset_B
    ∧ sorted_unique (LabelledDataset.classes d')
    ∧ ∀ i, i < 3 →
        ∃ c0, class_of Example.dataset_B i = Some c0
              ∧ class_of d' i = Some (default c0 (Example.merge_negative !! c0)).
Proof.
  assert (labels_in_range Example.dataset_B) as Hrange
    by (unfold labels_in_range; cbn; repeat constructor).
  split; [exact Hrange|].
  destruct (map_classes_spec Example.merge_negative Example.dataset_B Hrange)
    as (d' & Hd' & _ & Hn & _ & Hs & _ & Hi & _); [done|].
  exists d'. split_and!; [exact Hd'|exact Hn|exact Hs|exact Hi].
Defined.

(** C4. [map_classes] fails on a dataset without labels. The merge of
    the corpora A and B with an allow-list that keeps no instance
    succeeds and has an empty label vector, which [np.array] builds as a
    float array; [map_classes] indexes its table with that vector and
    raises [IndexError], for the empty mapping as for any other. *)
Theorem map_classes_raises_without_labels :
  ∃ cd : CombinedDataset.t nat,
    CombinedDataset.__init__ [Example.dataset_A; Example.dataset_B]
      ExtraExample.only_neutral = Ok cd
    ∧ LabelledDataset.classes cd = ["neutral"]
    ∧ LabelledDataset.y cd = []
    ∧ Dataset.n_instances cd = 5
    ∧ LabelledDataset.map_classes ∅ cd = Raise IndexError
    ∧ LabelledDataset.map_classes Example.merge_negative cd = Raise IndexError.
Proof.
  eexists. split; [vm_compute; reflexivity|].
  split_and!; vm_compute; reflexivity.
Qed.

(** ** Merging datasets *)

Section list_facts.
Context {A : Type}.

Lemma concat_from_true (acc : list A) (l : list (list A)) :
  np.concat_from (λ _ _, true) acc l = Ok (acc ++ concat l).
Proof.
  revert acc. induction l as [|b l IH]; intros acc; simpl.
  - by rewrite app_nil_r.
  - by rewrite IH, (assoc_L (++)).
Qed.

Lemma concatenate_with_true (l : list (list A)) :
  l ≠ [] → np.concatenate_with (λ _ _, true) l = Ok (concat l).
Proof. destruct l as [|a l]; [done|]. intros _. apply concat_from_true. Qed.

Lemma lookup_concat_offset (ls : list (list A)) j l i a :
  ls !! j = Some l → l !! i = Some a →
  mjoin ls !! (sum_list (length <$> take j ls) + i) = Some a.
Proof.
  revert j. induction ls as [|l0 ls IH]; intros j Hj Hi; [done|].
  destruct j as [|j]; simpl in *.
  - injection Hj as ->. by apply lookup_app_l_Some.
  - rewrite lookup_app_r by lia. rewrite <-(IH j Hj Hi). f_equal.
    change (list_fmap _ _ length (take j ls)) with (length <$> take j ls).
    lia.
Qed.

Lemma positions_from_spec (P : A → bool) off (l : list A) i :
  i ∈ py.positions_from P off l
  ↔ ∃ j a, i = off + j ∧ l !! j = Some a ∧ P a = true.
Proof.
  revert off. induction l as [|x l IH]; intros off; simpl.
  - split; [by intros ?%elem_of_nil | by intros (? & ? & _ & ? & _)].
  - assert (i ∈ py.positions_from P (S off) l
            ↔ ∃ j a, i = off + S j ∧ l !! j = Some a ∧ P a = true) as IH'.
    { rewrite IH. split; intros (j & a & -> & ?); exists j, a; split; auto; lia. }
    destruct (P x) eqn:HP; [rewrite elem_of_cons|]; rewrite IH'; split.
    + intros [->|(j & a & -> & ? & ?)].
      * exists 0, x. split_and!; auto; lia.
      * by exists (S j), a.
    + intros ([|j] & a & -> & Hl & Ha); simpl in Hl.
      * left. lia.
      * right. by exists j, a.
    + intros (j & a & -> & ? & ?). by exists (S j), a.
    + intros ([|j] & a & -> & Hl & Ha); simpl in Hl.
      * congruence.
      * by exists j, a.
Qed.

Lemma positions_spec (P : A → bool) (l : list A) i :
  i ∈ py.positions P l ↔ ∃ a, l !! i = Some a ∧ P a = true.
Proof.
  unfold py.positions. rewrite positions_from_spec.
  split; [intros (j & a & -> & ?) | intros (a & ?)]; eauto.
Qed.

Lemma positions_from_NoDup (P : A → bool) off (l : list A) :
  NoDup (py.positions_from P off l).
Proof.
  revert off. induction l as [|x l IH]; intros off; simpl; [constructor|].
  destruct (P x); [|done]. constructor; [|done].
  rewrite positions_from_spec. intros (j & a & ? & _). lia.
Qed.

End list_facts.

(** *** [np.bincount] of [np.repeat(np.arange(k), sizes)] *)

Lemma repeat_from_cons off n sizes :
  repeat_from off (n :: sizes) = replicate n off ++ repeat_from (S off) sizes.
Proof.
  unfold repeat_from. cbn [imap mjoin list_join]. rewrite Nat.add_0_r.
  f_equal. f_equal. apply imap_ext. intros j m _. simpl. f_equal. lia.
Qed.

Lemma repeat_from_length off sizes :
  length (repeat_from off sizes) = sum_list sizes.
Proof.
  revert off. induction sizes as [|n sizes IH]; intros off; [done|].
  rewrite repeat_from_cons, length_app, length_replicate, IH. done.
Qed.

Lemma bound_replicate m n v :
  0 < n → foldr (λ v acc, S v `max` acc) m (replicate n v) = S v `max` m.
Proof.
  induction n as [|n IH]; [lia|]. intros _. simpl.
  destruct n as [|n]; [done|]. rewrite IH by lia. lia.
Qed.

Lemma bound_repeat_from off sizes :
  Forall (λ n, 0 < n) sizes → sizes ≠ [] →
  foldr (λ v acc, S v `max` acc) 0 (repeat_from off sizes)
  = off + length sizes.
Proof.
  intros Hpos. revert off.
  induction Hpos as [|n sizes Hn Hpos IH]; intros off Hne; [done|].
  rewrite repeat_from_cons, foldr_app, bound_replicate by done.
  destruct sizes as [|n' sizes].
  - simpl. lia.
  - rewrite IH by done. simpl. lia.
Qed.

Lemma count_replicate (k n v : nat) :
  length (filter (λ w, w = k) (replicate n v)) = if decide (v = k) then n else 0.
Proof.
  induction n as [|n IH]; simpl.
  - by destruct (decide (v = k)).
  - rewrite filter_cons. destruct (decide (v = k)); simpl; lia.
Qed.

Lemma count_repeat_from off sizes k :
  length (filter (λ w, w = k) (repeat_from off sizes))
  = if decide (off ≤ k) then default 0 (sizes !! (k - off)) else 0.
Proof.
  revert off. induction sizes as [|n sizes IH]; intros off.
  - simpl. by destruct (decide (off ≤ k)).
  - rewrite repeat_from_cons, filter_app, length_app, count_replicate, IH.
    destruct (decide (off = k)) as [->|].
    + rewrite decide_False, decide_True by lia. rewrite Nat.sub_diag. simpl. lia.
    + destruct (decide (S off ≤ k)).
      * rewrite decide_True by lia.
        replace (k - off) with (S (k - S off)) by lia. done.
      * rewrite decide_False by lia. done.
Qed.

Lemma bincount_repeat_arange sizes :
  Forall (λ n, 0 < n) sizes →
  np.bincount (np.repeat_arange sizes) 0 = sizes.
Proof.
  intros Hpos. change (np.repeat_arange sizes) with (repeat_from 0 sizes).
  unfold np.bincount.
  destruct (decide (sizes = [])) as [->|Hne]; [done|].
  rewrite bound_repeat_from by done. simpl.
  apply list_eq. intros i. rewrite list_lookup_fmap.
  destruct (decide (i < length sizes)) as [Hi|Hi].
  - rewrite lookup_seq_lt by done. simpl.
    rewrite count_repeat_from, decide_True by lia. rewrite Nat.sub_0_r.
    destruct (lookup_lt_is_Some_2 sizes i Hi) as [n ->]. done.
  - rewrite lookup_seq_ge, lookup_ge_None_2 by lia. done.
Qed.

Lemma repeat_arange_length sizes :
  length (np.repeat_arange sizes) = sum_list sizes.
Proof. apply (repeat_from_length 0). Qed.

Section combined.
Context {V : Type}.
Implicit Types (d : LabelledDataset.t V) (datasets : list (LabelledDataset.t V)).
Implicit Types (cd : CombinedDataset.t V).

Lemma merge_step_lengths datasets acc :
  length (foldl CombinedDataset.merge_step acc datasets).1.1.2
  = length acc.1.1.2 + length datasets
  ∧ length (foldl CombinedDataset.merge_step acc datasets).2
    = length acc.2 + length datasets.
Proof.
  revert acc. induction datasets as [|d datasets IH]; intros acc; simpl.
  - lia.
  - destruct (IH (CombinedDataset.merge_step acc d)) as [-> ->].
    destruct acc as [[[sp si] sg] sgi]. simpl. rewrite !length_app. simpl. lia.
Qed.

(** The class names of the instances, as [remove_classes] and the merge
    recompute them. *)
Lemma str_labels_Ok d :
  labels_in_range d →
  ∃ str_labels,
    mapM (py.getitem (LabelledDataset.classes d)) (LabelledDataset.y d)
    = Ok str_labels
    ∧ length str_labels = length (LabelledDataset.y d)
    ∧ (∀ i, str_labels !! i = class_of d i)
    ∧ Forall (λ c, c ∈ LabelledDataset.classes d) str_labels.
Proof.
  intros Hrange.
  destruct (mapM_total (py.getitem (LabelledDataset.classes d))
              (LabelledDataset.y d)) as [str_labels Hstr].
  { eapply Forall_impl; [exact Hrange|]. intros c Hc. by apply getitem_lt. }
  exists str_labels. pose proof (mapM_Ok_length _ _ _ Hstr) as Hlen.
  split_and!; [done|done| |].
  - intros i. unfold class_of.
    destruct (LabelledDataset.y d !! i) as [c|] eqn:Hc; simpl.
    + destruct (mapM_Ok_lookup _ _ _ _ _ Hstr Hc) as (b & -> & Hb%getitem_Ok).
      done.
    + apply lookup_ge_None. apply lookup_ge_None in Hc. lia.
  - apply Forall_forall. intros c [i Hi]%list_elem_of_lookup.
    destruct (mapM_Ok_lookup_r _ _ _ _ _ Hstr Hi) as (k & _ & Hk%getitem_Ok).
    by eapply list_elem_of_lookup_2.
Qed.

Lemma all_str_labels_Ok datasets :
  Forall labels_in_range datasets →
  ∃ nss,
    mapM (λ d : LabelledDataset.t V,
        mapM (py.getitem (LabelledDataset.classes d)) (LabelledDataset.y d))
      datasets = Ok nss
    ∧ Forall2 (λ d ns,
        length ns = length (LabelledDataset.y d)
        ∧ (∀ i, ns !! i = class_of d i)
        ∧ Forall (λ c, c ∈ LabelledDataset.classes d) ns) datasets nss.
Proof.
  induction 1 as [|d datasets Hd _ (nss & Hnss & IH)]; simpl.
  - exists []. split; [done|constructor].
  - destruct (str_labels_Ok d Hd) as (ns & -> & ?). rewrite Hnss.
    exists (ns :: nss). split; [done|]. by constructor.
Qed.

Lemma names_length datasets :
  length (datasets ≫= λ d, CombinedDataset.prefixed d <$> Dataset.names d)
  = sum_list ((λ d, Dataset.n_instances d) <$> datasets).
Proof.
  induction datasets as [|d datasets IH]; [done|].
  cbn [mbind list_bind]. rewrite length_app, length_fmap.
  fold (list_bind (LabelledDataset.t V) string).
  rewrite fmap_cons. cbn [sum_list_with]. unfold Dataset.n_instances at 1.
  f_equal. exact IH.
Qed.

(** Merging a non-empty sequence of well-formed labelled datasets (each
    with at least one instance) without an allow-list succeeds; the
    classes of the result are the sorted, duplicate-free union of the
    sources' classes; its number of instances is the sum of theirs;
    instance [i] of source [j] keeps its class name at position
    [offset j + i]; and [corpus_counts] lists the sources' instance
    counts. *)
Theorem combined_merge datasets :
  datasets ≠ [] → Forall wf datasets → stackable datasets →
  ∃ cd, CombinedDataset.__init__ datasets None = Ok cd
    ∧ sorted_unique (LabelledDataset.classes cd)
    ∧ (∀ c, c ∈ LabelledDataset.classes cd
            ↔ ∃ d, d ∈ datasets ∧ c ∈ LabelledDataset.classes d)
    ∧ Dataset.n_instances cd
      = sum_list ((λ d, Dataset.n_instances d) <$> datasets)
    ∧ (∀ j d i, datasets !! j = Some d → i < Dataset.n_instances d →
         ∃ c, class_of d i = Some c
              ∧ class_of cd (offset datasets j + i) = Some c)
    ∧ CombinedDataset.corpus_counts cd
      = (λ d, Dataset.n_instances d) <$> datasets.
Proof.
  intros Hne Hwf [x Hx].
  unfold CombinedDataset.__init__. cbv zeta.
  assert (∃ d0, py.getitem datasets 0 = Ok d0) as [d0 ->].
  { destruct datasets; [done|]. by eexists. }
  rewrite result_bind_Ok.
  set (merged := foldl CombinedDataset.merge_step _ datasets).
  destruct (merge_step_lengths datasets ([], [], [], [])) as [Hsi Hsgi].
  fold merged in Hsi, Hsgi.
  assert (0 < length datasets) by (destruct datasets; [done|simpl; lia]).
  rewrite (concatenate_with_true merged.1.1.2), result_bind_Ok
    by (intros Hnil; rewrite Hnil in Hsi; simpl in Hsi; lia).
  rewrite (concatenate_with_true merged.2), result_bind_Ok
    by (intros Hnil; rewrite Hnil in Hsgi; simpl in Hsgi; lia).
  rewrite Hx, result_bind_Ok.
  destruct (all_str_labels_Ok datasets) as (nss & -> & Hnss).
  { eapply Forall_impl; [exact Hwf|]. by intros d (_ & ? & _). }
  rewrite result_fmap_Ok, result_bind_Ok.
  cbn [CombinedDataset.truthy]. rewrite result_bind_Ok.
  set (all_labels := list_to_set (datasets ≫= LabelledDataset.classes)).
  destruct (sorted_spec all_labels) as [Hsorted Hmem].
  assert (∀ c, c ∈ py.sorted all_labels
               ↔ ∃ d, d ∈ datasets ∧ c ∈ LabelledDataset.classes d) as Hunion.
  { intros c. rewrite Hmem. unfold all_labels.
    rewrite elem_of_list_to_set, list_elem_of_bind.
    split; intros (d & ? & ?); eauto. }
  destruct (mapM_total (py.index (py.sorted all_labels)) (mjoin nss))
    as [y Hy].
  { apply Forall_forall. intros c (ns & Hc & Hns)%list_elem_of_join.
    apply list_elem_of_lookup in Hns as [j Hj].
    destruct (Forall2_lookup_r _ _ _ _ _ Hnss Hj) as (d & Hd & _ & _ & Hin).
    destruct (index_elem_of (py.sorted all_labels) c) as (k & Hk & _).
    - apply Hunion. exists d. split; [by eapply list_elem_of_lookup_2|].
      by eapply (proj1 (Forall_forall _ _) Hin).
    - by exists k. }
  rewrite Hy, result_bind_Ok. eexists. split; [done|].
  unfold CombinedDataset.corpus_counts, class_of, Dataset.n_instances. cbn.
  split_and!; [done|done|apply names_length| |].
  - intros j d i Hd Hi.
    destruct (Forall2_lookup_l _ _ _ _ _ Hnss Hd) as (ns & Hns & Hlen & Hcls & _).
    pose proof (proj1 (Forall_lookup _ _) Hwf j d Hd) as ((_ & Hyl & _) & _ & _).
    unfold Dataset.n_instances in Hyl.
    destruct (lookup_lt_is_Some_2 ns i) as [c Hc]; [lia|].
    exists c. split; [by rewrite <-Hc, (Hcls i)|].
    assert (mjoin nss !! (offset datasets j + i) = Some c) as Hoff.
    { unfold offset.
      replace ((λ d, Dataset.n_instances d) <$> take j datasets)
        with (length <$> take j nss).
      - by apply lookup_concat_offset with ns.
      - apply list_eq. intros k. rewrite !list_lookup_fmap, !lookup_take.
        destruct (decide (k < j)); [|done].
        destruct (datasets !! k) as [d'|] eqn:Hd'.
        + destruct (Forall2_lookup_l _ _ _ _ _ Hnss Hd')
            as (ns' & -> & Hlen' & _).
          pose proof (proj1 (Forall_lookup _ _) Hwf k d' Hd')
            as ((_ & Hyl' & _) & _ & _).
          simpl. f_equal. unfold Dataset.n_instances in *. lia.
        + apply lookup_ge_None in Hd'.
          rewrite (Forall2_length _ _ _ Hnss) in Hd'.
          by rewrite (lookup_ge_None_2 nss). }
    destruct (mapM_Ok_lookup _ _ _ _ _ Hy Hoff) as (k & -> & Hk%index_Ok).
    done.
  - replace ((λ d : LabelledDataset.t V, len (Dataset.x d)) <$> datasets)
      with ((λ d : LabelledDataset.t V, Dataset.n_instances d) <$> datasets).
    + apply bincount_repeat_arange, Forall_fmap.
      eapply Forall_impl; [exact Hwf|]. by intros d (_ & _ & ?).
    + apply Forall_fmap_ext_1.
      eapply Forall_impl; [exact Hwf|]. by intros d ((-> & _) & _ & _).
Qed.

End combined.

(** The merge example of the specification, by evaluation. *)
Lemma combined_AB_init :
  CombinedDataset.__init__ [Example.dataset_A; Example.dataset_B] None
  = Ok Example.combined_AB.
Proof. vm_compute. reflexivity. Qed.

Lemma combined_merge_example :
  LabelledDataset.classes Example.combined_AB = Example.merged_classes
  ∧ Dataset.n_instances Example.combined_AB = 5
  ∧ CombinedDataset.corpus_counts Example.combined_AB = [2; 3].
Proof. split_and!; reflexivity. Qed.

Lemma combined_merge_witness :
  [Example.dataset_A; Example.dataset_B] ≠ []
  ∧ Forall wf [Example.dataset_A; Example.dataset_B]
  ∧ stackable [Example.dataset_A; Example.dataset_B]
  ∧ ∃ cd,
      CombinedDataset.__init__ [Example.dataset_A; Example.dataset_B] None
      = Ok cd
      ∧ sorted_unique (LabelledDataset.classes cd)
      ∧ LabelledDataset.classes cd = Example.merged_classes
      ∧ Dataset.n_instances cd = 5
      ∧ CombinedDataset.corpus_counts cd = [2; 3].
Proof.
  assert (Forall wf [Example.dataset_A; Example.dataset_B]) as Hwf
    by (repeat constructor; solve_wf).
  assert (stackable [Example.dataset_A; Example.dataset_B]) as Hstack
    by (eexists; vm_compute; reflexivity).
  split_and!; [done|exact Hwf|exact Hstack|].
  destruct (combined_merge [Example.dataset_A; Example.dataset_B])
    as (cd & Hcd & Hsorted & _ & Hn & _ & Hcounts); [done|exact Hwf|exact Hstack|].
  exists cd. split_and!; [exact Hcd|exact Hsorted| |exact Hn|exact Hcounts].
  assert (CombinedDataset.__init__ [Example.dataset_A; Example.dataset_B] None
          = Ok Example.combined_AB) as Heval by (vm_compute; reflexivity).
  rewrite Heval in Hcd. by injection Hcd as <-.
Defined.

(** C5. [corpus_counts] loses the entry of a last source that has no
    row. The merge of B with an allow-list that keeps no instance is a
    labelled dataset without rows; merging A with it succeeds and has
    two corpora, but [corpus_counts] is [np.bincount(corpus_indices)]
    without [minlength] and has one entry only. *)
Theorem corpus_counts_shorter_than_corpora :
  ∃ nothing cd : CombinedDataset.t nat,
    CombinedDataset.__init__ [Example.dataset_B] ExtraExample.only_neutral
    = Ok nothing
    ∧ len (Dataset.x nothing) = 0
    ∧ CombinedDataset.__init__
        [Example.dataset_A; CombinedDataset.base nothing] None = Ok cd
    ∧ CombinedDataset.corpora cd = ["A"; "combined"]
    ∧ LabelledDataset.classes cd = ["happy"; "neutral"; "sad"]
    ∧ CombinedDataset.corpus_indices cd = [0; 0]
    ∧ CombinedDataset.corpus_counts cd = [2].
Proof.
  eexists _, _. split; [vm_compute; reflexivity|].
  split; [vm_compute; reflexivity|].
  split; [vm_compute; reflexivity|].
  split_and!; vm_compute; reflexivity.
Qed.

(** ** What the merge leaves in the object *)

Section combined_fields.
Context {V : Type}.
Implicit Types (d : LabelledDataset.t V) (datasets : list (LabelledDataset.t V)).
Implicit Types (cd : CombinedDataset.t V).

Lemma combined_init_fields datasets labels cd :
  CombinedDataset.__init__ datasets labels = Ok cd →
  CombinedDataset.corpora cd = (λ d, Dataset.corpus d) <$> datasets
  ∧ CombinedDataset.corpus_indices cd
    = np.repeat_arange ((λ d, len (Dataset.x d)) <$> datasets)
  ∧ Dataset.names cd
    = datasets ≫= (λ d, CombinedDataset.prefixed d <$> Dataset.names d)
  ∧ Dataset.speaker_group_indices cd = Dataset.speaker_indices cd.
Proof.
  unfold CombinedDataset.__init__. cbv zeta. intros H.
  apply bind_Ok in H as (d0 & _ & H).
  apply bind_Ok in H as (si & _ & H).
  apply bind_Ok in H as (sgi & _ & H).
  apply bind_Ok in H as (x & _ & H).
  apply bind_Ok in H as (str_labels & _ & H).
  apply bind_Ok in H as ([[[x' si'] classes'] str_labels'] & _ & H).
  apply bind_Ok in H as (y & _ & H).
  injection H as <-. done.
Qed.

Lemma combined_indices_aligned datasets labels cd :
  CombinedDataset.__init__ datasets labels = Ok cd →
  Forall (λ d, len (Dataset.x d) = Dataset.n_instances d) datasets →
  length (CombinedDataset.corpus_indices cd) = Dataset.n_instances cd.
Proof.
  intros (_ & -> & Hnames & _)%combined_init_fields Hlen.
  unfold Dataset.n_instances at 1. rewrite Hnames.
  rewrite repeat_arange_length, names_length. f_equal.
  by apply Forall_fmap_ext_1.
Qed.

(** On a merged dataset as its constructor leaves it, for a corpus [c]
    of its [corpora] list, [get_corpus_split(c)] returns the indices [i]
    with [corpus_indices[i] == k], where [k] is the first position of
    [c] in [corpora], and the other indices below [n_instances]: the two
    lists have no repetition, are disjoint and together cover
    [0 .. n_instances - 1]. *)
Theorem get_corpus_split_partition datasets labels cd corpus :
  CombinedDataset.__init__ datasets labels = Ok cd →
  Forall (λ d, len (Dataset.x d) = Dataset.n_instances d) datasets →
  corpus ∈ CombinedDataset.corpora cd →
  ∃ k corpus_idx other_idx,
    CombinedDataset.corpora cd !! k = Some corpus
    ∧ (∀ j, CombinedDataset.corpora cd !! j = Some corpus → k ≤ j)
    ∧ CombinedDataset.corpus_to_idx cd corpus = Ok k
    ∧ CombinedDataset.get_corpus_split corpus cd = Ok (corpus_idx, other_idx)
    ∧ (∀ i, i ∈ corpus_idx ↔ CombinedDataset.corpus_indices cd !! i = Some k)
    ∧ (∀ i, i ∈ other_idx ↔ i < Dataset.n_instances cd ∧ i ∉ corpus_idx)
    ∧ (∀ i, i < Dataset.n_instances cd → i ∈ corpus_idx ∨ i ∈ other_idx)
    ∧ (∀ i, i ∈ corpus_idx → i < Dataset.n_instances cd)
    ∧ NoDup corpus_idx ∧ NoDup other_idx.
Proof.
  intros Hinit Hlen Hin.
  pose proof (combined_indices_aligned _ _ _ Hinit Hlen) as Hn.
  destruct (index_elem_of _ _ Hin) as (k & Hk & Hat).
  pose proof (index_first _ _ _ Hk) as Hfirst.
  unfold CombinedDataset.get_corpus_split, CombinedDataset.corpus_to_idx.
  rewrite Hk, result_bind_Ok. cbv zeta.
  set (ci := CombinedDataset.corpus_indices cd) in *.
  assert (∀ i, i ∈ np.nonzero ((λ i, bool_decide (i = k)) <$> ci)
               ↔ ci !! i = Some k) as Hcorpus.
  { intros i. unfold np.nonzero. rewrite positions_spec. split.
    - intros (b & Hb & Htrue). rewrite list_lookup_fmap in Hb.
      destruct (ci !! i) as [v|]; [|done]. simpl in *.
      injection Hb as <-. by apply bool_decide_eq_true in Htrue as ->.
    - intros Hi. exists true. rewrite list_lookup_fmap, Hi. simpl.
      by rewrite bool_decide_eq_true_2. }
  assert (∀ i, i ∈ np.nonzero (negb <$> ((λ i, bool_decide (i = k)) <$> ci))
               ↔ i < length ci ∧ ci !! i ≠ Some k) as Hother.
  { intros i. unfold np.nonzero. rewrite positions_spec. split.
    - intros (b & Hb & Htrue). rewrite !list_lookup_fmap in Hb.
      destruct (ci !! i) as [v|] eqn:Hv; [|done]. simpl in *.
      injection Hb as <-. split; [by eapply lookup_lt_Some|].
      intros [= ->]. by rewrite bool_decide_eq_true_2 in Htrue.
    - intros [[v Hv]%lookup_lt_is_Some Hne].
      exists true. rewrite !list_lookup_fmap, Hv. simpl. split; [|done].
      rewrite bool_decide_eq_false_2; [done|]. by intros ->. }
  exists k. eexists _, _.
  split_and!; [exact Hat|exact Hfirst|done|done|exact Hcorpus| | | | |].
  - intros i. rewrite Hother, Hcorpus, Hn. done.
  - intros i Hi. rewrite Hother, Hcorpus, Hn.
    destruct (decide (ci !! i = Some k)); auto.
  - intros i Hi%Hcorpus. rewrite <-Hn. by eapply lookup_lt_Some.
  - apply positions_from_NoDup.
  - apply positions_from_NoDup.
Qed.

End combined_fields.

(** The corpus split example of the specification, by evaluation. *)
Lemma corpus_split_example :
  CombinedDataset.get_corpus_split "A" Example.combined_AB
  = Ok ([0; 1], [2; 3; 4]).
Proof. reflexivity. Qed.

Lemma get_corpus_split_partition_witness :
  ∃ k corpus_idx other_idx,
    CombinedDataset.corpora Example.combined_AB !! k = Some "A"
    ∧ (∀ j, CombinedDataset.corpora Example.combined_AB !! j = Some "A" → k ≤ j)
    ∧ CombinedDataset.corpus_to_idx Example.combined_AB "A" = Ok k
    ∧ CombinedDataset.get_corpus_split "A" Example.combined_AB
      = Ok (corpus_idx, other_idx)
    ∧ (∀ i, i ∈ corpus_idx
            ↔ CombinedDataset.corpus_indices Example.combined_AB !! i = Some k)
    ∧ (∀ i, i ∈ other_idx
            ↔ i < Dataset.n_instances Example.combined_AB ∧ i ∉ corpus_idx)
    ∧ (∀ i, i < Dataset.n_instances Example.combined_AB →
            i ∈ corpus_idx ∨ i ∈ other_idx)
    ∧ (∀ i, i ∈ corpus_idx → i < Dataset.n_instances Example.combined_AB)
    ∧ NoDup corpus_idx ∧ NoDup other_idx.
Proof.
  apply (get_corpus_split_partition
           [Example.dataset_A; Example.dataset_B] None).
  - vm_compute. reflexivity.
  - repeat constructor.
  - cbn. repeat constructor.
Defined.

(** C9. The corpus split goes stale when classes are removed.
    [remove_classes], which a merged dataset inherits, cuts the arrays of
    the instances but not [corpus_indices]: after
    [remove_classes(['sad'])] on the merge of A and B three instances
    remain, [corpus_indices] still has five entries, and the split of
    corpus B returns the indices 3 and 4, which no instance has, and
    leaves instance 1, which comes from B, among the others. *)
Theorem corpus_split_stale_after_remove_classes :
  ∃ cd : CombinedDataset.t nat,
    CombinedDataset.remove_classes ["sad"] Example.combined_AB = Ok cd
    ∧ Dataset.names cd = ["A_s2_001"; "B_t1_001"; "B_t3_002"]
    ∧ Dataset.n_instances cd = 3
    ∧ len (Dataset.x cd) = 3
    ∧ CombinedDataset.corpus_indices cd = [0; 0; 1; 1; 1]
    ∧ CombinedDataset.get_corpus_split "B" cd = Ok ([2; 3; 4], [0; 1]).
Proof.
  eexists. split; [vm_compute; reflexivity|].
  split_and!; vm_compute; reflexivity.
Qed.

(** ** Normalisation schemes *)

Section normalise_props.
Context {V T : Type} (fit_transform : T → array2 V → result (T * array2 V)).

Lemma combined_with_dataset_same (cd : CombinedDataset.t V) :
  CombinedDataset.with_dataset cd cd = cd.
Proof. destruct cd as [[[] ? ? ?] ? ?]. reflexivity. Qed.

(** C10. With a scheme other than 'all' and 'speaker', [normalise]
    raises nothing and returns the dataset (and the transformer) as they
    were; so does the override of the merged dataset when the scheme is
    not 'corpus' either. *)
Theorem normalise_unknown_scheme (normaliser : T) (scheme : string) :
  scheme ≠ "all" → scheme ≠ "speaker" →
  (∀ d : Dataset.t V,
     Dataset.normalise fit_transform normaliser scheme d = Ok (normaliser, d))
  ∧ (scheme ≠ "corpus" →
     ∀ cd : CombinedDataset.t V,
       CombinedDataset.normalise fit_transform normaliser scheme cd
       = Ok (normaliser, cd)).
Proof.
  intros Hall Hspeaker.
  assert (∀ d : Dataset.t V,
            Dataset.normalise fit_transform normaliser scheme d
            = Ok (normaliser, d)) as Hbase.
  { intros d. unfold Dataset.normalise. by rewrite !decide_False. }
  split; [exact Hbase|].
  intros Hcorpus cd. unfold CombinedDataset.normalise.
  rewrite decide_False by done. rewrite Hbase, result_bind_Ok.
  by rewrite combined_with_dataset_same.
Qed.

End normalise_props.

Lemma normalise_unknown_scheme_witness :
  Example.unknown_scheme ≠ "all" ∧ Example.unknown_scheme ≠ "speaker"
  ∧ Example.unknown_scheme ≠ "corpus"
  ∧ Dataset.normalise Example.failing_transform () Example.unknown_scheme
      Example.dataset_A
    = Ok ((), LabelledDataset.base Example.dataset_A)
  ∧ CombinedDataset.normalise Example.failing_transform ()
      Example.unknown_scheme Example.combined_AB
    = Ok ((), Example.combined_AB).
Proof.
  assert (Example.unknown_scheme ≠ "all") as H1 by done.
  assert (Example.unknown_scheme ≠ "speaker") as H2 by done.
  assert (Example.unknown_scheme ≠ "corpus") as H3 by done.
  destruct (normalise_unknown_scheme Example.failing_transform ()
              Example.unknown_scheme H1 H2) as [Hd Hcd].
  split_and!; [done|done|done|apply Hd|by apply Hcd].
Defined.

(** ** Construction errors *)

Lemma index_Ok_or_ValueError (l : list string) (c : string) :
  is_Ok (py.index l c) ∨ py.index l c = Raise ValueError.
Proof.
  destruct (decide (c ∈ l)) as [Hin|Hin].
  - left. destruct (index_elem_of l c Hin) as (i & ? & _). by exists i.
  - right. by apply index_not_elem_of.
Qed.

Lemma mapM_index_not_elem_of (classes labels : list string) (l : string) :
  l ∈ labels → l ∉ classes →
  mapM (py.index classes) labels = Raise ValueError.
Proof.
  intros Hin Hnot. induction Hin as [l labels|l l' labels _ IH]; simpl.
  - by rewrite (index_not_elem_of classes l).
  - destruct (index_Ok_or_ValueError classes l') as [[i ->]| ->]; [|done].
    simpl. by rewrite IH.
Qed.

Section construction.
Context {V : Type}.
Context (corpora : gmap string Corpus.t).
Context (open_netcdf : Path.t → result (netCDF4.Dataset V)).
Context (RawAudioBackend ARFFBackend : Path.t → result (Backend.t V)).

Implicit Types (path p : Path.t).

Lemma open_backend_unrecognised path :
  unrecognised_suffix path →
  Dataset.open_backend open_netcdf RawAudioBackend ARFFBackend path
  = Raise NotImplementedError.
Proof.
  intros (Hnc & Htxt & s0 & Hs0 & Harff). unfold Dataset.open_backend.
  rewrite !decide_False by done.
  assert (py.getitem (Path.suffixes path) 0 = Ok s0) as ->
    by by apply getitem_Ok.
  rewrite result_bind_Ok. by rewrite decide_False.
Qed.

Lemma open_backend_no_corpus path dataset :
  Path.suffix path = ".nc" → open_netcdf path = Ok dataset →
  netCDF4.corpus dataset = None →
  Dataset.open_backend open_netcdf RawAudioBackend ARFFBackend path
  = Raise AttributeError.
Proof.
  intros Hnc Hopen Hcorpus. unfold Dataset.open_backend.
  rewrite decide_True by done. rewrite Hopen, result_bind_Ok.
  unfold NetCDFBackend. by rewrite Hcorpus.
Qed.

(** C8 (amended). Construction fails, and returns no dataset:
    - with [NotImplementedError] when the suffix of the path selects no
      backend (the path has a suffix, its last suffix is neither .nc nor
      .txt and its first suffix is not .arff);
    - with [AttributeError] when the netCDF container has no corpus
      attribute;
    - with [NotImplementedError] when the lower-cased corpus name of
      the backend is not a key of the corpora lookup;
    - with [ValueError] when a label of the backend is not a class of
      the corpus. *)
Theorem construction_errors (p1 p2 p3 p4 : Path.t) :
  (unrecognised_suffix p1 →
     LabelledDataset.__init__ corpora open_netcdf RawAudioBackend ARFFBackend p1
     = Raise NotImplementedError)
  ∧ (Path.suffix p2 = ".nc" →
     ∀ dataset, open_netcdf p2 = Ok dataset →
       netCDF4.corpus dataset = None →
       LabelledDataset.__init__ corpora open_netcdf RawAudioBackend ARFFBackend p2
       = Raise AttributeError)
  ∧ (∀ backend,
       Dataset.open_backend open_netcdf RawAudioBackend ARFFBackend p3
       = Ok backend →
       corpora !! py.lower (Backend.corpus backend) = None →
       LabelledDataset.__init__ corpora open_netcdf RawAudioBackend ARFFBackend p3
       = Raise NotImplementedError)
  ∧ (∀ d backend info labels l,
       Dataset.__init__ corpora open_netcdf RawAudioBackend ARFFBackend p4
       = Ok d →
       Dataset.backend d = Some backend →
       corpora !! py.lower (Dataset.corpus d) = Some info →
       Backend.labels backend = Some labels →
       l ∈ labels → l ∉ (Corpus.emotion_map info).*2 →
       LabelledDataset.__init__ corpora open_netcdf RawAudioBackend ARFFBackend p4
       = Raise ValueError).
Proof.
  split_and!.
  - intros H%open_backend_unrecognised.
    unfold LabelledDataset.__init__, Dataset.__init__. by rewrite H.
  - intros Hnc dataset Hopen Hcorpus.
    unfold LabelledDataset.__init__, Dataset.__init__.
    by rewrite (open_backend_no_corpus p2 dataset).
  - intros backend Hopen Hcorpus.
    unfold LabelledDataset.__init__, Dataset.__init__.
    rewrite Hopen, result_bind_Ok. by rewrite Hcorpus.
  - intros d backend info labels l Hd Hb Hinfo Hlabels Hin Hnot.
    unfold LabelledDataset.__init__.
    rewrite Hd, result_bind_Ok, Hinfo, result_bind_Ok.
    rewrite Hb. cbn [getattr]. rewrite result_bind_Ok, Hlabels, result_bind_Ok.
    unfold LabelledDataset.class_to_int.
    by rewrite (mapM_index_not_elem_of _ labels l).
Qed.

End construction.

Lemma construction_errors_witness :
  Example.load (Example.path "A" ".csv") = Raise NotImplementedError
  ∧ Example.load (Example.path "anonymous" ".nc") = Raise AttributeError
  ∧ Example.load (Example.path "C" ".nc") = Raise NotImplementedError
  ∧ Example.load (Example.path "A_bored" ".nc") = Raise ValueError.
Proof.
  destruct (construction_errors Example.corpora Example.open_netcdf
              Example.no_backend Example.no_backend
              (Example.path "A" ".csv") (Example.path "anonymous" ".nc")
              (Example.path "C" ".nc") (Example.path "A_bored" ".nc"))
    as (H1 & H2 & H3 & H4).
  split_and!.
  - apply H1. split_and!; [done|done|]. by exists ".csv".
  - apply (H2 eq_refl Example.file_anonymous); reflexivity.
  - assert (∃ b, Dataset.open_backend Example.open_netcdf Example.no_backend
                   Example.no_backend (Example.path "C" ".nc") = Ok b
                 ∧ Example.corpora !! py.lower (Backend.corpus b) = None)
      as (b & Hb & Hnone)
      by (eexists; split; [vm_compute; reflexivity|vm_compute; reflexivity]).
    by apply (H3 b).
  - assert (∃ d b,
              Dataset.__init__ Example.corpora Example.open_netcdf
                Example.no_backend Example.no_backend
                (Example.path "A_bored" ".nc") = Ok d
              ∧ Dataset.backend d = Some b
              ∧ Example.corpora !! py.lower (Dataset.corpus d)
                = Some Example.corpus_A
              ∧ Backend.labels b = Some ["bored"])
      as (d & b & Hd & Hb & Hinfo & Hlabels)
      by (eexists _, _; split_and!; vm_compute; reflexivity).
    apply (H4 d b Example.corpus_A ["bored"] "bored"); try done.
    + apply list_elem_of_here.
    + cbn. intros Hin. repeat (apply elem_of_cons in Hin as [Hin|Hin]; [done|]).
      by apply elem_of_nil in Hin.
Defined.

(** On the example environment the four failures are reported by three
    exception classes only. *)
Lemma example_construction_errors :
  Example.load (Example.path "A" ".csv") = Raise NotImplementedError
  ∧ Example.load (Example.path "anonymous" ".nc") = Raise AttributeError
  ∧ Example.load (Example.path "C" ".nc") = Raise NotImplementedError
  ∧ Example.load (Example.path "A_bored" ".nc") = Raise ValueError.
Proof. split_and!; vm_compute; reflexivity. Qed.

Lemma error_taxonomy_as_stated_fails :
  ¬ ∃ classify, error_taxonomy_as_stated classify.
Proof.
  destruct example_construction_errors as (Hcsv & _ & Hc & _).
  intros (classify & (e1 & He1 & Hfmt) & _ & (e3 & He3 & Hcorpus) & _).
  rewrite Hcsv in He1. rewrite Hc in He3.
  injection He1 as <-. injection He3 as <-. congruence.
Qed.

(** ** The invariant of labelled datasets *)

Lemma positions_from_length_filter {A} (P : A → Prop) `{∀ a, Decision (P a)}
    off (l : list A) :
  length (py.positions_from (λ a, bool_decide (P a)) off l)
  = length (filter P l).
Proof.
  revert off. induction l as [|a l IH]; intros off; [done|].
  simpl. rewrite filter_cons.
  destruct (decide (P a)).
  - rewrite bool_decide_eq_true_2 by done. simpl. by rewrite IH.
  - rewrite bool_decide_eq_false_2 by done. apply IH.
Qed.

Lemma bincount_of_list_Ok (l cc : list nat) :
  np.bincount_of_list l = Ok cc → l ≠ [].
Proof. by destruct l. Qed.

Section invariant.
Context {V : Type}.
Implicit Types (d : LabelledDataset.t V).

Lemma x_take_len (x x' : ndarray V) idx :
  x_take x idx = Ok x' → len x' = length idx.
Proof.
  destruct x; simpl; try done;
    intros (k & Hk%take_idx_length & ->)%fmap_Ok; done.
Qed.

Lemma mapM_index_in_range (classes l : list string) (y : list nat) :
  mapM (py.index classes) l = Ok y → Forall (λ c, c < length classes) y.
Proof.
  intros Hy. apply Forall_lookup. intros i c Hc.
  destruct (mapM_Ok_lookup_r _ _ _ _ _ Hy Hc) as (a & _ & Ha).
  by eapply index_lt.
Qed.

(** After [remove_classes(keep)] the dataset is well formed again, and
    every instance left has a class of [keep]. *)
Lemma remove_classes_spec keep d d' :
  LabelledDataset.remove_classes keep d = Ok d' →
  wf d'
  ∧ (∀ i, i < Dataset.n_instances d' →
       ∃ c, class_of d' i = Some c ∧ c ∈ keep)
  ∧ Dataset.speaker_group_indices d' = Dataset.speaker_indices d'.
Proof.
  unfold LabelledDataset.remove_classes. cbv zeta. intros H.
  apply bind_Ok in H as (str_labels & Hstr & H).
  apply bind_Ok in H as (x' & Hx' & H).
  apply bind_Ok in H as (names' & Hnames' & H).
  apply bind_Ok in H as (si' & Hsi' & H).
  apply bind_Ok in H as (y' & Hy' & H).
  apply bind_Ok in H as (cc & Hcc%bincount_of_list_Ok & H).
  injection H as <-.
  apply x_take_len in Hx'. apply mapM_Ok_length in Hnames'.
  apply take_idx_length in Hsi'.
  pose proof (mapM_Ok_length _ _ _ Hy') as Hy'len.
  unfold py.positions in *.
  rewrite (positions_from_length_filter (λ c, c ∈ (list_to_set keep : gset string)))
    in Hx', Hnames', Hsi'.
  assert (0 < length y') by (destruct y'; [done|simpl; lia]).
  unfold wf, aligned, labels_in_range, class_of, Dataset.n_instances. cbn.
  split_and!; try lia; [by eapply mapM_index_in_range| |done].
  intros i Hi.
  destruct (lookup_lt_is_Some_2 y' i) as [k Hk]; [lia|].
  destruct (mapM_Ok_lookup_r _ _ _ _ _ Hy' Hk) as (c & Hc & Hidx%index_Ok).
  exists c. rewrite Hk. simpl. split; [done|].
  apply list_elem_of_lookup_2, list_elem_of_filter in Hc as [Hc _].
  by apply elem_of_list_to_set in Hc.
Qed.

(** [remove_classes(keep)] returns as soon as one instance is kept (and
    [x] is still an array). *)
Lemma remove_classes_total keep d :
  wf d → (∀ items, Dataset.x d ≠ ArrList items) →
  (∃ i c, class_of d i = Some c ∧ c ∈ keep) →
  is_Ok (LabelledDataset.remove_classes keep d).
Proof.
  intros ((Hx & Hy & Hsi & Hsgi) & Hrange & Hpos) Harr (i0 & c0 & Hc0 & Hkeep).
  unfold LabelledDataset.remove_classes. cbv zeta.
  destruct (str_labels_Ok d Hrange) as (str_labels & -> & Hlen & Hcls & Hin).
  rewrite result_bind_Ok.
  set (keep_idx := py.positions _ str_labels).
  assert (Forall (λ i, i < Dataset.n_instances d) keep_idx) as Hidx.
  { apply Forall_forall. intros i (c & Hc%lookup_lt_Some & _)%positions_spec.
    lia. }
  assert (∀ {A} (l : list A), length l = Dataset.n_instances d →
            is_Ok (np.take_idx l keep_idx)) as Htake.
  { intros A l Hl. apply mapM_total.
    eapply Forall_impl; [exact Hidx|]. intros i Hi. simpl in Hi.
    apply getitem_lt. lia. }
  assert (∃ x', x_take (Dataset.x d) keep_idx = Ok x') as [x' ->].
  { destruct (Dataset.x d) as [rows|items|items|items] eqn:Hxd; simpl in *.
    - destruct (Htake _ rows Hx) as [k ->]. by eexists.
    - destruct (Htake _ items Hx) as [k ->]. by eexists.
    - destruct (Htake _ items Hx) as [k ->]. by eexists.
    - by destruct (Harr items). }
  rewrite result_bind_Ok.
  destruct (Htake _ (Dataset.names d) eq_refl) as [names' Hnames'].
  unfold np.take_idx in Hnames'. rewrite Hnames', result_bind_Ok.
  destruct (Htake _ (Dataset.speaker_indices d) Hsi) as [si' ->].
  rewrite result_bind_Ok.
  set (kept := filter _ str_labels).
  set (classes' := py.sorted _).
  destruct (mapM_total (py.index classes') kept) as [y' Hy'].
  { apply Forall_forall. intros c [Hck Hc]%list_elem_of_filter.
    destruct (index_elem_of classes' c) as (k & Hk & _); [|by exists k].
    apply sorted_spec. apply elem_of_intersection. split; [done|].
    apply elem_of_list_to_set. by eapply (proj1 (Forall_forall _ _) Hin). }
  rewrite Hy', result_bind_Ok.
  assert (y' ≠ []) as Hne.
  { intros ->. apply mapM_Ok_length in Hy'. simpl in Hy'.
    assert (c0 ∈ kept) as Hc0k.
    { apply list_elem_of_filter. split; [by apply elem_of_list_to_set|].
      apply list_elem_of_lookup. exists i0. by rewrite Hcls. }
    destruct kept; [by apply elem_of_nil in Hc0k|done]. }
  destruct y' as [|v y']; [done|]. by eexists.
Qed.

Lemma map_classes_wf m d d' :
  wf d → LabelledDataset.map_classes m d = Ok d' → wf d'.
Proof.
  intros ((Hx & Hy & Hsi & Hsgi) & Hrange & Hpos).
  unfold LabelledDataset.map_classes. cbv zeta. intros H.
  apply bind_Ok in H as (arr_map & Harr & H).
  apply bind_Ok in H as (y' & Hy' & H).
  apply bind_Ok in H as (cc & _ & H).
  injection H as <-.
  assert (np.take_idx arr_map (LabelledDataset.y d) = Ok y') as Htake.
  { unfold np.take_by_array in Hy'. by destruct (LabelledDataset.y d). }
  pose proof (take_idx_length _ _ _ Htake) as Hlen.
  unfold wf, aligned, labels_in_range, Dataset.n_instances in *. cbn.
  split_and!; try done; try lia.
  apply Forall_lookup. intros i c Hc.
  destruct (mapM_Ok_lookup_r _ _ _ _ _ Htake Hc) as (k & _ & Hk%getitem_Ok).
  destruct (mapM_Ok_lookup_r _ _ _ _ _ Harr Hk) as (a & _ & Ha).
  by eapply index_lt.
Qed.

Section init.
Context (corpora : gmap string Corpus.t).
Context (open_netcdf : Path.t → result (netCDF4.Dataset V)).
Context (RawAudioBackend ARFFBackend : Path.t → result (Backend.t V)).

(** A dataset built from a backend whose arrays agree on the number of
    instances is well formed. *)
Lemma labelled_init_wf path d :
  LabelledDataset.__init__ corpora open_netcdf RawAudioBackend ARFFBackend path
  = Ok d →
  (∀ b, Dataset.backend d = Some b → consistent_backend b) →
  wf d.
Proof.
  unfold LabelledDataset.__init__, Dataset.__init__. cbv zeta. intros H.
  apply bind_Ok in H as (super & Hsuper & H).
  apply bind_Ok in Hsuper as (backend & _ & Hsuper).
  destruct (corpora !! py.lower (Backend.corpus backend)) as [info0|];
    [|done].
  apply bind_Ok in Hsuper as (si & Hsi%mapM_Ok_length & Hsuper).
  apply bind_Ok in Hsuper as (sgi & Hsgi%take_idx_length & Hsuper).
  injection Hsuper as <-. cbn in H.
  apply bind_Ok in H as (info & _ & H).
  destruct (Backend.labels backend) as [labels|] eqn:Hlabels; [|done].
  rewrite result_bind_Ok in H.
  apply bind_Ok in H as (y & Hy & H).
  apply bind_Ok in H as (cc & Hcc%bincount_of_list_Ok & H).
  injection H as <-. cbn. intros Hb.
  destruct (Hb backend eq_refl) as [Hx Hl]. specialize (Hl labels Hlabels).
  pose proof (mapM_Ok_length _ _ _ Hy) as Hylen.
  assert (0 < length y) by (destruct y; [done|simpl; lia]).
  unfold wf, aligned, labels_in_range, Dataset.n_instances. cbn.
  split_and!; try lia. by eapply mapM_index_in_range.
Qed.

End init.
End invariant.

(** ** Where the code departs from the specification *)

(** C1. With an allow-list the merge re-slices [x], [speaker_indices]
    and [y] but neither [names] nor [corpus_indices]: on the example,
    keeping the sad instances leaves three rows for five names. *)
Lemma combined_allow_list_misaligned :
  CombinedDataset.__init__ [Example.dataset_A; Example.dataset_B]
    Example.only_sad = Ok Example.combined_sad
  ∧ len (Dataset.x Example.combined_sad) = 3
  ∧ length (LabelledDataset.y Example.combined_sad) = 3
  ∧ length (Dataset.speaker_indices Example.combined_sad) = 3
  ∧ length (Dataset.names Example.combined_sad) = 5
  ∧ length (CombinedDataset.corpus_indices Example.combined_sad) = 5.
Proof. split_and!; vm_compute; reflexivity. Qed.

(** C6. [class_counts] is [np.bincount(y)] without [minlength]: when
    the last class of the taxonomy has no instance it is shorter than
    [classes]. *)
Lemma class_counts_shorter_than_classes :
  ∃ d, Example.load (Example.path "A_happy" ".nc") = Ok d
    ∧ length (LabelledDataset.classes d) = 2
    ∧ LabelledDataset.y d = [0; 0]
    ∧ LabelledDataset.class_counts d = Some [2].
Proof. eexists. split_and!; vm_compute; reflexivity. Qed.

(** C7. [remove_classes] and the merge both end by overwriting
    [speaker_group_indices] with [speaker_indices]: on corpus B, whose
    speakers t1, t2, t3 form the groups {t1} and {t2, t3}, keeping every
    class turns the group indices [0; 1; 1] into [0; 2; 2], and the
    merge of A and B yields group indices up to 4 for 3 groups. *)
Lemma speaker_group_indices_overwritten :
  (∃ d', LabelledDataset.remove_classes Example.keep_all Example.dataset_B
         = Ok d'
     ∧ Dataset.n_instances d' = Dataset.n_instances Example.dataset_B
     ∧ Dataset.speaker_groups d' = Dataset.speaker_groups Example.dataset_B
     ∧ Dataset.speaker_group_indices Example.dataset_B = [0; 1; 1]
     ∧ Dataset.speaker_group_indices d' = [0; 2; 2]
     ∧ length (Dataset.speaker_groups d') = 2)
  ∧ CombinedDataset.__init__ [Example.dataset_A; Example.dataset_B] None
    = Ok Example.combined_AB
  ∧ Dataset.speaker_group_indices Example.combined_AB = [0; 1; 2; 4; 4]
  ∧ length (Dataset.speaker_groups Example.combined_AB) = 3.
Proof.
  split_and!; [eexists; split_and!|..]; vm_compute; reflexivity.
Qed.

(** * Further properties of the module *)

(** ** The reshaper on arbitrary length vectors *)

Section split_facts.
Context {A : Type}.
Implicit Types (l : list A).

Lemma slice_to_end l p : py.slice p (length l) l = drop p l.
Proof.
  unfold py.slice. apply take_ge. rewrite length_drop. lia.
Qed.

Lemma slice_then_rest l p q : p ≤ q → py.slice p q l ++ drop q l = drop p l.
Proof.
  intros Hpq. unfold py.slice.
  replace (drop q l) with (drop (q - p) (drop p l)).
  - apply take_drop.
  - rewrite drop_drop. f_equal. lia.
Qed.

Lemma slice_app l p q r :
  p ≤ q → q ≤ r → py.slice p q l ++ py.slice q r l = py.slice p r l.
Proof.
  intros Hpq Hqr. unfold py.slice.
  replace (drop q l) with (drop (q - p) (drop p l))
    by (rewrite drop_drop; f_equal; lia).
  replace (r - p) with ((q - p) + (r - q)) by lia.
  by rewrite take_take_drop.
Qed.

(** Cutting at non-decreasing points and closing with the length keeps
    every element once. *)
Lemma sub_arys_sorted_concat l p pts :
  Sorted Nat.le (p :: pts) →
  concat (np.sub_arys l (p :: pts ++ [length l])) = drop p l.
Proof.
  revert p. induction pts as [|q pts IH]; intros p Hsorted.
  - simpl. rewrite app_nil_r. apply slice_to_end.
  - apply Sorted_inv in Hsorted as [Hsorted Hhd].
    apply HdRel_inv in Hhd.
    change (concat (py.slice p q l :: np.sub_arys l (q :: pts ++ [length l]))
            = drop p l).
    cbn [concat]. rewrite IH by done. by apply slice_then_rest.
Qed.

Lemma sub_arys_length l (pts : list nat) :
  length (np.sub_arys l pts) = length pts - 1.
Proof.
  induction pts as [|p pts IH]; [done|].
  destruct pts as [|q pts]; [done|].
  change (S (length (np.sub_arys l (q :: pts))) = length (p :: q :: pts) - 1).
  rewrite IH. simpl. lia.
Qed.

End split_facts.

Lemma cumsum_from_take acc (lens : list nat) k :
  take k (np.cumsum_from acc lens) = np.cumsum_from acc (take k lens).
Proof.
  revert acc k. induction lens as [|n lens IH]; intros acc [|k]; simpl; try done.
  by rewrite IH.
Qed.

Lemma cumsum_from_length acc (lens : list nat) :
  length (np.cumsum_from acc lens) = length lens.
Proof. revert acc. induction lens; intros; simpl; auto. Qed.

Lemma init_cumsum (lens : list nat) :
  py.init (np.cumsum lens) = np.cumsum (py.init lens).
Proof.
  unfold py.init, np.cumsum.
  by rewrite cumsum_from_length, cumsum_from_take.
Qed.

Lemma cumsum_from_sorted acc (lens : list nat) :
  Sorted Nat.le (acc :: np.cumsum_from acc lens).
Proof.
  revert acc. induction lens as [|n lens IH]; intros acc; simpl.
  - repeat constructor.
  - constructor; [apply IH|]. constructor. lia.
Qed.

Section unflatten.
Context {V : Type}.
Implicit Types (flat : array2 V) (slices : list nat).


(** X2. [_make_ragged] returns [max(1, len(slices))] items and never
    reads the last length: two length vectors that differ in their last
    entry only give the same split. *)
Theorem make_ragged_last_length_unused flat slices (a b : nat) :
  length (_make_ragged flat slices) = 1 `max` length slices
  ∧ _make_ragged flat (slices ++ [a]) = _make_ragged flat (slices ++ [b]).
Proof.
  split.
  - unfold _make_ragged, np.split.
    rewrite (sub_arys_length (A:=list V) flat).
    cbn [length]. rewrite length_app, init_cumsum. unfold np.cumsum.
    rewrite cumsum_from_length. unfold py.init.
    rewrite length_take. simpl. lia.
  - unfold _make_ragged. rewrite !init_cumsum. unfold py.init.
    rewrite !length_app. simpl.
    replace (length slices + 1 - 1) with (length slices) by lia.
    by rewrite !take_app_length.
Qed.

End unflatten.

(** ** Reshaping, then flattening *)

Section reshape_flatten.
Context {V : Type}.
Implicit Types (x : array2 V) (slices : list nat) (items : list (array2 V)).

Lemma chunks_concat x t k m :
  concat ((λ i, py.slice (i * t) (i * t + t) x) <$> seq k m)
  = py.slice (k * t) ((k + m) * t) x.
Proof.
  revert k. induction m as [|m IH]; intros k.
  - simpl. unfold py.slice. rewrite Nat.add_0_r, Nat.sub_diag. done.
  - cbn [seq fmap list_fmap concat].
    change (list_fmap nat (array2 V) ?f ?l) with (f <$> l).
    rewrite IH. replace (k * t + t) with (S k * t) by lia.
    rewrite (slice_app (A:=list V) x) by nia. f_equal. nia.
Qed.

Lemma sub_arys_buffer f x (pts : list nat) :
  buffer f x → Forall (buffer f) (np.sub_arys x pts).
Proof.
  intros Hx. induction pts as [|p pts IH]; [constructor|].
  destruct pts as [|q pts]; [constructor|].
  change (Forall (buffer f) (py.slice p q x :: np.sub_arys x (q :: pts))).
  constructor; [by apply slice_buffer|exact IH].
Qed.

Lemma make_flat_buffers f items :
  items ≠ [] → Forall (buffer f) items →
  _make_flat items = Ok (concat items, length <$> items).
Proof.
  intros Hne Hbuf. unfold _make_flat, concatenate, np.concatenate_with.
  destruct items as [|a items]; [done|].
  apply Forall_cons_1 in Hbuf as [Ha Hbuf].
  by rewrite (concat_from_buffers f).
Qed.

Lemma all_equal_replicate (L : nat) (l : list nat) :
  Forall (λ s, s = L) l → l = replicate (length l) L.
Proof. induction 1 as [|s l -> _ IH]; simpl; [done|]. by rewrite <-IH. Qed.

(** X3. For a buffer [x] of width [f] and a length vector with entries
    of at least 1 that sum to [len(x)] and are not one per row, the
    reshaper returns a 3-D or a ragged array whose items flatten back to
    [x] and to the same length vector. *)
Theorem reshape_then_flatten x slices f :
  buffer f x → Forall (λ s, 1 ≤ s) slices → sum_list slices = length x →
  length x ≠ length slices →
  ∃ items,
    (_reshape_data_array x slices = Ok (Arr3 items)
     ∨ _reshape_data_array x slices = Ok (ArrObj items))
    ∧ _make_flat items = Ok (x, slices).
Proof.
  intros Hx Hpos Hsum Hne. unfold _reshape_data_array.
  rewrite decide_False by done.
  destruct slices as [|s0 slices'] eqn:Hs; [simpl in *; lia|].
  rewrite <-Hs in *.
  assert (0 < length slices) by (rewrite Hs; simpl; lia).
  assert (py.getitem slices 0 = Ok s0) as -> by (by rewrite Hs).
  rewrite result_bind_Ok.
  destruct (forallb (λ s, s =? s0) slices) eqn:Hall.
  - apply forallb_eqb_true in Hall.
    pose proof (sum_list_all_equal s0 slices Hall) as Hmul.
    assert (length x = length slices * s0) as Hlen by lia.
    assert (1 ≤ s0)
      by (rewrite Hs in Hpos; by apply Forall_cons_1 in Hpos as [? _]).
    rewrite decide_True by (rewrite Hlen, Nat.mul_comm; apply Nat.Div0.mod_mul).
    destruct (getitem_lt x 0) as [x0 ->]; [nia|].
    rewrite result_bind_Ok.
    replace (length x `div` length slices) with s0
      by (rewrite Hlen, Nat.mul_comm; symmetry; apply Nat.div_mul; lia).
    unfold reshape3. rewrite decide_True by lia. rewrite result_fmap_Ok.
    eexists. split; [by left|].
    rewrite (make_flat_buffers f).
    + rewrite chunks_concat. f_equal. f_equal.
      * unfold py.slice. simpl. rewrite Nat.sub_0_r. apply take_ge. lia.
      * rewrite (all_equal_replicate s0 slices Hall) at 2.
        apply list_eq. intros i. rewrite !list_lookup_fmap.
        destruct (decide (i < length slices)) as [Hi|Hi].
        -- rewrite lookup_seq_lt, lookup_replicate_2 by done. simpl.
           f_equal. apply slice_length. nia.
        -- rewrite lookup_seq_ge by lia. symmetry.
           apply lookup_replicate_None. lia.
    + destruct (length slices); [lia|done].
    + apply Forall_fmap, Forall_forall. intros i _. by apply slice_buffer.
  - eexists. split; [by right|].
    unfold np.split.
    rewrite (init_cumsum_total slices (length x)); [|by rewrite Hs|done].
    rewrite (make_flat_buffers f).
    + f_equal. f_equal.
      * pose proof (sub_arys_sorted_concat x 0 (py.init (np.cumsum slices)))
          as Hcat.
        rewrite (init_cumsum_total slices (length x)) in Hcat;
          [|by rewrite Hs|done].
        apply Hcat. rewrite init_cumsum. apply cumsum_from_sorted.
      * apply sub_arys_lengths. lia.
    + rewrite Hs. done.
    + by apply sub_arys_buffer.
Qed.

End reshape_flatten.

Lemma reshape_then_flatten_witness :
  ∃ items,
    (_reshape_data_array [[1]; [2]; [3]] [1; 2] = Ok (Arr3 items)
     ∨ _reshape_data_array [[1]; [2]; [3]] [1; 2] = Ok (ArrObj items))
    ∧ _make_flat items = Ok ([[1]; [2]; [3]], [1; 2]).
Proof.
  apply (reshape_then_flatten [[1]; [2]; [3]] [1; 2] 1).
  - by repeat constructor.
  - repeat constructor; lia.
  - reflexivity.
  - simpl. lia.
Defined.

(** ** The netCDF backend *)

Section netcdf.
Context {V : Type}.
Implicit Types (x : array2 V) (slices : list nat).



End netcdf.


(** ** Counting with [np.bincount] *)

Lemma bincount_bound minlength (a : list nat) :
  Forall (λ v, v < minlength) a →
  foldr (λ v acc, S v `max` acc) minlength a = minlength.
Proof. induction 1 as [|v a Hv _ IH]; simpl; [done|]. rewrite IH. lia. Qed.

Lemma bincount_length minlength (a : list nat) :
  Forall (λ v, v < minlength) a →
  length (np.bincount a minlength) = minlength.
Proof.
  intros Ha. unfold np.bincount.
  by rewrite length_fmap, length_seq, bincount_bound.
Qed.

Lemma bincount_lookup minlength (a : list nat) k :
  Forall (λ v, v < minlength) a → k < minlength →
  np.bincount a minlength !! k = Some (count_of k a).
Proof.
  intros Ha Hk. unfold np.bincount.
  rewrite bincount_bound by done.
  by rewrite list_lookup_fmap, lookup_seq_lt.
Qed.

Lemma count_below_step (a : list nat) m :
  length (filter (λ v, v < m) a) + length (filter (λ v, v = m) a)
  = length (filter (λ v, v < S m) a).
Proof.
  induction a as [|v a IH]; [done|].
  rewrite !filter_cons.
  destruct (decide (v < m)), (decide (v = m)), (decide (v < S m));
    simpl; lia.
Qed.

Lemma sum_counts_below (a : list nat) m :
  sum_list ((λ k, length (filter (λ v, v = k) a)) <$> seq 0 m)
  = length (filter (λ v, v < m) a).
Proof.
  induction m as [|m IH].
  - simpl. induction a as [|v a IHa]; [done|].
    rewrite filter_cons. destruct (decide (v < 0)); [lia|done].
  - rewrite seq_S, fmap_app, sum_list_with_app, IH. simpl.
    rewrite Nat.add_0_r. apply count_below_step.
Qed.

Lemma bincount_sum minlength (a : list nat) :
  Forall (λ v, v < minlength) a →
  sum_list (np.bincount a minlength) = length a.
Proof.
  intros Ha. unfold np.bincount. rewrite bincount_bound by done.
  rewrite sum_counts_below. f_equal.
  induction Ha as [|v a Hv _ IH]; [done|].
  rewrite filter_cons_True by done. by rewrite IH.
Qed.

(** ** What [Dataset.__init__] derives *)

Lemma bind_positions_lookup {A} (F : A → list nat) (l : list A) k a :
  (∀ b, b ∈ l → ∃ g, F b = [g]) →
  l !! k = Some a → (l ≫= F) !! k = head (F a).
Proof.
  revert k. induction l as [|b l IH]; intros k Hone Hk; [done|].
  destruct (Hone b) as [g Hg]; [by left|].
  cbn [mbind list_bind]. rewrite Hg. destruct k as [|k]; simpl in *.
  - injection Hk as <-. by rewrite Hg.
  - apply IH; [|done]. intros b' Hb'. apply Hone. by right.
Qed.

Lemma mapM_index_unknown {A} (l : list string) (g : A → string)
    (names : list A) (name : A) :
  name ∈ names → g name ∉ l →
  mapM (λ n, py.index l (g n)) names = Raise ValueError.
Proof.
  intros Hin Hnot. induction Hin as [name names|name n' names _ IH]; simpl.
  - by rewrite (index_not_elem_of l (g name)).
  - destruct (index_Ok_or_ValueError l (g n')) as [[i ->]| ->]; [|done].
    simpl. by rewrite IH.
Qed.

Section dataset_init.
Context {V : Type}.
Context (corpora : gmap string Corpus.t).
Context (open_netcdf : Path.t → result (netCDF4.Dataset V)).
Context (RawAudioBackend ARFFBackend : Path.t → result (Backend.t V)).
Implicit Types (path : Path.t) (d : Dataset.t V).

Lemma dataset_init_inv path d :
  Dataset.__init__ corpora open_netcdf RawAudioBackend ARFFBackend path = Ok d →
  ∃ backend info,
    Dataset.open_backend open_netcdf RawAudioBackend ARFFBackend path
    = Ok backend
    ∧ corpora !! py.lower (Backend.corpus backend) = Some info
    ∧ Dataset.backend d = Some backend
    ∧ Dataset.corpus d = Backend.corpus backend
    ∧ Dataset.names d = Backend.names backend
    ∧ Dataset.x d = Backend.features backend
    ∧ Dataset.speakers d = Corpus.speakers info
    ∧ Dataset.speaker_groups d = Corpus.speaker_groups info
    ∧ mapM (λ n, py.index (Corpus.speakers info) (Corpus.get_speaker info n))
        (Backend.names backend) = Ok (Dataset.speaker_indices d)
    ∧ Dataset.speaker_counts d
      = Some (np.bincount (Dataset.speaker_indices d)
                (length (Corpus.speakers info)))
    ∧ np.take_idx
        (Corpus.speakers info ≫= λ sp,
           py.positions (λ g : gset string, bool_decide (sp ∈ g))
             (Corpus.speaker_groups info))
        (Dataset.speaker_indices d)
      = Ok (Dataset.speaker_group_indices d).
Proof.
  unfold Dataset.__init__. cbv zeta. intros H.
  apply bind_Ok in H as (backend & Hbackend & H).
  destruct (corpora !! py.lower (Backend.corpus backend)) as [info|] eqn:Hinfo;
    [|done].
  apply bind_Ok in H as (si & Hsi & H).
  apply bind_Ok in H as (sgi & Hsgi & H).
  injection H as <-. exists backend, info. cbn. by split_and!.
Qed.

(** X5. A constructed dataset resolves every instance to its speaker:
    [speakers[speaker_indices[i]]] is the speaker extracted from
    [names[i]]; [speaker_counts] has one entry per speaker of the
    corpus, entry [k] counts the instances of speaker [k], and the
    entries sum to [n_instances]. *)
Theorem dataset_init_speakers path d :
  Dataset.__init__ corpora open_netcdf RawAudioBackend ARFFBackend path = Ok d →
  ∃ info counts,
    corpora !! py.lower (Dataset.corpus d) = Some info
    ∧ Dataset.speakers d = Corpus.speakers info
    ∧ length (Dataset.speaker_indices d) = Dataset.n_instances d
    ∧ (∀ i name, Dataset.names d !! i = Some name →
         ∃ k, Dataset.speaker_indices d !! i = Some k
              ∧ Dataset.speakers d !! k = Some (Corpus.get_speaker info name))
    ∧ Dataset.speaker_counts d = Some counts
    ∧ length counts = length (Dataset.speakers d)
    ∧ sum_list counts = Dataset.n_instances d
    ∧ (∀ k, k < length (Dataset.speakers d) →
         counts !! k = Some (count_of k (Dataset.speaker_indices d))).
Proof.
  intros (backend & info & _ & Hinfo & _ & Hcorpus & Hnames & _ & Hsp & _
          & Hsi & Hcounts & _)%dataset_init_inv.
  exists info, (np.bincount (Dataset.speaker_indices d)
                  (length (Corpus.speakers info))).
  pose proof (mapM_Ok_length _ _ _ Hsi) as Hlen.
  assert (Forall (λ v, v < length (Corpus.speakers info))
            (Dataset.speaker_indices d)) as Hrange.
  { apply Forall_lookup. intros i k Hk.
    destruct (mapM_Ok_lookup_r _ _ _ _ _ Hsi Hk) as (n & _ & Hn).
    by eapply index_lt. }
  unfold Dataset.n_instances. rewrite Hcorpus, Hnames, Hsp.
  split_and!; try done.
  - intros i name Hname.
    destruct (mapM_Ok_lookup _ _ _ _ _ Hsi Hname) as (k & Hk & Hidx).
    exists k. split; [done|]. by apply index_Ok.
  - by apply bincount_length.
  - rewrite bincount_sum by done. done.
  - intros k Hk. by apply bincount_lookup.
Qed.

(** X6. When every speaker of the corpus belongs to exactly one speaker
    group, a constructed dataset gives every instance the index of the
    group that contains its speaker. *)
Theorem dataset_init_groups path d info :
  Dataset.__init__ corpora open_netcdf RawAudioBackend ARFFBackend path = Ok d →
  corpora !! py.lower (Dataset.corpus d) = Some info →
  one_group_each info →
  length (Dataset.speaker_group_indices d) = Dataset.n_instances d
  ∧ ∀ i name, Dataset.names d !! i = Some name →
      ∃ g grp, Dataset.speaker_group_indices d !! i = Some g
               ∧ Dataset.speaker_groups d !! g = Some grp
               ∧ Corpus.get_speaker info name ∈ grp.
Proof.
  intros (backend & info' & _ & Hinfo' & _ & Hcorpus & Hnames & _ & Hsp & Hgr
          & Hsi & _ & Hsgi)%dataset_init_inv Hinfo Hone.
  rewrite Hcorpus, Hinfo' in Hinfo. injection Hinfo as ->.
  unfold Dataset.n_instances. rewrite Hnames, Hgr.
  split.
  - rewrite (take_idx_length _ _ _ Hsgi). by apply mapM_Ok_length in Hsi.
  - intros i name Hname.
    destruct (mapM_Ok_lookup _ _ _ _ _ Hsi Hname) as (k & Hk & Hidx%index_Ok).
    destruct (mapM_Ok_lookup _ _ _ _ _ Hsgi Hk) as (g & Hg & Hto%getitem_Ok).
    rewrite (bind_positions_lookup _ _ k (Corpus.get_speaker info name))
      in Hto; [|exact Hone|done].
    destruct (Hone (Corpus.get_speaker info name)) as [g' Hg'].
    { by eapply list_elem_of_lookup_2. }
    rewrite Hg' in Hto. injection Hto as ->.
    assert (g ∈ py.positions
              (λ grp : gset string,
                 bool_decide (Corpus.get_speaker info name ∈ grp))
              (Corpus.speaker_groups info)) as Hpos
      by (rewrite Hg'; by left).
    apply positions_spec in Hpos as (grp & Hgrp & Hin%bool_decide_eq_true).
    by exists g, grp.
Qed.

(** X7. A path without any suffix does not reach the 'Unknown
    filetype' error: reading [path.suffixes[0]] raises [IndexError]. *)
Theorem init_no_suffix path :
  Path.suffix path ≠ ".nc" → Path.suffix path ≠ ".txt" →
  Path.suffixes path = [] →
  Dataset.__init__ corpora open_netcdf RawAudioBackend ARFFBackend path
  = Raise IndexError
  ∧ LabelledDataset.__init__ corpora open_netcdf RawAudioBackend ARFFBackend
      path = Raise IndexError.
Proof.
  intros Hnc Htxt Hnone.
  assert (Dataset.__init__ corpora open_netcdf RawAudioBackend ARFFBackend path
          = Raise IndexError) as Hd.
  { unfold Dataset.__init__, Dataset.open_backend.
    rewrite !decide_False by done. by rewrite Hnone. }
  split; [done|]. unfold LabelledDataset.__init__. by rewrite Hd.
Qed.

(** X8. An instance whose speaker is not in the corpus's speaker list
    makes construction fail with [ValueError]. *)
Theorem init_unknown_speaker path backend info name :
  Dataset.open_backend open_netcdf RawAudioBackend ARFFBackend path
  = Ok backend →
  corpora !! py.lower (Backend.corpus backend) = Some info →
  name ∈ Backend.names backend →
  Corpus.get_speaker info name ∉ Corpus.speakers info →
  Dataset.__init__ corpora open_netcdf RawAudioBackend ARFFBackend path
  = Raise ValueError
  ∧ LabelledDataset.__init__ corpora open_netcdf RawAudioBackend ARFFBackend
      path = Raise ValueError.
Proof.
  intros Hopen Hinfo Hin Hnot.
  assert (Dataset.__init__ corpora open_netcdf RawAudioBackend ARFFBackend path
          = Raise ValueError) as Hd.
  { unfold Dataset.__init__. rewrite Hopen, result_bind_Ok, Hinfo.
    by rewrite (mapM_index_unknown _ _ _ name). }
  split; [done|]. unfold LabelledDataset.__init__. by rewrite Hd.
Qed.

(** X9. A source without labels (a netCDF container without the
    [label_nominal] variable) builds a [Dataset] but not a
    [LabelledDataset]: iterating over the missing labels raises
    [TypeError]. *)
Theorem labelled_init_unlabelled path d backend :
  Dataset.__init__ corpora open_netcdf RawAudioBackend ARFFBackend path = Ok d →
  Dataset.backend d = Some backend →
  Backend.labels backend = None →
  LabelledDataset.__init__ corpora open_netcdf RawAudioBackend ARFFBackend path
  = Raise TypeError.
Proof.
  intros Hd Hb Hlabels.
  destruct (dataset_init_inv _ _ Hd)
    as (backend' & info & _ & Hinfo & _ & Hcorpus & _).
  unfold LabelledDataset.__init__.
  rewrite Hd, result_bind_Ok, Hcorpus, Hinfo, result_bind_Ok, Hb.
  cbn [getattr]. by rewrite result_bind_Ok, Hlabels.
Qed.

End dataset_init.

Lemma dataset_init_B :
  Dataset.__init__ Example.corpora Example.open_netcdf Example.no_backend
    Example.no_backend (Example.path "B" ".nc")
  = Ok (LabelledDataset.base Example.dataset_B).
Proof. vm_compute. reflexivity. Qed.

Lemma dataset_init_speakers_witness :
  ∃ info counts,
    Example.corpora
      !! py.lower (Dataset.corpus (LabelledDataset.base Example.dataset_B))
    = Some info
    ∧ Dataset.speakers (LabelledDataset.base Example.dataset_B)
      = Corpus.speakers info
    ∧ Dataset.speaker_counts (LabelledDataset.base Example.dataset_B)
      = Some counts
    ∧ length counts = 3
    ∧ sum_list counts = 3.
Proof.
  destruct (dataset_init_speakers Example.corpora Example.open_netcdf
              Example.no_backend Example.no_backend (Example.path "B" ".nc")
              (LabelledDataset.base Example.dataset_B))
    as (info & counts & H1 & H2 & _ & _ & H5 & H6 & H7 & _).
  - vm_compute. reflexivity.
  - exists info, counts. split_and!; [exact H1|exact H2|exact H5|exact H6|exact H7].
Defined.

Lemma dataset_init_groups_witness :
  length (Dataset.speaker_group_indices (LabelledDataset.base Example.dataset_B))
  = Dataset.n_instances (LabelledDataset.base Example.dataset_B)
  ∧ ∀ i name,
      Dataset.names (LabelledDataset.base Example.dataset_B) !! i = Some name →
      ∃ g grp,
        Dataset.speaker_group_indices (LabelledDataset.base Example.dataset_B)
          !! i = Some g
        ∧ Dataset.speaker_groups (LabelledDataset.base Example.dataset_B) !! g
          = Some grp
        ∧ Corpus.get_speaker Example.corpus_B name ∈ grp.
Proof.
  apply (dataset_init_groups Example.corpora Example.open_netcdf
           Example.no_backend Example.no_backend (Example.path "B" ".nc")).
  - vm_compute. reflexivity.
  - vm_compute. reflexivity.
  - intros sp Hsp. cbn in Hsp.
    repeat (apply elem_of_cons in Hsp as [->|Hsp];
            [eexists; vm_compute; reflexivity|]).
    by apply elem_of_nil in Hsp.
Defined.

Lemma init_no_suffix_witness :
  ExtraExample.load_dataset ExtraExample.bare_path = Raise IndexError
  ∧ ExtraExample.load ExtraExample.bare_path = Raise IndexError.
Proof.
  apply (init_no_suffix Example.corpora ExtraExample.open_netcdf
           Example.no_backend Example.no_backend ExtraExample.bare_path);
    done.
Defined.

Lemma init_unknown_speaker_witness :
  ExtraExample.load_dataset (Example.path "A_stranger" ".nc") = Raise ValueError
  ∧ ExtraExample.load (Example.path "A_stranger" ".nc") = Raise ValueError.
Proof.
  assert (∃ backend,
            Dataset.open_backend ExtraExample.open_netcdf Example.no_backend
              Example.no_backend (Example.path "A_stranger" ".nc") = Ok backend
            ∧ Example.corpora !! py.lower (Backend.corpus backend)
              = Some Example.corpus_A
            ∧ Backend.names backend = ["s1_001"; "s9_001"])
    as (backend & Hopen & Hinfo & Hnames)
    by (eexists; split_and!; vm_compute; reflexivity).
  apply (init_unknown_speaker Example.corpora ExtraExample.open_netcdf
           Example.no_backend Example.no_backend
           (Example.path "A_stranger" ".nc") backend Example.corpus_A "s9_001");
    try done.
  - rewrite Hnames. right. left.
  - cbn. intros Hin.
    repeat (apply elem_of_cons in Hin as [Hin|Hin]; [done|]).
    by apply elem_of_nil in Hin.
Defined.

Lemma labelled_init_unlabelled_witness :
  is_Ok (ExtraExample.load_dataset (Example.path "A_unlabelled" ".nc"))
  ∧ ExtraExample.load (Example.path "A_unlabelled" ".nc") = Raise TypeError.
Proof.
  assert (∃ d backend,
            ExtraExample.load_dataset (Example.path "A_unlabelled" ".nc") = Ok d
            ∧ Dataset.backend d = Some backend
            ∧ Backend.labels backend = None)
    as (d & backend & Hd & Hb & Hlabels)
    by (eexists _, _; split_and!; vm_compute; reflexivity).
  split; [by exists d|].
  by apply (labelled_init_unlabelled Example.corpora ExtraExample.open_netcdf
              Example.no_backend Example.no_backend
              (Example.path "A_unlabelled" ".nc") d backend).
Defined.

(** ** Remapping and filtering classes *)

Lemma sorted_fixed (l : list string) :
  sorted_unique l → py.sorted (list_to_set l) = l.
Proof.
  intros [Hsorted Hnodup]. unfold py.sorted.
  apply (StronglySorted_unique String.le); [|done|].
  - apply (StronglySorted_merge_sort _).
  - rewrite merge_sort_Permutation. by apply elements_list_to_set.
Qed.

Lemma index_NoDup (l : list string) (c : string) (i : nat) :
  NoDup l → l !! i = Some c → py.index l c = Ok i.
Proof.
  intros Hnd. revert i. induction Hnd as [|c' l Hnotin _ IH]; intros i Hi;
    [done|].
  simpl. destruct i as [|i]; simpl in Hi.
  - injection Hi as ->. by rewrite decide_True.
  - rewrite decide_False.
    + by rewrite (IH i Hi).
    + intros ->. apply Hnotin. by eapply list_elem_of_lookup_2.
Qed.

Lemma mapM_index_self (l : list string) :
  NoDup l → mapM (py.index l) l = Ok (seq 0 (length l)).
Proof.
  intros Hnd. apply mapM_Ok. apply Forall2_same_length_lookup_2.
  - by rewrite length_seq.
  - intros i c k Hc Hk. apply lookup_seq in Hk as [-> _].
    by apply index_NoDup.
Qed.

Lemma take_idx_seq (n : nat) (y : list nat) :
  Forall (λ c, c < n) y → np.take_idx (seq 0 n) y = Ok y.
Proof.
  intros Hy. apply mapM_Ok. induction Hy as [|c y Hc _ IH]; constructor;
    [|done].
  apply getitem_Ok. by rewrite lookup_seq_lt.
Qed.

Lemma fmap_default_empty (l : list string) :
  (λ k : string, default k ((∅ : gmap string string) !! k)) <$> l = l.
Proof.
  rewrite <-(list_fmap_id l) at 2. apply list_fmap_ext.
  intros i k _. by rewrite lookup_empty.
Qed.

Section label_mutators.
Context {V : Type}.
Implicit Types (d : LabelledDataset.t V).

(** With the empty mapping, a sorted duplicate-free class list and
    labels within it, [map_classes] recomputes what is already there. *)
Lemma map_classes_empty_fixed d :
  sorted_unique (LabelledDataset.classes d) → labels_in_range d →
  LabelledDataset.y d ≠ [] →
  LabelledDataset.map_classes ∅ d
  = Ok {| LabelledDataset.base := LabelledDataset.base d;
          LabelledDataset.classes := LabelledDataset.classes d;
          LabelledDataset.y := LabelledDataset.y d;
          LabelledDataset.class_counts :=
            Some (np.bincount (LabelledDataset.y d) 0) |}.
Proof.
  intros Hsu Hrange Hne. unfold LabelledDataset.map_classes. cbv zeta.
  rewrite fmap_default_empty, (sorted_fixed _ Hsu).
  assert (mapM (λ k : string,
                  py.index (LabelledDataset.classes d)
                    (default k ((∅ : gmap string string) !! k)))
            (LabelledDataset.classes d)
          = Ok (seq 0 (length (LabelledDataset.classes d)))) as ->.
  { assert (mapM (py.index (LabelledDataset.classes d))
              (LabelledDataset.classes d)
            = Ok (seq 0 (length (LabelledDataset.classes d)))) as H
      by apply mapM_index_self, Hsu.
    apply mapM_Ok in H. apply mapM_Ok.
    eapply Forall2_impl; [exact H|]. intros c i Hc. simpl.
    by rewrite lookup_empty. }
  rewrite result_bind_Ok.
  assert (np.take_by_array (seq 0 (length (LabelledDataset.classes d)))
            (LabelledDataset.y d) = Ok (LabelledDataset.y d)) as ->.
  { unfold np.take_by_array. unfold labels_in_range in Hrange.
    destruct (LabelledDataset.y d) as [|c y]; [done|].
    by apply take_idx_seq. }
  rewrite result_bind_Ok. unfold np.bincount_of_list.
  by destruct (LabelledDataset.y d).
Qed.

(** X10. On a well-formed dataset whose class list is already sorted
    and duplicate-free, [map_classes({})] changes nothing: same
    instances, same classes, same labels. *)
Theorem map_classes_empty_identity d :
  wf d → sorted_unique (LabelledDataset.classes d) →
  ∃ d', LabelledDataset.map_classes ∅ d = Ok d'
    ∧ LabelledDataset.base d' = LabelledDataset.base d
    ∧ LabelledDataset.classes d' = LabelledDataset.classes d
    ∧ LabelledDataset.y d' = LabelledDataset.y d.
Proof.
  intros ((_ & Hylen & _) & Hrange & Hpos) Hsu.
  rewrite map_classes_empty_fixed; [by eexists| done..|].
  intros Hnil. rewrite Hnil in Hylen. simpl in Hylen. lia.
Qed.

(** X11. [map_classes] is idempotent in the following sense: after any
    successful [map_classes(m)], a further [map_classes({})] returns the
    very same dataset, [class_counts] included. *)
Theorem map_classes_then_empty m d d1 :
  LabelledDataset.map_classes m d = Ok d1 →
  LabelledDataset.map_classes ∅ d1 = Ok d1.
Proof.
  unfold LabelledDataset.map_classes at 1. cbv zeta. intros H.
  apply bind_Ok in H as (arr_map & Harr & H).
  apply bind_Ok in H as (y' & Hy' & H).
  apply bind_Ok in H as (cc & Hcc & H).
  injection H as <-.
  assert (y' ≠ []) as Hne by by eapply bincount_of_list_Ok.
  assert (cc = np.bincount y' 0) as ->.
  { unfold np.bincount_of_list in Hcc. destruct y'; [done|].
    by injection Hcc as <-. }
  rewrite map_classes_empty_fixed; [done| | |done].
  - apply sorted_spec.
  - unfold labels_in_range. cbn.
    assert (np.take_idx arr_map (LabelledDataset.y d) = Ok y') as Htake.
    { unfold np.take_by_array in Hy'. by destruct (LabelledDataset.y d). }
    apply Forall_lookup. intros i c Hc.
    destruct (mapM_Ok_lookup_r _ _ _ _ _ Htake Hc) as (k & _ & Hk%getitem_Ok).
    destruct (mapM_Ok_lookup_r _ _ _ _ _ Harr Hk) as (a & _ & Ha).
    by eapply index_lt.
Qed.

End label_mutators.

Lemma map_classes_empty_identity_witness :
  wf Example.dataset_A
  ∧ sorted_unique (LabelledDataset.classes Example.dataset_A)
  ∧ ∃ d', LabelledDataset.map_classes ∅ Example.dataset_A = Ok d'
      ∧ LabelledDataset.base d' = LabelledDataset.base Example.dataset_A
      ∧ LabelledDataset.classes d' = LabelledDataset.classes Example.dataset_A
      ∧ LabelledDataset.y d' = LabelledDataset.y Example.dataset_A.
Proof.
  assert (wf Example.dataset_A) as Hwf by solve_wf.
  assert (sorted_unique (LabelledDataset.classes Example.dataset_A)) as Hsu
    by (split; apply (bool_decide_unpack _); vm_compute; exact I).
  split_and!; [done|done|].
  by apply map_classes_empty_identity.
Defined.

Lemma map_classes_then_empty_witness :
  ∃ d1,
    LabelledDataset.map_classes Example.merge_negative Example.dataset_B
    = Ok d1
    ∧ LabelledDataset.map_classes ∅ d1 = Ok d1.
Proof.
  assert (∃ d1,
            LabelledDataset.map_classes Example.merge_negative Example.dataset_B
            = Ok d1) as [d1 Hd1] by (eexists; vm_compute; reflexivity).
  exists d1. split; [done|].
  by apply (map_classes_then_empty Example.merge_negative Example.dataset_B).
Defined.

(** *** Which instances [remove_classes] keeps *)

Lemma positions_from_ge {A} (P : A → bool) off (l : list A) i :
  i ∈ py.positions_from P off l → off ≤ i.
Proof. intros (j & a & -> & _)%positions_from_spec. lia. Qed.

Lemma positions_from_increasing {A} (P : A → bool) off (l : list A) :
  StronglySorted lt (py.positions_from P off l).
Proof.
  revert off. induction l as [|a l IH]; intros off; simpl; [constructor|].
  destruct (P a); [|apply IH].
  constructor; [apply IH|].
  apply List.Forall_forall. intros i Hi%list_elem_of_In%positions_from_ge. lia.
Qed.

(** The [k]-th element that passes a filter sits at the [k]-th
    position the enumeration reports. *)
Lemma filter_positions_lookup {A} (P : A → Prop) `{∀ a, Decision (P a)}
    off (l : list A) k i :
  py.positions_from (λ a, bool_decide (P a)) off l !! k = Some (off + i) →
  filter P l !! k = l !! i.
Proof.
  revert off k i. induction l as [|a l IH]; intros off k i Hk; [done|].
  simpl in Hk. rewrite filter_cons.
  destruct (decide (P a)) as [Ha|Ha].
  - rewrite bool_decide_eq_true_2 in Hk by done.
    destruct k as [|k]; simpl in *.
    + assert (i = 0) as -> by (injection Hk; lia). done.
    + pose proof (list_elem_of_lookup_2 _ _ _ Hk) as Hge%positions_from_ge.
      destruct i as [|i]; [lia|]. simpl. apply (IH (S off)).
      rewrite Hk. f_equal. lia.
  - rewrite bool_decide_eq_false_2 in Hk by done.
    pose proof (list_elem_of_lookup_2 _ _ _ Hk) as Hge%positions_from_ge.
    destruct i as [|i]; [lia|]. simpl. apply (IH (S off)).
    rewrite Hk. f_equal. lia.
Qed.

Section remove_classes_instances.
Context {V : Type}.
Implicit Types (d : LabelledDataset.t V).

(** X12. [remove_classes(keep)] keeps exactly the instances whose class
    is in [keep], in their order, and keeps each of them whole: the
    [k]-th instance of the result has the name, the class name and the
    speaker index of the [k]-th kept instance of the original, and [x]
    is the original [x] at the kept positions. *)
Theorem remove_classes_same_instances keep d d' :
  LabelledDataset.remove_classes keep d = Ok d' →
  ∃ keep_idx,
    (∀ i, i ∈ keep_idx ↔ ∃ c, class_of d i = Some c ∧ c ∈ keep)
    ∧ StronglySorted lt keep_idx
    ∧ length keep_idx = Dataset.n_instances d'
    ∧ x_take (Dataset.x d) keep_idx = Ok (Dataset.x d')
    ∧ ∀ k i, keep_idx !! k = Some i →
        Dataset.names d' !! k = Dataset.names d !! i
        ∧ class_of d' k = class_of d i
        ∧ Dataset.speaker_indices d' !! k = Dataset.speaker_indices d !! i.
Proof.
  unfold LabelledDataset.remove_classes. cbv zeta. intros H.
  apply bind_Ok in H as (str_labels & Hstr & H).
  apply bind_Ok in H as (x' & Hx' & H).
  apply bind_Ok in H as (names' & Hnames' & H).
  apply bind_Ok in H as (si' & Hsi' & H).
  apply bind_Ok in H as (y' & Hy' & H).
  apply bind_Ok in H as (cc & _ & H).
  injection H as <-.
  set (keep_set := list_to_set keep : gset string) in *.
  set (keep_idx := py.positions (λ c, bool_decide (c ∈ keep_set)) str_labels)
    in *.
  assert (∀ i, str_labels !! i = class_of d i) as Hcls.
  { intros i. unfold class_of.
    destruct (LabelledDataset.y d !! i) as [c|] eqn:Hc; simpl.
    - destruct (mapM_Ok_lookup _ _ _ _ _ Hstr Hc) as (b & -> & Hb%getitem_Ok).
      done.
    - apply lookup_ge_None. apply lookup_ge_None in Hc.
      by rewrite (mapM_Ok_length _ _ _ Hstr). }
  exists keep_idx. unfold Dataset.n_instances. cbn.
  split_and!.
  - intros i. unfold keep_idx. rewrite positions_spec.
    split; intros (c & Hc & Hin); exists c.
    + rewrite <-Hcls. split; [done|].
      apply bool_decide_eq_true in Hin. by apply elem_of_list_to_set in Hin.
    + rewrite Hcls. split; [done|].
      apply bool_decide_eq_true. by apply elem_of_list_to_set.
  - apply positions_from_increasing.
  - by rewrite (mapM_Ok_length _ _ _ Hnames').
  - done.
  - intros k i Hk. split_and!.
    + destruct (mapM_Ok_lookup _ _ _ _ _ Hnames' Hk) as (n & -> & Hn%getitem_Ok).
      done.
    + pose proof (filter_positions_lookup (λ c, c ∈ keep_set) 0 str_labels k i Hk)
        as Hkept.
      rewrite <-Hcls, <-Hkept. unfold class_of. cbn.
      destruct (y' !! k) as [c|] eqn:Hc; simpl.
      * destruct (mapM_Ok_lookup_r _ _ _ _ _ Hy' Hc) as (a & -> & Ha%index_Ok).
        done.
      * symmetry. apply lookup_ge_None. apply lookup_ge_None in Hc.
        by rewrite <-(mapM_Ok_length _ _ _ Hy').
    + destruct (mapM_Ok_lookup _ _ _ _ _ Hsi' Hk) as (n & -> & Hn%getitem_Ok).
      done.
Qed.

End remove_classes_instances.

Lemma remove_classes_same_instances_witness :
  ∃ d' keep_idx,
    LabelledDataset.remove_classes ["sad"] Example.dataset_B = Ok d'
    ∧ (∀ i, i ∈ keep_idx
            ↔ ∃ c, class_of Example.dataset_B i = Some c ∧ c ∈ ["sad"])
    ∧ length keep_idx = Dataset.n_instances d'
    ∧ ∀ k i, keep_idx !! k = Some i →
        Dataset.names d' !! k = Dataset.names Example.dataset_B !! i
        ∧ class_of d' k = class_of Example.dataset_B i.
Proof.
  assert (∃ d', LabelledDataset.remove_classes ["sad"] Example.dataset_B
                = Ok d') as [d' Hd'] by (eexists; vm_compute; reflexivity).
  destruct (remove_classes_same_instances ["sad"] Example.dataset_B d' Hd')
    as (keep_idx & Hin & _ & Hlen & _ & Hsame).
  exists d', keep_idx. split_and!; [exact Hd'|exact Hin|exact Hlen|].
  intros k i Hk. destruct (Hsame k i Hk) as (Ha & Hb & _).
  exact (conj Ha Hb).
Defined.

(** ** More on the merge *)

Section bind_offsets.
Context {A B : Type}.

Lemma lookup_bind_offset (f : A → list B) (l : list A) j a i b :
  l !! j = Some a → f a !! i = Some b →
  (l ≫= f) !! (sum_list ((λ a, length (f a)) <$> take j l) + i) = Some b.
Proof.
  revert j. induction l as [|a0 l IH]; intros j Hj Hi; [done|].
  cbn [mbind list_bind]. destruct j as [|j]; simpl in Hj.
  - injection Hj as ->. simpl. by apply lookup_app_l_Some.
  - cbn [take fmap list_fmap sum_list_with].
    change (id (length (f a0))) with (length (f a0)).
    rewrite lookup_app_r by lia. rewrite <-(IH j Hj Hi). f_equal.
    change (list_fmap A nat ?g ?k) with (g <$> k). lia.
Qed.

End bind_offsets.

Lemma repeat_from_lookup off (sizes : list nat) j n i :
  sizes !! j = Some n → i < n →
  repeat_from off sizes !! (sum_list (take j sizes) + i) = Some (off + j).
Proof.
  revert off j. induction sizes as [|m sizes IH]; intros off j Hj Hi; [done|].
  rewrite repeat_from_cons. destruct j as [|j]; simpl in Hj.
  - injection Hj as ->. simpl. rewrite lookup_app_l by (rewrite length_replicate; lia).
    rewrite Nat.add_0_r. by apply lookup_replicate_2.
  - change (sum_list (take (S j) (m :: sizes)))
      with (m + sum_list (take j sizes)).
    rewrite lookup_app_r by (rewrite length_replicate; lia).
    rewrite length_replicate.
    replace (m + sum_list (take j sizes) + i - m)
      with (sum_list (take j sizes) + i) by lia.
    rewrite (IH (S off) j) by done. f_equal. lia.
Qed.

Section combined_more.
Context {V : Type}.
Implicit Types (d : LabelledDataset.t V) (datasets : list (LabelledDataset.t V)).
Implicit Types (cd : CombinedDataset.t V).

(** X13. Whatever the allow-list, a merged dataset tags every source
    instance: at position [offset j + i] its [names] holds the name of
    instance [i] of source [j] prefixed with that source's corpus, its
    [corpus_indices] holds [j], and [corpora[j]] is that corpus. *)
Theorem combined_names_and_tags datasets labels cd :
  CombinedDataset.__init__ datasets labels = Ok cd →
  Forall (λ d, len (Dataset.x d) = Dataset.n_instances d) datasets →
  ∀ j d i name,
    datasets !! j = Some d → Dataset.names d !! i = Some name →
    Dataset.names cd !! (offset datasets j + i)
    = Some (Dataset.corpus d +:+ "_" +:+ name)
    ∧ CombinedDataset.corpus_indices cd !! (offset datasets j + i) = Some j
    ∧ CombinedDataset.corpora cd !! j = Some (Dataset.corpus d).
Proof.
  intros (Hcorpora & Hci & Hnames & _)%combined_init_fields Hlen
    j d i name Hd Hname.
  rewrite Hcorpora, Hci, Hnames. unfold offset. split_and!.
  - replace ((λ d0, Dataset.n_instances d0) <$> take j datasets)
      with ((λ d0, length (CombinedDataset.prefixed d0 <$> Dataset.names d0))
              <$> take j datasets).
    + apply lookup_bind_offset with d; [done|].
      by rewrite list_lookup_fmap, Hname.
    + apply list_fmap_ext. intros ? d0 _. by rewrite length_fmap.
  - change (np.repeat_arange ?s) with (repeat_from 0 s).
    replace ((λ d0, Dataset.n_instances d0) <$> take j datasets)
      with (take j ((λ d0 : LabelledDataset.t V, len (Dataset.x d0))
                      <$> datasets)).
    + apply (repeat_from_lookup 0 _ j (len (Dataset.x d))).
      * by rewrite list_lookup_fmap, Hd.
      * rewrite (proj1 (Forall_lookup _ _) Hlen j d Hd).
        by eapply lookup_lt_Some.
    + rewrite <-fmap_take. apply Forall_fmap_ext_1.
      by apply Forall_take.
  - by rewrite list_lookup_fmap, Hd.
Qed.

End combined_more.

Lemma combined_names_and_tags_witness :
  Dataset.names Example.combined_sad
    !! (offset [Example.dataset_A; Example.dataset_B] 1 + 1)
  = Some (Dataset.corpus Example.dataset_B +:+ "_" +:+ "t3_001")
  ∧ CombinedDataset.corpus_indices Example.combined_sad
      !! (offset [Example.dataset_A; Example.dataset_B] 1 + 1) = Some 1
  ∧ CombinedDataset.corpora Example.combined_sad !! 1
    = Some (Dataset.corpus Example.dataset_B).
Proof.
  apply (combined_names_and_tags [Example.dataset_A; Example.dataset_B]
           Example.only_sad Example.combined_sad).
  - vm_compute. reflexivity.
  - repeat constructor.
  - reflexivity.
  - reflexivity.
Defined.

(** *** Speaker indices after the merge *)

Lemma concat_mjoin {A} (ls : list (list A)) : concat ls = mjoin ls.
Proof. induction ls as [|l ls IH]; [done|]. simpl. by rewrite IH. Qed.

Section combined_speakers.
Context {V : Type}.
Implicit Types (d : LabelledDataset.t V) (datasets : list (LabelledDataset.t V)).
Implicit Types (cd : CombinedDataset.t V).
Implicit Types
  (acc : list string * list (list nat) * list (gset string) * list (list nat)).

Lemma merge_step_speakers datasets acc :
  (foldl CombinedDataset.merge_step acc datasets).1.1.1
  = acc.1.1.1
    ++ (datasets ≫= λ d, CombinedDataset.prefixed d <$> Dataset.speakers d).
Proof.
  revert acc. induction datasets as [|d datasets IH]; intros acc.
  - simpl. by rewrite app_nil_r.
  - cbn [foldl mbind list_bind]. rewrite IH.
    destruct acc as [[[sp si] sg] sgi]. simpl. by rewrite (assoc_L (++)).
Qed.

Lemma merge_step_si_prefix datasets acc :
  ∃ rest, (foldl CombinedDataset.merge_step acc datasets).1.1.2
          = acc.1.1.2 ++ rest.
Proof.
  revert acc. induction datasets as [|d datasets IH]; intros acc.
  - exists []. simpl. by rewrite app_nil_r.
  - cbn [foldl]. destruct (IH (CombinedDataset.merge_step acc d)) as [rest ->].
    destruct acc as [[[sp si] sg] sgi]. simpl.
    eexists. by rewrite <-(assoc_L (++)).
Qed.

Lemma merge_step_si_lookup datasets acc j d :
  datasets !! j = Some d →
  (foldl CombinedDataset.merge_step acc datasets).1.1.2
    !! (length acc.1.1.2 + j)
  = Some ((λ i, i + (length acc.1.1.1 + speaker_offset datasets j))
            <$> Dataset.speaker_indices d).
Proof.
  revert acc j. induction datasets as [|d0 datasets IH]; intros acc j Hj;
    [done|].
  cbn [foldl]. destruct j as [|j]; simpl in Hj.
  - injection Hj as ->.
    destruct (merge_step_si_prefix datasets (CombinedDataset.merge_step acc d))
      as [rest ->].
    destruct acc as [[[sp si] sg] sgi]. simpl.
    rewrite Nat.add_0_r, <-(assoc_L (++)), lookup_app_r by lia.
    rewrite Nat.sub_diag. simpl. unfold speaker_offset. simpl.
    f_equal. apply list_fmap_ext. intros. lia.
  - specialize (IH (CombinedDataset.merge_step acc d0) j Hj).
    destruct acc as [[[sp si] sg] sgi]. simpl in *.
    rewrite length_app in IH. simpl in IH.
    replace (length si + S j) with (length si + 1 + j) by lia.
    rewrite IH. f_equal. apply list_fmap_ext. intros.
    rewrite length_app, length_fmap.
    change (speaker_offset (d0 :: datasets) (S j))
      with (length (Dataset.speakers d0) + speaker_offset datasets j).
    lia.
Qed.

Lemma combined_init_plain datasets labels cd :
  CombinedDataset.__init__ datasets labels = Ok cd →
  CombinedDataset.truthy labels = false →
  Dataset.speakers cd
  = (foldl CombinedDataset.merge_step ([], [], [], []) datasets).1.1.1
  ∧ Dataset.speaker_indices cd
    = concat (foldl CombinedDataset.merge_step ([], [], [], []) datasets).1.1.2
  ∧ x_concatenate ((λ d : LabelledDataset.t V, Dataset.x d) <$> datasets)
    = Ok (Dataset.x cd).
Proof.
  unfold CombinedDataset.__init__. cbv zeta. intros H Hfalsy.
  rewrite Hfalsy in H.
  apply bind_Ok in H as (d0 & _ & H).
  apply bind_Ok in H as (si & Hsi & H).
  apply bind_Ok in H as (sgi & _ & H).
  apply bind_Ok in H as (x & Hx & H).
  apply bind_Ok in H as (str_labels & _ & H).
  rewrite result_bind_Ok in H.
  apply bind_Ok in H as (y & _ & H).
  injection H as <-. cbn. split_and!; [done| |done].
  unfold np.concatenate_with in Hsi.
  destruct ((foldl CombinedDataset.merge_step ([], [], [], []) datasets).1.1.2)
    as [|a rest]; [done|].
  rewrite concat_from_true in Hsi. by injection Hsi as <-.
Qed.

(** X14. Without an allow-list the merge keeps speaker indices valid:
    the entry of instance [i] of source [j] is that source's speaker
    index plus the number of speakers of the preceding sources, and at
    that index the merged speaker list holds the source's speaker name
    prefixed with the source's corpus. *)
Theorem combined_speaker_indices datasets labels cd :
  CombinedDataset.__init__ datasets labels = Ok cd →
  CombinedDataset.truthy labels = false →
  Forall (λ d, length (Dataset.speaker_indices d) = Dataset.n_instances d)
    datasets →
  ∀ j d i k,
    datasets !! j = Some d → Dataset.speaker_indices d !! i = Some k →
    Dataset.speaker_indices cd !! (offset datasets j + i)
    = Some (k + speaker_offset datasets j)
    ∧ ∀ s, Dataset.speakers d !! k = Some s →
        Dataset.speakers cd !! (k + speaker_offset datasets j)
        = Some (Dataset.corpus d +:+ "_" +:+ s).
Proof.
  intros Hinit Hfalsy Hlen j d i k Hd Hk.
  destruct (combined_init_plain _ _ _ Hinit Hfalsy) as (Hsp & Hsi & _).
  rewrite Hsp, Hsi, merge_step_speakers, concat_mjoin. simpl. split.
  - set (ls := (foldl CombinedDataset.merge_step ([], [], [], []) datasets).1.1.2).
    assert (∀ j' d', datasets !! j' = Some d' →
              ls !! j' = Some ((λ i, i + speaker_offset datasets j')
                                 <$> Dataset.speaker_indices d')) as Hls.
    { intros j' d' Hd'.
      apply (merge_step_si_lookup datasets ([], [], [], []) j' d' Hd'). }
    assert (length ls = length datasets) as Hlsl.
    { destruct (merge_step_lengths datasets ([], [], [], [])) as [H _].
      exact H. }
    unfold offset.
    replace ((λ d0, Dataset.n_instances d0) <$> take j datasets)
      with (length <$> take j ls).
    + eapply lookup_concat_offset; [by apply Hls|].
      by rewrite list_lookup_fmap, Hk.
    + apply list_eq. intros j'. rewrite !list_lookup_fmap, !lookup_take.
      destruct (decide (j' < j)); [|done].
      destruct (datasets !! j') as [d'|] eqn:Hd'.
      * rewrite (Hls j' d' Hd'). simpl. f_equal. rewrite length_fmap.
        by apply (proj1 (Forall_lookup _ _) Hlen j' d').
      * apply lookup_ge_None in Hd'. rewrite lookup_ge_None_2 by lia. done.
  - intros s Hs. unfold speaker_offset.
    replace ((λ d0 : LabelledDataset.t V, length (Dataset.speakers d0))
               <$> take j datasets)
      with ((λ d0, length (CombinedDataset.prefixed d0 <$> Dataset.speakers d0))
              <$> take j datasets).
    + rewrite Nat.add_comm. apply lookup_bind_offset with d; [done|].
      by rewrite list_lookup_fmap, Hs.
    + apply list_fmap_ext. intros ? d0 _. by rewrite length_fmap.
Qed.

End combined_speakers.

Lemma combined_speaker_indices_witness :
  Dataset.speaker_indices Example.combined_AB
    !! (offset [Example.dataset_A; Example.dataset_B] 1 + 1)
  = Some (2 + speaker_offset [Example.dataset_A; Example.dataset_B] 1)
  ∧ ∀ s, Dataset.speakers Example.dataset_B !! 2 = Some s →
      Dataset.speakers Example.combined_AB
        !! (2 + speaker_offset [Example.dataset_A; Example.dataset_B] 1)
      = Some (Dataset.corpus Example.dataset_B +:+ "_" +:+ s).
Proof.
  apply (combined_speaker_indices [Example.dataset_A; Example.dataset_B] None).
  - vm_compute. reflexivity.
  - reflexivity.
  - repeat constructor.
  - reflexivity.
  - reflexivity.
Defined.

(** *** The allow-list as a list *)

Section combined_list_labels.
Context {V : Type}.
Implicit Types (d : LabelledDataset.t V) (datasets : list (LabelledDataset.t V)).
Implicit Types (cd : CombinedDataset.t V).

(** X15. The allow-list only works as a set. Whenever the sources can
    be merged without an allow-list, passing a non-empty list (the type
    the signature announces) raises [TypeError], and passing the empty
    list gives the merge without an allow-list. *)
Theorem combined_list_labels_raise datasets cd (c : string) (l : list string) :
  CombinedDataset.__init__ datasets None = Ok cd →
  CombinedDataset.__init__ datasets (Some (LabelList (c :: l)))
  = Raise TypeError
  ∧ CombinedDataset.__init__ datasets (Some (LabelList [])) = Ok cd.
Proof.
  intros H. split; [|exact H].
  revert H. unfold CombinedDataset.__init__. cbv zeta. intros H.
  apply bind_Ok in H as (d0 & -> & H). rewrite result_bind_Ok.
  apply bind_Ok in H as (si & -> & H). rewrite result_bind_Ok.
  apply bind_Ok in H as (sgi & -> & H). rewrite result_bind_Ok.
  apply bind_Ok in H as (x & -> & H). rewrite result_bind_Ok.
  apply bind_Ok in H as (str_labels & -> & H). rewrite result_bind_Ok.
  reflexivity.
Qed.

(** X16. A merged dataset never has [speaker_counts]: as soon as one
    source lists a speaker, normalising the merge with the default
    scheme 'speaker' raises [AttributeError], whatever the transformer. *)
Theorem combined_normalise_speaker_raises {T}
    (fit_transform : T → array2 V → result (T * array2 V)) (normaliser : T)
    datasets labels cd d :
  CombinedDataset.__init__ datasets labels = Ok cd →
  d ∈ datasets → Dataset.speakers d ≠ [] →
  Dataset.speaker_counts cd = None
  ∧ CombinedDataset.normalise fit_transform normaliser "speaker" cd
    = Raise AttributeError.
Proof.
  intros Hinit Hd Hsp.
  assert (Dataset.speaker_counts cd = None
          ∧ Dataset.speakers cd
            = (foldl CombinedDataset.merge_step ([], [], [], []) datasets).1.1.1)
    as [Hcounts Hspeakers].
  { revert Hinit. unfold CombinedDataset.__init__. cbv zeta. intros H.
    apply bind_Ok in H as (d0 & _ & H).
    apply bind_Ok in H as (si & _ & H).
    apply bind_Ok in H as (sgi & _ & H).
    apply bind_Ok in H as (x & _ & H).
    apply bind_Ok in H as (str_labels & _ & H).
    apply bind_Ok in H as ([[[x' si'] classes'] str_labels'] & _ & H).
    apply bind_Ok in H as (y & _ & H).
    injection H as <-. done. }
  split; [done|].
  assert (Dataset.speakers cd ≠ []) as Hne.
  { rewrite Hspeakers, merge_step_speakers. simpl.
    intros Hnil. apply Hsp.
    destruct (Dataset.speakers d) as [|s rest] eqn:Hs; [done|].
    assert (CombinedDataset.prefixed d s
            ∈ datasets ≫= λ d, CombinedDataset.prefixed d <$> Dataset.speakers d)
      as Hin.
    { apply list_elem_of_bind. exists d. split; [|done].
      rewrite Hs. left. }
    rewrite Hnil in Hin. by apply elem_of_nil in Hin. }
  unfold CombinedDataset.normalise.
  rewrite decide_False by done.
  unfold Dataset.normalise.
  rewrite decide_False by done. rewrite decide_True by done.
  destruct (Dataset.speakers cd) as [|s rest] eqn:Hs; [done|].
  cbn [length seq foldlM]. rewrite Hcounts. reflexivity.
Qed.

End combined_list_labels.

Lemma combined_list_labels_raise_witness :
  CombinedDataset.__init__ [Example.dataset_A; Example.dataset_B]
    (Some (LabelList ["sad"])) = Raise TypeError
  ∧ CombinedDataset.__init__ [Example.dataset_A; Example.dataset_B]
      (Some (LabelList [])) = Ok Example.combined_AB.
Proof.
  apply (combined_list_labels_raise [Example.dataset_A; Example.dataset_B]).
  vm_compute. reflexivity.
Defined.

Lemma combined_normalise_speaker_raises_witness :
  Dataset.speaker_counts Example.combined_AB = None
  ∧ CombinedDataset.normalise Example.failing_transform tt "speaker"
      Example.combined_AB = Raise AttributeError.
Proof.
  apply (combined_normalise_speaker_raises Example.failing_transform tt
           [Example.dataset_A; Example.dataset_B] None Example.combined_AB
           Example.dataset_A).
  - vm_compute. reflexivity.
  - left.
  - discriminate.
Defined.

(** ** Normalisation *)

Section loops.
Context {A S : Type}.
Implicit Types (body : S → A → result S) (l : list A).


Lemma foldlM_total (P : S → Prop) body st l :
  (∀ s a, a ∈ l → P s → ∃ s', body s a = Ok s' ∧ P s') →
  P st → ∃ st', foldlM body st l = Ok st' ∧ P st'.
Proof.
  revert st. induction l as [|a l IH]; intros st Hstep Hst; simpl.
  - by exists st.
  - destruct (Hstep st a) as (s1 & -> & Hs1); [left|done|].
    rewrite result_bind_Ok. apply IH; [|done].
    intros s b Hb. apply Hstep. by right.
Qed.

End loops.


Section normalise_layout.
Context {V T : Type}.
Context (fit_transform : T → array2 V → result (T * array2 V)).
Implicit Types (d : Dataset.t V) (cd : CombinedDataset.t V).




(** X19. Normalising sequence data with scheme 'all' is not repeatable:
    it leaves [x] as a plain list with one item per instance, and any
    further [normalise(_, 'all')] raises [AttributeError]. *)
Theorem normalise_all_sequences_once (normaliser n1 : T) d d1 :
  is_sequence (Dataset.x d) = Ok true →
  Dataset.normalise fit_transform normaliser "all" d = Ok (n1, d1) →
  (∃ items, Dataset.x d1 = ArrList items
            ∧ length items = len (Dataset.x d))
  ∧ ∀ n2, Dataset.normalise fit_transform n2 "all" d1 = Raise AttributeError.
Proof.
  unfold Dataset.normalise. rewrite !decide_True by done.
  intros Hseq H.
  assert (∃ items, (Dataset.x d = Arr3 items ∨ Dataset.x d = ArrObj items)
                   ∧ Dataset.transform_items fit_transform normaliser items
                     ≫= (λ '(normaliser', items'),
                           Ok (normaliser', Dataset.set_x d (ArrList items')))
                     = Ok (n1, d1)) as (items & Hx & Hrun).
  { destruct (Dataset.x d) as [rows|items|items|items]; try done;
      exists items; auto. }
  clear H.
  apply bind_Ok in Hrun as ([n' items'] & Hrun & [= <- <-]).
  unfold Dataset.transform_items in Hrun.
  apply bind_Ok in Hrun as ([flat slices] & Hflat & Hrun).
  apply bind_Ok in Hrun as ([n'' flat'] & _ & [= <- <-]).
  unfold _make_flat in Hflat. cbv zeta in Hflat.
  apply bind_Ok in Hflat as (flat0 & Hcat & [= <- <-]).
  assert (items ≠ []) as Hne by (by intros ->).
  split; [|done].
  eexists. split; [reflexivity|].
  unfold _make_ragged, np.split.
  rewrite (sub_arys_length (A:=list V) flat'). cbn [length].
  rewrite length_app, init_cumsum. unfold np.cumsum.
  rewrite cumsum_from_length. unfold py.init.
  rewrite length_take, length_fmap. simpl.
  assert (len (Dataset.x d) = length items) as ->
    by (by destruct Hx as [-> | ->]).
  change (length (A:=array2 V) items) with (length (A:=list (list V)) items).
  assert (0 < length (A:=list (list V)) items)
    by (destruct items; [done|simpl; lia]).
  lia.
Qed.

End normalise_layout.



Lemma normalise_all_sequences_once_witness :
  ∃ d1,
    Dataset.normalise ExtraExample.shift_one tt "all"
      ExtraExample.dataset_B_ragged = Ok (tt, d1)
    ∧ (∃ items, Dataset.x d1 = ArrList items
                ∧ length items = len (Dataset.x ExtraExample.dataset_B_ragged))
    ∧ ∀ n2, Dataset.normalise ExtraExample.shift_one n2 "all" d1
            = Raise AttributeError.
Proof.
  assert (∃ d1, Dataset.normalise ExtraExample.shift_one tt "all"
                  ExtraExample.dataset_B_ragged = Ok (tt, d1)) as [d1 Hd1]
    by (eexists; vm_compute; reflexivity).
  exists d1. split; [exact Hd1|].
  apply (normalise_all_sequences_once ExtraExample.shift_one tt tt
           ExtraExample.dataset_B_ragged d1); [reflexivity|exact Hd1].
Defined.

(** *** When the per-speaker normalisation succeeds *)

Lemma take_idx_total {A} (a : list A) (idx : list nat) :
  Forall (λ i, i < length a) idx →
  ∃ sub, np.take_idx a idx = Ok sub ∧ Forall2 (λ i v, a !! i = Some v) idx sub.
Proof.
  intros Hidx.
  assert (∃ sub, Forall2 (λ i v, a !! i = Some v) idx sub) as [sub Hsub].
  { induction Hidx as [|i idx Hi _ [sub IH]]; [by exists []|].
    destruct (lookup_lt_is_Some_2 a i Hi) as [v Hv].
    exists (v :: sub). by constructor. }
  exists sub. split; [|done].
  apply mapM_Ok. eapply Forall2_impl; [exact Hsub|].
  intros i v Hv. by apply getitem_Ok.
Qed.

Lemma put_idx_widths {V} (a : list (list V)) idx vals :
  Forall2 (λ i v, (length <$> a) !! i = Some (length v)) idx vals →
  ∃ a', np.put_idx a idx vals = Ok a' ∧ length <$> a' = length <$> a.
Proof.
  revert vals a. induction idx as [|i idx IH]; intros vals a HF;
    inversion HF as [|? v ? vals' Hi Hrest]; subst.
  - by exists a.
  - simpl. assert (i < length a) as Hlt.
    { apply lookup_lt_Some in Hi. by rewrite length_fmap in Hi. }
    rewrite decide_True by done.
    assert (length <$> <[i:=v]> a = length <$> a) as Hw
      by (by rewrite list_fmap_insert, list_insert_id).
    destruct (IH vals' (<[i:=v]> a)) as (a' & -> & Ha'); [by rewrite Hw|].
    exists a'. split; [done|]. by rewrite Ha'.
Qed.

Lemma speaker_positions (si : list nat) sp :
  Forall (λ i, i < length si)
    (np.nonzero ((λ i, bool_decide (i = sp)) <$> si))
  ∧ (count_of sp si ≠ 0 →
     np.nonzero ((λ i, bool_decide (i = sp)) <$> si) ≠ []).
Proof.
  unfold np.nonzero. split.
  - apply Forall_forall. intros i (b & Hb & _)%positions_spec.
    apply lookup_lt_Some in Hb. by rewrite length_fmap in Hb.
  - unfold count_of. intros Hcount Hnil.
    destruct (filter (λ v, v = sp) si) as [|v rest] eqn:Hf; [done|].
    assert (v ∈ filter (λ v, v = sp) si) as Hv by (rewrite Hf; left).
    apply list_elem_of_filter in Hv as [-> Hin].
    apply list_elem_of_lookup in Hin as [i Hi].
    assert (i ∈ py.positions id ((λ i, bool_decide (i = sp)) <$> si)) as Hpos.
    { apply positions_spec. exists true. split; [|done].
      rewrite list_lookup_fmap, Hi. simpl. by rewrite bool_decide_eq_true_2. }
    rewrite Hnil in Hpos. by apply elem_of_nil in Hpos.
Qed.

Section normalise_total.
Context {V T : Type}.
Context (fit_transform : T → array2 V → result (T * array2 V)).
Implicit Types (d : Dataset.t V).

(** X20. On 2-D data whose speaker bookkeeping is the one the
    constructor leaves (one speaker index per row, [speaker_counts[k]]
    the number of instances of speaker [k]), per-speaker normalisation
    with a shape-preserving transformer succeeds: it writes rows of the
    original shape into the feature array (and so into
    [backend.features] while that is the same array). Speakers without
    instances are skipped and the transformer is never called on an
    empty selection. *)
Theorem normalise_speaker_total (normaliser : T) d rows counts :
  shape_preserving fit_transform →
  Dataset.x d = Arr2 rows →
  length (Dataset.speaker_indices d) = length rows →
  Dataset.speaker_counts d = Some counts →
  (∀ k, k < length (Dataset.speakers d) →
        counts !! k = Some (count_of k (Dataset.speaker_indices d))) →
  ∃ n' rows',
    Dataset.normalise fit_transform normaliser "speaker" d
    = Ok (n', Dataset.write_x d (Arr2 rows'))
    ∧ length <$> rows' = length <$> rows.
Proof.
  intros Hft Hx Hlen Hcounts Hcount. unfold Dataset.normalise.
  rewrite decide_False by done. rewrite decide_True by done.
  match goal with
  | |- context [foldlM ?body ?init ?l] =>
      destruct (foldlM_total
                  (λ s : T * ndarray V,
                     ∃ r : array2 V,
                       s.2 = Arr2 r ∧ length <$> r = length <$> rows)
                  body init l) as ([n' x'] & -> & r & Hr & Hw)
  end.
  - intros [n x] sp Hsp (r & Hr & Hw). simpl in Hr. subst x.
    apply elem_of_seq in Hsp as [_ Hsp]. simpl in Hsp.
    rewrite Hcounts. simpl getattr. rewrite result_bind_Ok.
    rewrite (proj2 (getitem_Ok _ _ _) (Hcount sp Hsp)), result_bind_Ok.
    destruct (decide (count_of sp (Dataset.speaker_indices d) = 0))
      as [|Hnz]; [by exists (n, Arr2 r); eauto|].
    destruct (speaker_positions (Dataset.speaker_indices d) sp)
      as [Hbound Hne]. specialize (Hne Hnz).
    set (idx := np.nonzero
                  ((λ i, bool_decide (i = sp)) <$> Dataset.speaker_indices d))
      in *.
    assert (length r = length rows) as Hrl.
    { apply (f_equal length) in Hw. by rewrite !length_fmap in Hw. }
    destruct (take_idx_total r idx) as (sub & Hsub & Hsel).
    { eapply Forall_impl; [exact Hbound|]. intros i Hi. simpl in Hi. lia. }
    assert (length sub = length idx) as Hsl
      by (symmetry; by eapply Forall2_length).
    destruct (Hft n sub) as (n1 & sub' & Hrun & Hshape).
    { intros ->. destruct idx; [done|]. done. }
    destruct (put_idx_widths r idx sub') as (r' & Hput & Hw').
    { assert (length sub' = length sub) as Hsl'.
      { apply (f_equal length) in Hshape. by rewrite !length_fmap in Hshape. }
      apply Forall2_same_length_lookup_2; [lia|].
      intros k i v' Hi Hv'.
      destruct (lookup_lt_is_Some_2 sub k) as [v Hv].
      { rewrite <-Hsl'. by eapply lookup_lt_Some. }
      pose proof (Forall2_lookup_lr _ _ _ _ _ _ Hsel Hi Hv) as Hriv.
      rewrite list_lookup_fmap, Hriv. simpl. f_equal.
      assert ((length <$> sub') !! k = (length <$> sub) !! k) as Heq
        by (by rewrite Hshape).
      rewrite !list_lookup_fmap, Hv, Hv' in Heq. simpl in Heq.
      by injection Heq as ->. }
    exists (n1, Arr2 r'). split.
    + unfold Dataset.normalise_at. rewrite Hsub, result_bind_Ok.
      rewrite Hrun, result_bind_Ok. rewrite Hput. reflexivity.
    + exists r'. split; [done|]. by rewrite Hw'.
  - exists rows. by rewrite Hx.
  - rewrite result_bind_Ok. simpl in Hr. subst x'. by exists n', r.
Qed.

End normalise_total.

Lemma normalise_speaker_total_witness :
  ∃ n' rows',
    Dataset.normalise ExtraExample.shift_one tt "speaker" Example.dataset_B
    = Ok (n', Dataset.write_x Example.dataset_B (Arr2 rows'))
    ∧ length <$> rows' = length <$> [[30; 31]; [40; 41]; [50; 51]].
Proof.
  apply (normalise_speaker_total ExtraExample.shift_one tt Example.dataset_B
           [[30; 31]; [40; 41]; [50; 51]] [1; 0; 2]).
  - intros st a _. exists st, (map (map S) a). split; [reflexivity|].
    rewrite <-list_fmap_compose. apply list_fmap_ext.
    intros _ row _. simpl. apply length_map.
  - reflexivity.
  - reflexivity.
  - reflexivity.
  - intros k Hk. simpl in Hk.
    destruct k as [|[|[|k]]]; [reflexivity|reflexivity|reflexivity|lia].
Defined.

(** ** The raw-audio backend *)

Section raw_audio.
Context {V : Type}.
Context (read : Path.t → result (array2 V)).
Implicit Types (cls : RawAudioBackend.class_attrs).
Implicit Types (b : RawAudioBackend.t V) (filepaths : list Path.t).

Lemma read_clips_grows cls acc filepaths cls' r :
  RawAudioBackend.read_clips read cls acc filepaths = (cls', r) →
  RawAudioBackend.cls_feature_names cls' = RawAudioBackend.cls_feature_names cls
  ∧ ∃ k, RawAudioBackend.cls_names cls'
         = RawAudioBackend.cls_names cls ++ take k (Path.stem <$> filepaths).
Proof.
  revert cls acc. induction filepaths as [|p filepaths IH]; intros cls acc;
    simpl.
  - intros [= <- <-]. split; [done|]. exists 0. by rewrite app_nil_r.
  - destruct (read p) as [audio|e].
    + intros (Hf & k & Hk)%IH. simpl in *. split; [done|].
      exists (S k). by rewrite Hk, <-(assoc_L (++)).
    + intros [= <- <-]. simpl. split; [done|]. exists 1. done.
Qed.

Lemma read_clips_Ok cls acc filepaths cls' features :
  RawAudioBackend.read_clips read cls acc filepaths = (cls', Ok features) →
  RawAudioBackend.cls_names cls'
  = RawAudioBackend.cls_names cls ++ (Path.stem <$> filepaths)
  ∧ ∃ audios, features = acc ++ audios
              ∧ Forall2 (λ p a, read p = Ok a) filepaths audios.
Proof.
  revert cls acc. induction filepaths as [|p filepaths IH]; intros cls acc;
    simpl.
  - intros [= <- <-]. split; [by rewrite app_nil_r|].
    exists []. by rewrite app_nil_r.
  - destruct (read p) as [audio|e] eqn:Hp; [|done].
    intros (Hn & audios & -> & Hall)%IH. simpl in *. split.
    + by rewrite Hn, <-(assoc_L (++)).
    + exists (audio :: audios). split; [by rewrite <-(assoc_L (++))|].
      by constructor.
Qed.

Lemma read_clips_total cls acc filepaths :
  Forall (λ p, is_Ok (read p)) filepaths →
  ∃ cls' features,
    RawAudioBackend.read_clips read cls acc filepaths = (cls', Ok features).
Proof.
  intros Hall. revert cls acc.
  induction Hall as [|p filepaths [audio Hp] _ IH]; intros cls acc; simpl.
  - by exists cls, acc.
  - rewrite Hp. apply IH.
Qed.

(** X21. Every call of the constructor, successful or not, appends
    'pcm' to the feature names of the class and only ever appends to the
    names of the class: nothing resets the two lists between
    backends. *)
Theorem raw_audio_class_lists_grow annotations corpus got cls cls' r :
  RawAudioBackend.__init__ read annotations corpus got cls = (cls', r) →
  RawAudioBackend.cls_feature_names cls'
  = RawAudioBackend.cls_feature_names cls ++ ["pcm"]
  ∧ ∃ added, RawAudioBackend.cls_names cls'
             = RawAudioBackend.cls_names cls ++ added
             ∧ ∀ filepaths, got = Ok filepaths →
                 (∃ k, added = take k (Path.stem <$> filepaths))
                 ∧ (is_Ok r → added = Path.stem <$> filepaths).
Proof.
  unfold RawAudioBackend.__init__. cbv zeta.
  destruct got as [filepaths|e]; cycle 1.
  { intros [= <- <-]. simpl. split; [done|]. exists [].
    split; [by rewrite app_nil_r|]. by intros filepaths [=]. }
  match goal with
  | |- context [RawAudioBackend.read_clips read ?c [] filepaths] =>
      destruct (RawAudioBackend.read_clips read c [] filepaths)
        as [cls1 r1] eqn:Hrun
  end.
  pose proof (read_clips_grows _ _ _ _ _ Hrun) as (Hf & k & Hk).
  simpl in Hf, Hk.
  assert (is_Ok r1 →
          take k (Path.stem <$> filepaths) = Path.stem <$> filepaths)
    as Hfull.
  { intros [features ->].
    apply read_clips_Ok in Hrun as [Hn _]. simpl in Hn.
    rewrite Hk in Hn. by apply (inj (app _)) in Hn. }
  destruct r1 as [features|e]; [destruct annotations as [[ann|e]|]|];
    intros [= <- <-];
    (split; [exact Hf|]);
    exists (take k (Path.stem <$> filepaths)); (split; [exact Hk|]);
    intros fps [= <-]; (split; [by exists k|]); intros Hok.
  - apply Hfull. by eexists.
  - by destruct Hok.
  - apply Hfull. by eexists.
  - by destruct Hok.
Qed.

(** X22. Two backends built one after the other without label files
    share their names: the second one's [names] starts with the names of
    the first one's clips, the first one now reports the second one's
    clips too, and each of them holds features for its own clips
    only. *)
Theorem raw_audio_names_shared corpus_1 corpus_2 clips_1 clips_2
    cls cls_1 cls_2 b_1 b_2 :
  RawAudioBackend.__init__ read None corpus_1 (Ok clips_1) cls
  = (cls_1, Ok b_1) →
  RawAudioBackend.__init__ read None corpus_2 (Ok clips_2) cls_1
  = (cls_2, Ok b_2) →
  RawAudioBackend.names cls_2 b_2
  = RawAudioBackend.cls_names cls
    ++ (Path.stem <$> clips_1) ++ (Path.stem <$> clips_2)
  ∧ RawAudioBackend.names cls_2 b_1 = RawAudioBackend.names cls_2 b_2
  ∧ length (RawAudioBackend._features b_1) = length clips_1
  ∧ length (RawAudioBackend._features b_2) = length clips_2
  ∧ RawAudioBackend.feature_names cls_2 b_2
    = RawAudioBackend.cls_feature_names cls ++ ["pcm"; "pcm"].
Proof.
  assert (∀ corpus clips c c' b,
            RawAudioBackend.__init__ read None corpus (Ok clips) c = (c', Ok b) →
            RawAudioBackend.cls_names c'
            = RawAudioBackend.cls_names c ++ (Path.stem <$> clips)
            ∧ RawAudioBackend.cls_feature_names c'
              = RawAudioBackend.cls_feature_names c ++ ["pcm"]
            ∧ RawAudioBackend._names b = None
            ∧ length (RawAudioBackend._features b) = length clips) as Hone.
  { intros corpus clips c c' b. unfold RawAudioBackend.__init__. cbv zeta.
    match goal with
    | |- context [RawAudioBackend.read_clips read ?c0 [] clips] =>
        destruct (RawAudioBackend.read_clips read c0 [] clips)
          as [c1 [features|e]] eqn:Hrun; [|done]
    end.
    intros [= <- <-]. simpl.
    pose proof (read_clips_grows _ _ _ _ _ Hrun) as (Hf & _).
    apply read_clips_Ok in Hrun as (Hn & audios & -> & Hall).
    simpl in *. split_and!; [done|done|done|].
    symmetry. by eapply Forall2_length. }
  intros (Hn1 & Hf1 & Hown1 & Hlen1)%Hone (Hn2 & Hf2 & Hown2 & Hlen2)%Hone.
  unfold RawAudioBackend.names, RawAudioBackend.feature_names.
  rewrite Hown1, Hown2. simpl.
  split_and!; [|done|done|done|].
  - by rewrite Hn2, Hn1, <-(assoc_L (++)).
  - by rewrite Hf2, Hf1, <-(assoc_L (++)).
Qed.

(** X23. With a label file whose annotations can be read, and clips
    that can all be decoded, the constructor succeeds: it never raises
    [KeyError]. The backend's own [names] are the annotated names among
    all the names the class has collected so far, sorted; [labels] holds
    the annotation of each of these names, in the same order; and
    [features] still holds one item per clip of the file list, in the
    order of the file list. *)
Theorem raw_audio_labelled (annotations : gmap string string) corpus clips cls :
  Forall (λ p, is_Ok (read p)) clips →
  ∃ cls' b names labels,
    RawAudioBackend.__init__ read (Some (Ok annotations)) corpus (Ok clips) cls
    = (cls', Ok b)
    ∧ RawAudioBackend._names b = Some names
    ∧ RawAudioBackend._labels b = Some labels
    ∧ StronglySorted String.le names
    ∧ names ≡ₚ filter (λ x, is_Some (annotations !! x))
                 (RawAudioBackend.cls_names cls ++ (Path.stem <$> clips))
    ∧ Forall2 (λ name label, annotations !! name = Some label) names labels
    ∧ Forall2 (λ p a, read p = Ok a) clips (RawAudioBackend._features b).
Proof.
  intros Hall. unfold RawAudioBackend.__init__. cbv zeta.
  match goal with
  | |- context [RawAudioBackend.read_clips read ?c0 [] clips] =>
      destruct (read_clips_total c0 [] clips Hall) as (cls' & features & Hrun);
      rewrite Hrun
  end.
  apply read_clips_Ok in Hrun as (Hn & audios & -> & Hread). simpl in Hn.
  rewrite Hn.
  set (names := merge_sort String.le
                  (filter (λ x, is_Some (annotations !! x))
                     (RawAudioBackend.cls_names cls ++ (Path.stem <$> clips)))).
  assert (names ≡ₚ filter (λ x, is_Some (annotations !! x))
                     (RawAudioBackend.cls_names cls ++ (Path.stem <$> clips)))
    as Hperm by apply merge_sort_Permutation.
  destruct (mapM_total (RawAudioBackend.annotation annotations) names)
    as [labels Hlabels].
  { apply Forall_forall. intros name Hname. rewrite Hperm in Hname.
    apply list_elem_of_filter in Hname as [[label Hlabel] _].
    exists label. unfold RawAudioBackend.annotation. by rewrite Hlabel. }
  rewrite Hlabels, result_bind_Ok.
  eexists _, _, names, labels. split; [reflexivity|]. simpl.
  split_and!; [done|done| |done| |done].
  - apply (StronglySorted_merge_sort _).
  - apply mapM_Ok in Hlabels. eapply Forall2_impl; [exact Hlabels|].
    intros name label. unfold RawAudioBackend.annotation.
    destruct (annotations !! name); [by intros [= ->]|done].
Qed.

End raw_audio.

Lemma raw_audio_class_lists_grow_witness :
  ∃ cls',
    RawAudioBackend.__init__ RawAudioExample.read_first_only None "A"
      (Ok RawAudioExample.clips_1) RawAudioBackend.at_import
    = (cls', Raise OSError)
    ∧ RawAudioBackend.cls_feature_names cls'
      = RawAudioBackend.cls_feature_names RawAudioBackend.at_import ++ ["pcm"]
    ∧ ∃ added, RawAudioBackend.cls_names cls'
               = RawAudioBackend.cls_names RawAudioBackend.at_import ++ added
               ∧ ∀ filepaths, Ok RawAudioExample.clips_1 = Ok filepaths →
                   (∃ k, added = take k (Path.stem <$> filepaths))
                   ∧ (is_Ok (Raise OSError : result (RawAudioBackend.t nat)) →
                      added = Path.stem <$> filepaths).
Proof.
  eexists.
  assert (∀ P Q : Prop, P → (P → Q) → P ∧ Q) as Hcut by tauto.
  apply Hcut; [vm_compute; reflexivity|]. intros H.
  exact (raw_audio_class_lists_grow RawAudioExample.read_first_only None "A"
           (Ok RawAudioExample.clips_1) _ _ _ H).
Defined.

Lemma raw_audio_names_shared_witness :
  ∃ cls_1 cls_2 b_1 b_2,
    RawAudioBackend.__init__ RawAudioExample.read None "A"
      (Ok RawAudioExample.clips_1) RawAudioBackend.at_import = (cls_1, Ok b_1)
    ∧ RawAudioBackend.__init__ RawAudioExample.read None "B"
        (Ok RawAudioExample.clips_2) cls_1 = (cls_2, Ok b_2)
    ∧ RawAudioBackend.names cls_2 b_2 = ["s1_001"; "s2_001"; "t1_001"]
    ∧ RawAudioBackend.names cls_2 b_1 = RawAudioBackend.names cls_2 b_2
    ∧ length (RawAudioBackend._features b_1) = 2
    ∧ length (RawAudioBackend._features b_2) = 1
    ∧ RawAudioBackend.feature_names cls_2 b_2 = ["pcm"; "pcm"].
Proof.
  eexists _, _, _, _.
  assert (∀ P Q : Prop, P → (P → Q) → P ∧ Q) as Hcut by tauto.
  apply Hcut; [vm_compute; reflexivity|]. intros H1.
  apply Hcut; [vm_compute; reflexivity|]. intros H2.
  exact (raw_audio_names_shared RawAudioExample.read "A" "B"
           RawAudioExample.clips_1 RawAudioExample.clips_2 _ _ _ _ _ H1 H2).
Defined.

Lemma raw_audio_labelled_witness :
  ∃ cls' b names labels,
    RawAudioBackend.__init__ RawAudioExample.read
      (Some (Ok RawAudioExample.annotations)) "A"
      (Ok RawAudioExample.clips_1) RawAudioBackend.at_import = (cls', Ok b)
    ∧ RawAudioBackend._names b = Some names
    ∧ RawAudioBackend._labels b = Some labels
    ∧ StronglySorted String.le names
    ∧ names ≡ₚ filter (λ x, is_Some (RawAudioExample.annotations !! x))
                 (RawAudioBackend.cls_names RawAudioBackend.at_import
                  ++ (Path.stem <$> RawAudioExample.clips_1))
    ∧ Forall2 (λ name label,
                 RawAudioExample.annotations !! name = Some label) names labels
    ∧ Forall2 (λ p a, RawAudioExample.read p = Ok a)
        RawAudioExample.clips_1 (RawAudioBackend._features b).
Proof.
  apply (raw_audio_labelled RawAudioExample.read RawAudioExample.annotations).
  repeat constructor; by eexists.
Defined.

(** ** The classifier name of the training script *)

Lemma find_from_ge c i s : (str.find_from c i s = -1 ∨ Z.of_nat i ≤ str.find_from c i s)%Z.
Proof.
  revert i. induction s as [|a s IH]; intros i; simpl; [by left|].
  destruct (decide (a = c)); [right; lia|].
  destruct (IH (S i)) as [->|]; [by left|right; lia].
Qed.

Lemma find_from_shift c i s :
  (0 ≤ str.find_from c i s)%Z →
  str.find_from c (S i) s = (str.find_from c i s + 1)%Z.
Proof.
  revert i. induction s as [|a s IH]; intros i; simpl; [lia|].
  destruct (decide (a = c)); [lia|]. apply IH.
Qed.

Lemma find_from_absent c i s :
  str.find_from c i s = (-1)%Z ↔ str.contains c s = false.
Proof.
  revert i. induction s as [|a s IH]; intros i; simpl; [done|].
  destruct (decide (a = c)) as [->|Hne].
  - rewrite bool_decide_eq_true_2 by done. simpl. split; [lia|done].
  - rewrite bool_decide_eq_false_2 by done. simpl. apply IH.
Qed.

(** X24. The [--kind] argument is split at its first slash: the type
    never contains a slash; when the argument has a slash, type, slash
    and kind put together give the argument back; when it has none, the
    type is empty and the kind is the whole argument. *)
Theorem split_kind_first_slash (kind : string) :
  str.contains slash (split_kind kind).1 = false
  ∧ (if str.contains slash kind
     then kind = (split_kind kind).1 +:+ "/" +:+ (split_kind kind).2
     else split_kind kind = (EmptyString, kind)).
Proof.
  unfold split_kind, str.find. cbv zeta.
  assert (∀ i s, (Z.of_nat i ≤ str.find_from slash i s)%Z →
            str.contains slash s = true
            ∧ str.contains slash
                (str.upto (Z.to_nat (str.find_from slash i s) - i) s) = false
            ∧ s = str.upto (Z.to_nat (str.find_from slash i s) - i) s
                  +:+ "/"
                  +:+ str.from (Z.to_nat (str.find_from slash i s + 1) - i) s)
    as Hfound.
  { intros i s. revert i. induction s as [|a s IH]; intros i;
      cbn [str.find_from str.contains]; [lia|].
    destruct (decide (a = slash)) as [->|Hne].
    - intros _. rewrite bool_decide_eq_true_2 by done.
      replace (Z.to_nat (Z.of_nat i) - i) with 0 by lia.
      replace (Z.to_nat (Z.of_nat i + 1) - i) with 1 by lia.
      done.
    - intros Hle. rewrite bool_decide_eq_false_2 by done.
      assert (Z.of_nat (S i) ≤ str.find_from slash (S i) s)%Z as Hle'.
      { destruct (find_from_ge slash (S i) s) as [Heq|]; [lia|done]. }
      destruct (IH (S i) Hle') as (Hin & Hout & Hs).
      replace (Z.to_nat (str.find_from slash (S i) s) - i)
        with (S (Z.to_nat (str.find_from slash (S i) s) - S i)) by lia.
      replace (Z.to_nat (str.find_from slash (S i) s + 1) - i)
        with (S (Z.to_nat (str.find_from slash (S i) s + 1) - S i)) by lia.
      cbn [str.upto str.from str.contains].
      rewrite bool_decide_eq_false_2 by done.
      split_and!; [done|done|].
      apply (f_equal (String a)) in Hs. exact Hs. }
  destruct (decide (0 ≤ str.find_from slash 0 kind)%Z) as [Hpos|Hneg];
    cbn [fst snd].
  - destruct (Hfound 0 kind Hpos) as (-> & Hout & Hs).
    repeat rewrite Nat.sub_0_r in Hout. repeat rewrite Nat.sub_0_r in Hs.
    done.
  - assert (str.find_from slash 0 kind = (-1)%Z) as Habs.
    { destruct (find_from_ge slash 0 kind); [done|lia]. }
    apply find_from_absent in Habs. by rewrite Habs.
Qed.

(** ** The corpus split on unknown and repeated corpus names *)

Section corpus_split_more.
Context {V : Type}.
Implicit Types (d : LabelledDataset.t V) (datasets : list (LabelledDataset.t V)).
Implicit Types (cd : CombinedDataset.t V).

(** X25. On a merged dataset, asking for the split of a corpus that
    none of the sources has raises [ValueError]. *)
Theorem get_corpus_split_unknown datasets labels cd (corpus : string) :
  CombinedDataset.__init__ datasets labels = Ok cd →
  Forall (λ d, Dataset.corpus d ≠ corpus) datasets →
  CombinedDataset.get_corpus_split corpus cd = Raise ValueError.
Proof.
  intros (Hcorpora & _)%combined_init_fields Hnone.
  unfold CombinedDataset.get_corpus_split, CombinedDataset.corpus_to_idx.
  rewrite index_not_elem_of; [done|].
  rewrite Hcorpora. intros (d & Hd & Hin)%list_elem_of_fmap.
  by apply (proj1 (Forall_forall _ _) Hnone d Hin).
Qed.

(** X26. Sources are told apart by position, the split by name: when
    two sources have the same corpus name, the split of that corpus
    leaves every instance of the later source among the other
    indices. *)
Theorem get_corpus_split_repeated_name datasets labels cd j j' d d'
    corpus_idx other_idx :
  CombinedDataset.__init__ datasets labels = Ok cd →
  Forall (λ d, len (Dataset.x d) = Dataset.n_instances d) datasets →
  datasets !! j = Some d → datasets !! j' = Some d' → j < j' →
  Dataset.corpus d = Dataset.corpus d' →
  CombinedDataset.get_corpus_split (Dataset.corpus d') cd
  = Ok (corpus_idx, other_idx) →
  ∀ i, i < Dataset.n_instances d' →
    offset datasets j' + i ∈ other_idx ∧ offset datasets j' + i ∉ corpus_idx.
Proof.
  intros Hinit Hlen Hd Hd' Hlt Hsame Hsplit i Hi.
  destruct (combined_init_fields _ _ _ Hinit) as (Hcorpora & Hci & _).
  unfold CombinedDataset.get_corpus_split, CombinedDataset.corpus_to_idx in Hsplit.
  apply bind_Ok in Hsplit as (k & Hk & [= <- <-]).
  assert (k ≤ j) as Hkj.
  { apply (index_first _ _ _ Hk). rewrite Hcorpora, list_lookup_fmap, Hd.
    simpl. by rewrite Hsame. }
  assert (CombinedDataset.corpus_indices cd !! (offset datasets j' + i)
          = Some j') as Htag.
  { rewrite Hci. unfold offset.
    change (np.repeat_arange ?s) with (repeat_from 0 s).
    replace ((λ d0, Dataset.n_instances d0) <$> take j' datasets)
      with (take j' ((λ d0 : LabelledDataset.t V, len (Dataset.x d0))
                       <$> datasets)).
    - apply (repeat_from_lookup 0 _ j' (len (Dataset.x d'))).
      + by rewrite list_lookup_fmap, Hd'.
      + by rewrite (proj1 (Forall_lookup _ _) Hlen j' d' Hd').
    - rewrite <-fmap_take. apply Forall_fmap_ext_1.
      by apply Forall_take. }
  unfold np.nonzero. rewrite !positions_spec. split.
  - exists true. split; [|done].
    rewrite !list_lookup_fmap, Htag. simpl.
    rewrite bool_decide_eq_false_2 by lia. done.
  - intros (b & Hb & Htrue). rewrite list_lookup_fmap, Htag in Hb.
    simpl in Hb. injection Hb as <-.
    rewrite bool_decide_eq_false_2 in Htrue by lia. done.
Qed.

End corpus_split_more.

Lemma get_corpus_split_unknown_witness :
  CombinedDataset.get_corpus_split "C" Example.combined_AB = Raise ValueError.
Proof.
  apply (get_corpus_split_unknown [Example.dataset_A; Example.dataset_B] None).
  - vm_compute. reflexivity.
  - repeat constructor; discriminate.
Defined.

Lemma get_corpus_split_repeated_name_witness :
  ∃ cd corpus_idx other_idx,
    CombinedDataset.__init__ [Example.dataset_A; Example.dataset_A] None = Ok cd
    ∧ CombinedDataset.get_corpus_split (Dataset.corpus Example.dataset_A) cd
      = Ok (corpus_idx, other_idx)
    ∧ ∀ i, i < Dataset.n_instances Example.dataset_A →
        offset [Example.dataset_A; Example.dataset_A] 1 + i ∈ other_idx
        ∧ offset [Example.dataset_A; Example.dataset_A] 1 + i ∉ corpus_idx.
Proof.
  eexists _, _, _.
  assert (∀ P Q : Prop, P → (P → Q) → P ∧ Q) as Hcut by tauto.
  apply Hcut; [vm_compute; reflexivity|]. intros Hinit.
  apply Hcut; [vm_compute; reflexivity|]. intros Hsplit.
  apply (get_corpus_split_repeated_name
           [Example.dataset_A; Example.dataset_A] None _ 0 1
           Example.dataset_A Example.dataset_A _ _ Hinit).
  - repeat constructor.
  - reflexivity.
  - reflexivity.
  - lia.
  - reflexivity.
  - exact Hsplit.
Defined.
